(** * yabtorrent: the download manager and the URL codec

    A shallow embedding of [bt_download_manager.c] (the mediator that binds
    peer connections, the piece database, the piece selector, the blacklist
    and the job queue) and of the percent-encoding helpers [url_encode] and
    [url_decode], together with the properties of them that the
    specification states.

    C [int] and [char] values are integers of [Z]; a [char] is a signed
    byte and conversions to it wrap modulo 256.  Pointers to peers are
    references (numbers) into the peer manager; a NULL pointer is [None],
    or [0] for the opaque net handle. *)

From stdpp Require Import base list strings gmap pretty.
From Stdlib Require Import ZArith Lia.

Local Open Scope Z_scope.

(** ** Percent-encoding (the URL helper file) *)

Module Url.

(** [(char) z]: conversion of an [int] to a signed 8-bit [char]. *)
Definition to_char (z : Z) : Z := (z + 128) mod 256 - 128.

(** A C string without its terminating NUL: every element is a non-zero
    [char]. *)
Definition is_char (c : Z) : Prop := -128 <= c <= 127.
Definition c_string (s : list Z) : Prop := Forall (fun c => is_char c /\ c <> 0) s.

(** <ctype.h> in the "C" locale. *)
Definition isdigit (c : Z) : bool := (48 <=? c) && (c <=? 57).
Definition isupper (c : Z) : bool := (65 <=? c) && (c <=? 90).
Definition islower (c : Z) : bool := (97 <=? c) && (c <=? 122).
Definition isalnum (c : Z) : bool := isdigit c || isupper c || islower c.
Definition tolower (c : Z) : Z := if isupper c then c + 32 else c.

(** [static char hex[] = "0123456789ABCDEF"] *)
Definition hex : list Z :=
  [48; 49; 50; 51; 52; 53; 54; 55; 56; 57; 65; 66; 67; 68; 69; 70].

(** [char from_hex(char ch)] *)
Definition from_hex (ch : Z) : Z :=
  to_char (if isdigit ch then ch - 48 else tolower ch - 97 + 10).

(** [char to_hex(char code)]: [hex[code & 15]]. *)
Definition to_hex (code : Z) : Z :=
  nth (Z.to_nat (Z.land code 15)) hex 0.

(** [url_encode]: the loop over [*pstr]; each iteration appends either
    the byte itself or ['%'] and two hex digits.  The arguments of
    [to_hex] are [int]s ([*pstr >> 4], [*pstr & 15]) converted to
    [char]. *)
Fixpoint url_encode (str : list Z) : list Z :=
  match str with
  | [] => []
  | c :: pstr =>
      if isalnum c then c :: url_encode pstr
      else 37 :: to_hex (to_char (Z.shiftr c 4))
              :: to_hex (to_char (Z.land c 15)) :: url_encode pstr
  end.

(** [url_decode]: at ['%'] the two following bytes are read when both are
    present ([pstr[1] && pstr[2]]), otherwise only the ['%'] is skipped;
    ['+'] becomes a space; every other byte is copied. *)
Fixpoint url_decode (str : list Z) : list Z :=
  match str with
  | [] => []
  | c :: pstr =>
      if c =? 37 then
        match pstr with
        | p1 :: p2 :: rest =>
            to_char (Z.lor (Z.shiftl (from_hex p1) 4) (from_hex p2))
              :: url_decode rest
        | _ => url_decode pstr
        end
      else if c =? 43 then 32 :: url_decode pstr
      else c :: url_decode pstr
  end.

(** What the encoder emits for one byte, in the words of its
    description: alphanumerics unchanged, anything else as ['%'] and two
    digits of [hex]. *)
Definition encode_byte (c : Z) : list Z :=
  if isalnum c then [c]
  else [37; nth (Z.to_nat (Z.land (Z.shiftr c 4) 15)) hex 0;
            nth (Z.to_nat (Z.land c 15)) hex 0].

(** A digit of the uppercase hexadecimal notation. *)
Definition is_upper_hex (d : Z) : bool :=
  isdigit d || ((65 <=? d) && (d <=? 70)).

(** [out] is what the description allows for byte [c]: the byte itself
    when it is alphanumeric, otherwise ['%'] and two uppercase hex
    digits. *)
Definition encoded_as (c : Z) (out : list Z) : bool :=
  match out with
  | [x] => isalnum c && (x =? c)
  | [p; h; l] => negb (isalnum c) && (p =? 37) && is_upper_hex h && is_upper_hex l
  | _ => false
  end.

(** All 256 values of a signed [char]. *)
Definition all_chars : list Z := map (fun n => Z.of_nat n - 128) (seq 0 256).

(** The check made for each byte: the encoder emits what the description
    says, and the decoder gives the byte back. *)
Definition byte_roundtrips (c : Z) : bool :=
  bool_decide (url_encode [c] = encode_byte c) &&
  encoded_as c (encode_byte c) &&
  bool_decide (url_decode (url_encode [c]) = [c]).

End Url.

(** ** C library functions used by the download manager *)

Module Libc.

Definition code (c : Ascii.ascii) : Z := Z.of_nat (Ascii.nat_of_ascii c).

(** [strncmp(a, b, n)]: compares at most [n] bytes as [unsigned char],
    stopping at the first difference or at the NUL of both. *)
Fixpoint strncmp_nat (a b : string) (n : nat) : Z :=
  match n with
  | O => 0
  | S n' =>
      match a, b with
      | EmptyString, EmptyString => 0
      | EmptyString, String d _ => 0 - code d
      | String c _, EmptyString => code c
      | String c a', String d b' =>
          if code c =? code d then strncmp_nat a' b' n' else code c - code d
      end
  end.

(** The count is a [size_t]: a negative [int] converts to a value larger
    than any string, so the whole strings are compared. *)
Definition strncmp (a b : string) (n : Z) : Z :=
  if n <? 0 then strncmp_nat a b (S (String.length a))
  else strncmp_nat a b (Z.to_nat n).

Definition isspace (c : Z) : bool := (c =? 32) || ((9 <=? c) && (c <=? 13)).

Fixpoint atoi_digits (s : string) (acc : Z) : Z :=
  match s with
  | EmptyString => acc
  | String c s' =>
      if Url.isdigit (code c) then atoi_digits s' (acc * 10 + (code c - 48))
      else acc
  end.

Definition atoi_signed (s : string) : Z :=
  match s with
  | String c s' =>
      if code c =? 45 then - atoi_digits s' 0
      else if code c =? 43 then atoi_digits s' 0
      else atoi_digits s 0
  | EmptyString => 0
  end.

(** [atoi]: leading white space, an optional sign, then decimal digits
    (values that overflow an [int] are outside what C defines). *)
Fixpoint atoi (s : string) : Z :=
  match s with
  | String c s' => if isspace (code c) then atoi s' else atoi_signed s
  | EmptyString => 0
  end.

(** [vsprintf(buf, fmt, args)] when no argument was passed for [fmt]: the
    characters are copied and ["%%"] prints as ["%"].  Every other
    conversion reads an argument that is not there, and a ['%'] that ends
    the format is no conversion at all; C leaves both undefined, which is
    [None]. *)
Fixpoint vsprintf_plain (fmt : string) : option string :=
  match fmt with
  | EmptyString => Some EmptyString
  | String c rest =>
      if code c =? 37 then
        match rest with
        | String d rest' =>
            if code d =? 37 then String d <$> vsprintf_plain rest' else None
        | EmptyString => None
        end
      else String c <$> vsprintf_plain rest
  end.

(** What [vsprintf_plain] prints; a format for which it is undefined is
    left as it is. *)
Definition printed (fmt : string) : string := default fmt (vsprintf_plain fmt).

(** One digit of ["%lx"]: ['0'] to ['9'], then ['a'] to ['f']. *)
Definition hex_digit (d : Z) : Ascii.ascii :=
  Ascii.ascii_of_nat (Z.to_nat (if d <? 10 then 48 + d else 87 + d)).

(** The hexadecimal digits of [z] in front of [acc], at most [n] of them. *)
Fixpoint hex_digits (n : nat) (z : Z) (acc : string) : string :=
  match n with
  | O => acc
  | S n' =>
      let acc' := String (hex_digit (z mod 16)) acc in
      if z / 16 =? 0 then acc' else hex_digits n' (z / 16) acc'
  end.

(** ["%lx"] of a value converted to [unsigned long] (64 bits): lower-case
    hexadecimal without leading zeros. *)
Definition fmt_lx (z : Z) : string := hex_digits 16 (z mod 2 ^ 64) "".

(** ["\n"] *)
Definition newline : string := String (Ascii.ascii_of_nat 10) EmptyString.

End Libc.

(** ** Data of the download manager and of its collaborators *)

(** A [bt_peer_t*]: a reference into the table of peer objects. *)
Definition peer_ref := nat.

(** Modelled from the spec: [bt_block_t] of the absent [bt.h], three
    [int]s: piece index, offset and length. *)
Record bt_block_t := mk_block { piece_idx : Z; offset : Z; len : Z }.

#[global] Instance bt_block_eq_dec : EqDecision bt_block_t.
Proof. solve_decision. Defined.

(** Modelled from the spec: the peer-wire messages (section 6) that the
    absent peer-wire library hands to [peer_send]. *)
Inductive pwp_msg :=
| MsgHandshake (infohash peerid : string)
| MsgKeepAlive
| MsgChoke
| MsgUnchoke
| MsgInterested
| MsgNotInterested
| MsgHave (idx : Z)
| MsgBitfield (bits : list bool)
| MsgRequest (b : bt_block_t)
| MsgPiece (b : bt_block_t) (data : list Z)
| MsgCancel (b : bt_block_t).

#[global] Instance pwp_msg_eq_dec : EqDecision pwp_msg.
Proof. solve_decision. Defined.

(** Modelled from the spec: the flags of a peer connection, declared in
    the absent [pwp_connection.h]. *)
Inductive pc_flag :=
| PC_HANDSHAKE_SENT
| PC_HANDSHAKE_RECEIVED
| PC_IM_CHOKING
| PC_IM_INTERESTED
| PC_PEER_CHOKING
| PC_PEER_INTERESTED
| PC_FAILED_CONNECTION.

#[global] Instance pc_flag_eq_dec : EqDecision pc_flag.
Proof. solve_decision. Defined.

(** Modelled from the spec: the peer connection object of the absent
    [pwp_connection.c], with the state the specification lists for it. *)
Record pwp_conn := mk_pc {
  flags : list pc_flag;
  peer_bitfield : list bool;
  pending_requests : list bt_block_t;
  pc_drate : Z;
  pc_urate : Z;
  pc_npieces : Z;
  pc_piece_length : Z
}.

(** Modelled from the spec: the handshaker of the absent
    [pwp_handshaker.c] knows the infohash and our peer id and buffers
    bytes until the 68 of a handshake arrived. *)
Record pwp_handshaker := mk_hs {
  hs_infohash : option string;
  hs_my_peerid : option string;
  hs_buf : list Z
}.

(** Modelled from the spec: the message handler of the absent
    [pwp_msghandler.c] buffers partial messages. *)
Record pwp_msghandler := mk_mh { mh_buf : list Z }.

(** [peer->mh] points to a handshaker first and to a message handler
    afterwards. *)
Inductive msg_handling :=
| Handshaker (h : pwp_handshaker)
| MsgHandler (m : pwp_msghandler).

(** Modelled from the spec: [bt_peer_t] of the absent [bt_local.h], with
    the fields the download manager uses. *)
Record bt_peer_t := mk_peer {
  peer_id : string;
  ip : string;
  port : Z;
  nethandle : Z;
  pc : option pwp_conn;
  mh : option msg_handling
}.

(** Calls a peer connection makes back into the download manager: the
    table [pwp_conn_cbs_t] that [bt_dm_add_peer] installs. *)
Inductive pc_callback :=
| CbLog (buf : string)
| CbSend (m : pwp_msg)
| CbPushblock (b : bt_block_t) (data : list Z)
| CbPollblock
| CbDisconnect (reason : string)
| CbPeerHavePiece (idx : Z)
| CbPeerGivebackBlock (b : bt_block_t)
| CbWriteBlockToStream (b : bt_block_t).

(** Modelled from the spec: the state of a block of a piece. *)
Inductive block_state := MISSING | REQUESTED | RECEIVED.

#[global] Instance block_state_eq_dec : EqDecision block_state.
Proof. solve_decision. Defined.

(** Modelled from the spec: a piece of the absent [bt_piece.c]: its index,
    size and expected SHA-1, the state and the bytes of each 16 KiB block,
    and the peers that contributed blocks. *)
Record bt_piece_t := mk_piece {
  idx : Z;
  piece_size : Z;
  sha1sum : list Z;
  blocks : list (block_state * list Z);
  piece_peers : list peer_ref
}.

(** Modelled from the spec: the two states of a blacklist entry. *)
Inductive bl_state := SUSPECTED | BANNED.

#[global] Instance bl_state_eq_dec : EqDecision bl_state.
Proof. solve_decision. Defined.

(** Modelled from the spec: the blacklist of the absent [bt_blacklist.c]
    holds (piece, peer) edges, each SUSPECTED or BANNED. *)
Record bl_entry := mk_bl { bl_piece : Z; bl_peer : peer_ref; bl_st : bl_state }.

(** [bt_job_t]: a tag and, for [BT_JOB_POLLBLOCK], the peer. *)
Inductive bt_job_t :=
| BT_JOB_NONE
| BT_JOB_POLLBLOCK (peer : peer_ref).

(** The two functions the download manager passes to the host's
    [call_exclusively], always with the slot [&me->job_lock]. *)
Inductive excl_fn := OFFER_JOB | POLL_JOB.

(** Calls through the selector interface [me->ips]. *)
Inductive selector_call :=
| SelAddPeer (p : peer_ref)
| SelRemovePeer (p : peer_ref)
| SelHavePiece (i : Z)
| SelPeerHavePiece (p : peer_ref) (i : Z)
| SelPeerGivebackPiece (p : option peer_ref) (i : Z)
| SelPollPiece (p : peer_ref) (answer : Z).

(** What the download manager does to the world outside its own fields,
    in the order it does it. *)
Inductive event :=
| EvLog (line : string)
| EvPrintf (line : string)
| EvPeerSend (p : peer_ref) (nh : Z) (m : pwp_msg)
| EvPeerConnect (ip : string) (port : Z)
| EvCallExclusively (fn : excl_fn) (payload result : option bt_job_t)
| EvSelector (c : selector_call)
| EvHandshakerDispatch (p : peer_ref) (buf : list Z)
| EvHandshakerRelease (p : peer_ref)
| EvMsgHandlerNew (p : peer_ref)
| EvMsgHandlerDispatch (p : peer_ref) (buf : list Z)
| EvPcPeriodic (p : peer_ref)
| EvPcOfferBlock (p : peer_ref) (b : bt_block_t).

(** Modelled from the spec: [bt_dm_cbs_t] of the absent [bt.h] (section
    6), the host's callbacks; a NULL function pointer is [None]
    (or [false] where only the presence matters).  [peer_connect] answers
    with its result and the net handle it stores; [peer_send] with its
    result. *)
Record bt_dm_cbs_t := mk_cbs {
  peer_connect : option (string -> Z -> Z * Z);
  peer_send : option (Z -> pwp_msg -> Z);
  call_exclusively : bool;
  log : bool
}.

(** [bt_dm_peer_stats_t] of the absent [bt.h], with the fields that
    [__FUNC_peer_stats_visitor] fills. *)
Record bt_dm_peer_stats_t := mk_pstats {
  ps_choked : bool;
  ps_choking : bool;
  ps_connected : bool;
  ps_failed_connection : bool;
  ps_drate : Z;
  ps_urate : Z
}.

(** [bt_dm_stats_t] of the absent [bt.h]: the array of peer statistics,
    its capacity and the number of entries in use. *)
Record bt_dm_stats_t := mk_stats {
  npeers_size : Z;
  npeers : Z;
  st_peers : list (option bt_dm_peer_stats_t)
}.

(** The collaborators whose code is pluggable or lives in other libraries:
    the piece selector behind [bt_pieceselector_i], SHA-1 and the disk
    behind a piece, and the parsers and the periodic step of the peer-wire
    library.  A peer-connection operation answers with the new connection
    state and the callbacks (or messages) it issued. *)
Class Collaborators := {
  selector : Type;
  ips_new : Z -> selector;
  ips_add_peer : selector -> peer_ref -> selector;
  ips_remove_peer : selector -> peer_ref -> selector;
  ips_have_piece : selector -> Z -> selector;
  ips_peer_have_piece : selector -> peer_ref -> Z -> selector;
  ips_peer_giveback_piece : selector -> option peer_ref -> Z -> selector;
  ips_poll_piece : selector -> peer_ref -> selector * Z;
  sha1 : list Z -> list Z;
  disk_write_block : bt_block_t -> list Z -> bool;
  pwp_handshaker_dispatch_from_buffer :
    pwp_handshaker -> list Z -> Z * pwp_handshaker * list Z;
  pwp_msghandler_dispatch_from_buffer :
    pwp_msghandler -> pwp_conn -> list Z ->
    Z * pwp_msghandler * pwp_conn * list pc_callback;
  pwp_conn_periodic : pwp_conn -> pwp_conn * list pc_callback;
  pwp_conn_offer_block : pwp_conn -> bt_block_t -> pwp_conn * list pwp_msg
}.

(** ** Collaborators modelled from the specification

    The sparse counter, the blacklist, the piece and the small operations
    of the peer connection are code of other files.  Each is modelled by
    what the specification says of it. *)

(** Modelled from the spec: the sparse counter of the absent
    [sparse_counter.c] records the ranges marked complete. *)
Definition sparsecounter := list (Z * Z).

(** Modelled from the spec: [sc_mark_complete(sc, offset, len)] of the
    absent [sparse_counter.c] adds the range; the download manager marks
    the range of length 1 at a piece index. *)
Definition sc_mark_complete (sc : sparsecounter) (off l : Z) : sparsecounter :=
  (off, l) :: sc.

(** Modelled from the spec: the fast "is complete" of the absent
    [sparse_counter.c]: index [i] lies in a marked range. *)
Definition sc_have (sc : sparsecounter) (i : Z) : bool :=
  existsb (fun r => (r.1 <=? i) && (i <? r.1 + r.2)) sc.

(** Modelled from the spec: the bitfield that the absent
    [pwp_send_bitfield] derives from the sparse counter has one bit per
    piece, set where the counter has the piece. *)
Definition sc_bitfield (npcs : Z) (sc : sparsecounter) : list bool :=
  map (fun i => sc_have sc (Z.of_nat i)) (seq 0 (Z.to_nat npcs)).

(** Modelled from the spec: [bt_blacklist_add_peer] of the absent
    [bt_blacklist.c] bans the peer outright (section 4.7). *)
Definition bt_blacklist_add_peer (bl : list bl_entry) (piece : Z) (p : peer_ref)
  : list bl_entry :=
  bl ++ [mk_bl piece p BANNED].

(** Modelled from the spec: the distinct pieces for which the blacklist
    suspects peer [p]. *)
Definition suspected_pieces (bl : list bl_entry) (p : peer_ref) : list Z :=
  remove_dups
    (map bl_piece
       (filter (fun e => bl_peer e = p /\ bl_st e = SUSPECTED) bl)).

(** Modelled from the spec: [bt_blacklist_add_peer_as_potentially_blacklisted]
    of the absent [bt_blacklist.c] adds a SUSPECTED edge and promotes the
    peer to BANNED once it is suspected for two distinct pieces. *)
Definition bt_blacklist_add_peer_as_potentially_blacklisted
    (bl : list bl_entry) (piece : Z) (p : peer_ref) : list bl_entry :=
  let bl1 := bl ++ [mk_bl piece p SUSPECTED] in
  if (2 <=? length (suspected_pieces bl1 p))%nat
  then map (fun e => if decide (bl_peer e = p)
                     then mk_bl (bl_piece e) p BANNED else e) bl1
  else bl1.

(** Modelled from the spec: [is_banned(peer)] of the absent
    [bt_blacklist.c]. *)
Definition bt_blacklist_is_banned (bl : list bl_entry) (p : peer_ref) : bool :=
  existsb (fun e => bool_decide (bl_peer e = p /\ bl_st e = BANNED)) bl.

(** Modelled from the spec: the size of a block, 16 KiB, from the absent
    [bt_piece.c]. *)
Definition BLOCK_SIZE : Z := 16384.

(** Modelled from the spec: [bt_piece_get_idx] of the absent
    [bt_piece.c]. *)
Definition bt_piece_get_idx (p : bt_piece_t) : Z := idx p.

(** Modelled from the spec: [bt_piece_num_peers] of the absent
    [bt_piece.c], the number of contributing peers. *)
Definition bt_piece_num_peers (p : bt_piece_t) : Z :=
  Z.of_nat (length (piece_peers p)).

(** Modelled from the spec: [bt_piece_is_fully_requested] of the absent
    [bt_piece.c]: no block is MISSING. *)
Definition bt_piece_is_fully_requested (p : bt_piece_t) : bool :=
  forallb (fun b => negb (bool_decide (b.1 = MISSING))) (blocks p).

(** Modelled from the spec: every block of the piece is RECEIVED. *)
Definition all_received (p : bt_piece_t) : bool :=
  forallb (fun b => bool_decide (b.1 = RECEIVED)) (blocks p).

(** Modelled from the spec: the index of the next MISSING block. *)
Fixpoint first_missing (bs : list (block_state * list Z)) : option nat :=
  match bs with
  | [] => None
  | b :: bs' =>
      if decide (b.1 = MISSING) then Some O else S <$> first_missing bs'
  end.

(** The piece with other blocks. *)
Definition set_blocks (bs : list (block_state * list Z)) (p : bt_piece_t)
  : bt_piece_t :=
  mk_piece (idx p) (piece_size p) (sha1sum p) bs (piece_peers p).

(** Modelled from the spec: the [k]-th block of a piece, of length
    [min(16384, piece.length - offset)]. *)
Definition block_at (p : bt_piece_t) (k : nat) : bt_block_t :=
  mk_block (idx p) (Z.of_nat k * BLOCK_SIZE)
           (Z.min BLOCK_SIZE (piece_size p - Z.of_nat k * BLOCK_SIZE)).

(** Modelled from the spec: [bt_piece_poll_block_request(piece, &blk)] of
    the absent [bt_piece.c] returns the next MISSING block and marks it
    REQUESTED. *)
Definition bt_piece_poll_block_request (p : bt_piece_t) : bt_piece_t * bt_block_t :=
  match first_missing (blocks p) with
  | Some k => (set_blocks (alter (fun b => (REQUESTED, b.2)) k (blocks p)) p,
               block_at p k)
  | None => (p, mk_block (idx p) 0 0)
  end.

(** Modelled from the spec: [bt_piece_giveback_block] of the absent
    [bt_piece.c] flips a REQUESTED block back to MISSING. *)
Definition bt_piece_giveback_block (p : bt_piece_t) (b : bt_block_t) : bt_piece_t :=
  set_blocks
    (alter (fun s => if decide (s.1 = REQUESTED) then (MISSING, s.2) else s)
           (Z.to_nat (offset b / BLOCK_SIZE)) (blocks p)) p.

(** Modelled from the spec: [bt_piece_drop_download_progress] of the
    absent [bt_piece.c] resets the block state of the piece. *)
Definition bt_piece_drop_download_progress (p : bt_piece_t) : bt_piece_t :=
  set_blocks (map (fun _ => (MISSING, [])) (blocks p)) p.

(** Modelled from the spec: [bt_piece_write_block_to_stream] of the absent
    [bt_piece.c] answers 1 when the block was received and can be read,
    0 otherwise. *)
Definition bt_piece_write_block_to_stream (p : bt_piece_t) (b : bt_block_t) : Z :=
  match blocks p !! Z.to_nat (offset b / BLOCK_SIZE) with
  | Some (RECEIVED, _) => 1
  | _ => 0
  end.

Section Piece.
Context `{Collaborators}.

(** The bytes of a piece, block after block. *)
Definition piece_bytes (p : bt_piece_t) : list Z := concat (map snd (blocks p)).

(** Modelled from the spec: the SHA-1 of the bytes matches the expected
    one. *)
Definition bt_piece_is_valid (p : bt_piece_t) : bool :=
  bool_decide (sha1 (piece_bytes p) = sha1sum p).

(** Modelled from the spec: [bt_piece_is_complete] of the absent
    [bt_piece.c]: every block is RECEIVED and the SHA-1 matches. *)
Definition bt_piece_is_complete (p : bt_piece_t) : bool :=
  all_received p && bt_piece_is_valid p.

(** Modelled from the spec: [bt_piece_write_block(piece, NULL, block, data,
    peer)] of the absent [bt_piece.c] and its four outcomes (section 4.4):
    0 for a write error, the block staying as it was; 2 for a piece now
    complete and verified; -1 for a piece complete by block count whose
    SHA-1 differs; 1 for an accepted block of a piece still incomplete.
    The peer joins the contributors of the piece. *)
Definition bt_piece_write_block (p : bt_piece_t) (b : bt_block_t)
    (data : list Z) (peer : peer_ref) : bt_piece_t * Z :=
  let k := Z.to_nat (offset b / BLOCK_SIZE) in
  if negb (disk_write_block b data) || negb (bool_decide (k < length (blocks p))%nat)
  then (p, 0)
  else
    let p1 := mk_piece (idx p) (piece_size p) (sha1sum p)
                (<[k := (RECEIVED, data)]> (blocks p))
                (if decide (peer ∈ piece_peers p) then piece_peers p
                 else piece_peers p ++ [peer]) in
    if all_received p1
    then (if bt_piece_is_valid p1 then (p1, 2) else (p1, -1))
    else (p1, 1).

End Piece.

(** Modelled from the spec: [pwp_conn_flag_is_set] of the absent
    [pwp_connection.c]. *)
Definition pwp_conn_flag_is_set (c : pwp_conn) (f : pc_flag) : bool :=
  bool_decide (f ∈ flags c).

(** The connection with other flags. *)
Definition set_flags (fl : list pc_flag) (c : pwp_conn) : pwp_conn :=
  mk_pc fl (peer_bitfield c) (pending_requests c) (pc_drate c) (pc_urate c)
        (pc_npieces c) (pc_piece_length c).

(** Modelled from the spec: [pwp_conn_set_state] of the absent
    [pwp_connection.c] sets the flag. *)
Definition pwp_conn_set_state (c : pwp_conn) (f : pc_flag) : pwp_conn :=
  if decide (f ∈ flags c) then c else set_flags (f :: flags c) c.

(** Modelled from the spec: [pwp_conn_peer_is_interested] of the absent
    [pwp_connection.c] reads PEER_INTERESTED. *)
Definition pwp_conn_peer_is_interested (c : pwp_conn) : Z :=
  if pwp_conn_flag_is_set c PC_PEER_INTERESTED then 1 else 0.

(** Modelled from the spec: [pwp_conn_im_choked] of the absent
    [pwp_connection.c] reads PEER_CHOKING. *)
Definition pwp_conn_im_choked (c : pwp_conn) : bool :=
  pwp_conn_flag_is_set c PC_PEER_CHOKING.

(** Modelled from the spec: [pwp_conn_im_choking] of the absent
    [pwp_connection.c] reads IM_CHOKING. *)
Definition pwp_conn_im_choking (c : pwp_conn) : bool :=
  pwp_conn_flag_is_set c PC_IM_CHOKING.

(** Modelled from the spec: [pwp_conn_new()] of the absent
    [pwp_connection.c]: both sides choking, nobody interested. *)
Definition pwp_conn_new : pwp_conn :=
  mk_pc [PC_IM_CHOKING; PC_PEER_CHOKING] [] [] 0 0 0 0.

(** Modelled from the spec: [pwp_conn_set_piece_info] of the absent
    [pwp_connection.c] stores the number of pieces and their length. *)
Definition pwp_conn_set_piece_info (c : pwp_conn) (n l : Z) : pwp_conn :=
  mk_pc (flags c) (peer_bitfield c) (pending_requests c) (pc_drate c)
        (pc_urate c) n l.

(** ** The download manager *)

Section DownloadManager.
Context `{Collaborators}.

(** An event of the timer: the two functions the constructor schedules. *)
Inductive timer_fn := LEECHER_PEER_RECIPROCATION | LEECHER_PEER_OPTIMISTIC_UNCHOKE.

(** [bt_dm_private_t].  [pdb] is the piece database behind [me->ipdb]
    ([None] while no database is installed), [pselector] the selector
    behind [me->ips] ([None] while none is installed).  The peer objects
    live in [peers], which keeps what a removed peer held (see
    [bt_peermanager_remove_peer]); the peer manager [pm] holds the
    references of the peers it knows.  [trace] is the record of the calls
    that left the download manager.  The opaque [cb_ctx] and [job_lock]
    carry no state of their own and have no field. *)
Record bt_dm_private_t := mk_dm {
  pdb : option (gmap Z bt_piece_t);
  cb : bt_dm_cbs_t;
  jobs : list bt_job_t;
  cfg : gmap string string;
  peers : gmap peer_ref bt_peer_t;
  next_peer : peer_ref;
  pm : gset peer_ref;
  blacklist : list bl_entry;
  lchoke : list peer_ref;
  ticker : list (Z * timer_fn);
  pselector : option selector;
  am_seeding : Z;
  pieces_completed : sparsecounter;
  trace : list event
}.

Definition set_pdb (x : option (gmap Z bt_piece_t)) (w : bt_dm_private_t) :=
  mk_dm x (cb w) (jobs w) (cfg w) (peers w) (next_peer w) (pm w) (blacklist w)
        (lchoke w) (ticker w) (pselector w) (am_seeding w) (pieces_completed w)
        (trace w).

Definition set_cb (x : bt_dm_cbs_t) (w : bt_dm_private_t) :=
  mk_dm (pdb w) x (jobs w) (cfg w) (peers w) (next_peer w) (pm w) (blacklist w)
        (lchoke w) (ticker w) (pselector w) (am_seeding w) (pieces_completed w)
        (trace w).

Definition set_cfg (x : gmap string string) (w : bt_dm_private_t) :=
  mk_dm (pdb w) (cb w) (jobs w) x (peers w) (next_peer w) (pm w) (blacklist w)
        (lchoke w) (ticker w) (pselector w) (am_seeding w) (pieces_completed w)
        (trace w).

Definition set_am_seeding (x : Z) (w : bt_dm_private_t) :=
  mk_dm (pdb w) (cb w) (jobs w) (cfg w) (peers w) (next_peer w) (pm w)
        (blacklist w) (lchoke w) (ticker w) (pselector w) x (pieces_completed w)
        (trace w).

Definition set_jobs (x : list bt_job_t) (w : bt_dm_private_t) :=
  mk_dm (pdb w) (cb w) x (cfg w) (peers w) (next_peer w) (pm w) (blacklist w)
        (lchoke w) (ticker w) (pselector w) (am_seeding w) (pieces_completed w)
        (trace w).

Definition set_peers (x : gmap peer_ref bt_peer_t) (w : bt_dm_private_t) :=
  mk_dm (pdb w) (cb w) (jobs w) (cfg w) x (next_peer w) (pm w) (blacklist w)
        (lchoke w) (ticker w) (pselector w) (am_seeding w) (pieces_completed w)
        (trace w).

Definition set_pm (n : peer_ref) (x : gset peer_ref) (w : bt_dm_private_t) :=
  mk_dm (pdb w) (cb w) (jobs w) (cfg w) (peers w) n x (blacklist w)
        (lchoke w) (ticker w) (pselector w) (am_seeding w) (pieces_completed w)
        (trace w).

Definition set_blacklist (x : list bl_entry) (w : bt_dm_private_t) :=
  mk_dm (pdb w) (cb w) (jobs w) (cfg w) (peers w) (next_peer w) (pm w) x
        (lchoke w) (ticker w) (pselector w) (am_seeding w) (pieces_completed w)
        (trace w).

Definition set_lchoke (x : list peer_ref) (w : bt_dm_private_t) :=
  mk_dm (pdb w) (cb w) (jobs w) (cfg w) (peers w) (next_peer w) (pm w)
        (blacklist w) x (ticker w) (pselector w) (am_seeding w)
        (pieces_completed w) (trace w).

Definition set_pselector (x : option selector) (w : bt_dm_private_t) :=
  mk_dm (pdb w) (cb w) (jobs w) (cfg w) (peers w) (next_peer w) (pm w)
        (blacklist w) (lchoke w) (ticker w) x (am_seeding w)
        (pieces_completed w) (trace w).

Definition set_pieces_completed (x : sparsecounter) (w : bt_dm_private_t) :=
  mk_dm (pdb w) (cb w) (jobs w) (cfg w) (peers w) (next_peer w) (pm w)
        (blacklist w) (lchoke w) (ticker w) (pselector w) (am_seeding w) x
        (trace w).

Definition set_trace (x : list event) (w : bt_dm_private_t) :=
  mk_dm (pdb w) (cb w) (jobs w) (cfg w) (peers w) (next_peer w) (pm w)
        (blacklist w) (lchoke w) (ticker w) (pselector w) (am_seeding w)
        (pieces_completed w) x.

Definition add_event (e : event) (w : bt_dm_private_t) : bt_dm_private_t :=
  set_trace (trace w ++ [e]) w.

(** *** Configuration *)

(** Modelled from the spec: [config_get] of the absent [config.c] answers
    the string stored under a key, NULL for a key that is not set. *)
Definition config_get (w : bt_dm_private_t) (k : string) : option string :=
  cfg w !! k.

(** Modelled from the spec: [config_get_int] of the absent [config.c] is
    [atoi] of the value; for a key that is not set [atoi] gets NULL and
    the program stops. *)
Definition config_get_int (w : bt_dm_private_t) (k : string) : option Z :=
  Libc.atoi <$> (cfg w !! k).

(** Modelled from the spec: [config_set_if_not_set] of the absent
    [config.c] keeps a value that is there. *)
Definition config_set_if_not_set (k v : string) (c : gmap string string)
  : gmap string string :=
  match c !! k with Some _ => c | None => <[k := v]> c end.

(** *** Logging *)

(** [__FUNC_log]: [my_peerid] and a comma are printed first, then
    [vsprintf(p, fmt, args)] prints [fmt], for which no caller passes an
    argument; the result is handed to the host's [log].  Nothing happens
    without a [log] callback.  An unset [my_peerid] prints as the C library
    prints a NULL string. *)
Definition __FUNC_log (w : bt_dm_private_t) (fmt : string) : bt_dm_private_t :=
  if log (cb w)
  then add_event
         (EvLog (default "(null)" (config_get w "my_peerid") +:+ ","
                 +:+ Libc.printed fmt)) w
  else w.

(** [__log]: [buf] is the line that the first [vsprintf] made of the
    caller's format and arguments; it is passed to [__FUNC_log] as the
    format, and so printed a second time. *)
Definition __log (w : bt_dm_private_t) (buf : string) : bt_dm_private_t :=
  if log (cb w) then __FUNC_log w buf else w.

(** The second printing of [line] is defined: there is no [log] callback,
    so that nothing is printed, or [line] holds no conversion but ["%%"].
    The callers that put text of a peer or of the host into the line stop
    where it is not; the other lines are literals, or end in a number
    that ["%d"] printed. *)
Definition log_defined (w : bt_dm_private_t) (line : string) : bool :=
  negb (log (cb w)) || bool_decide (is_Some (Libc.vsprintf_plain line)).

(** *** The peer manager *)

(** The peer behind [r] has net handle [nh]. *)
Definition peer_has_nethandle (w : bt_dm_private_t) (nh : Z) (r : peer_ref) : bool :=
  match peers w !! r with
  | Some p => bool_decide (nethandle p = nh)
  | None => false
  end.

(** Modelled from the spec: [bt_peermanager_nethandle_to_peer] of the
    absent [bt_peermanager.c] finds a peer of the manager by net handle,
    NULL when there is none. *)
Definition bt_peermanager_nethandle_to_peer (w : bt_dm_private_t) (nh : Z)
  : option peer_ref :=
  List.find (peer_has_nethandle w nh) (elements (pm w)).

(** The peer behind [r] has address [a] and port [pt]. *)
Definition peer_has_address (w : bt_dm_private_t) (a : string) (pt : Z)
    (r : peer_ref) : bool :=
  match peers w !! r with
  | Some p => bool_decide (ip p = a /\ port p = pt)
  | None => false
  end.

(** Modelled from the spec: the peer manager of the absent
    [bt_peermanager.c] indexes its peers by (ip, port). *)
Definition bt_peermanager_contains (w : bt_dm_private_t) (a : string) (pt : Z) : bool :=
  existsb (peer_has_address w a pt) (elements (pm w)).

(** Modelled from the spec: [bt_peermanager_add_peer] of the absent
    [bt_peermanager.c] rejects a duplicate (ip, port) with NULL and
    otherwise makes a new peer object and holds it. *)
Definition bt_peermanager_add_peer (w : bt_dm_private_t) (pid a : string) (pt : Z)
  : bt_dm_private_t * option peer_ref :=
  if bt_peermanager_contains w a pt then (w, None)
  else
    let r := next_peer w in
    (set_pm (S r) ({[r]} ∪ pm w)
       (set_peers (<[r := mk_peer pid a pt 0 None None]> (peers w)) w),
     Some r).

(** Modelled from the spec: [bt_peermanager_remove_peer] of the absent
    [bt_peermanager.c] answers 0 for a peer it does not hold and 1 after
    dropping the peer.  The spec (section 3) has a peer destroyed when it
    is removed, yet [bt_dm_dispatch_from_buffer] goes on to read
    [peer->mh] after [bt_dm_remove_peer]: what the object held is
    therefore left in [peers], where that read finds it, and a peer that
    is removed is one that is no longer in [pm]. *)
Definition bt_peermanager_remove_peer (w : bt_dm_private_t) (r : peer_ref)
  : bt_dm_private_t * Z :=
  if decide (r ∈ pm w) then (set_pm (next_peer w) (pm w ∖ {[r]}) w, 1)
  else (w, 0).

(** Modelled from the spec: [bt_peermanager_count] of the absent
    [bt_peermanager.c]. *)
Definition bt_peermanager_count (w : bt_dm_private_t) : Z :=
  Z.of_nat (size (pm w)).

(** Modelled from the spec: [bt_peermanager_forall(pm, me, udata,
    visitor)] of the absent [bt_peermanager.c] runs the visitor once for
    every peer of the manager; [A] is what the visitor changes (the
    download manager, or the statistics behind [udata]). *)
Fixpoint visit_peers {A : Type} (visitor : A -> peer_ref -> option A)
    (rs : list peer_ref) (a : A) : option A :=
  match rs with
  | [] => Some a
  | r :: rs' => a' ← visitor a r; visit_peers visitor rs' a'
  end.

(** Modelled from the spec: [bt_peermanager_forall] with a visitor that
    changes the download manager. *)
Definition bt_peermanager_forall (visitor : bt_dm_private_t -> peer_ref -> option bt_dm_private_t)
    (w : bt_dm_private_t) : option bt_dm_private_t :=
  visit_peers visitor (elements (pm w)) w.

(** *** Peer objects *)

(** [peer->pc]; dereferencing a NULL [pc] stops the program. *)
Definition peer_pc (w : bt_dm_private_t) (r : peer_ref) : option pwp_conn :=
  p ← peers w !! r; pc p.

(** A write to [peer->pc] or through it. *)
Definition set_peer_pc (r : peer_ref) (c : pwp_conn) (w : bt_dm_private_t)
  : bt_dm_private_t :=
  set_peers
    (alter (fun p => mk_peer (peer_id p) (ip p) (port p) (nethandle p) (Some c) (mh p))
           r (peers w)) w.

(** A write to [peer->mh]. *)
Definition set_peer_mh (r : peer_ref) (m : msg_handling) (w : bt_dm_private_t)
  : bt_dm_private_t :=
  set_peers
    (alter (fun p => mk_peer (peer_id p) (ip p) (port p) (nethandle p) (pc p) (Some m))
           r (peers w)) w.

(** A write to [peer->nethandle]. *)
Definition set_peer_nethandle (r : peer_ref) (nh : Z) (w : bt_dm_private_t)
  : bt_dm_private_t :=
  set_peers
    (alter (fun p => mk_peer (peer_id p) (ip p) (port p) nh (pc p) (mh p))
           r (peers w)) w.

(** *** Selector calls *)

(** A call through [me->ips] on [me->pselector]; without a selector the
    function pointer is NULL and the call stops the program. *)
Definition selector_call_on (f : selector -> selector) (c : selector_call)
    (w : bt_dm_private_t) : option bt_dm_private_t :=
  s ← pselector w;
  Some (add_event (EvSelector c) (set_pselector (Some (f s)) w)).

(** *** Sending *)

(** [__FUNC_peerconn_send_to_peer]: asserts the peer and the host's
    [peer_send], then sends on the peer's net handle. *)
Definition __FUNC_peerconn_send_to_peer (w : bt_dm_private_t) (peer : peer_ref)
    (m : pwp_msg) : option (bt_dm_private_t * Z) :=
  p ← peers w !! peer;
  send ← peer_send (cb w);
  Some (add_event (EvPeerSend peer (nethandle p) m) w, send (nethandle p) m).

(** Several messages sent one after the other. *)
Fixpoint send_all (w : bt_dm_private_t) (peer : peer_ref) (ms : list pwp_msg)
  : option bt_dm_private_t :=
  match ms with
  | [] => Some w
  | m :: ms' =>
      r ← __FUNC_peerconn_send_to_peer w peer m; send_all r.1 peer ms'
  end.

(** Modelled from the spec: [pwp_conn_send_have] of the absent
    [pwp_connection.c] sends HAVE(idx) through the connection's [send]
    callback. *)
Definition pwp_conn_send_have (w : bt_dm_private_t) (peer : peer_ref) (i : Z)
  : option bt_dm_private_t :=
  _ ← peer_pc w peer;
  fst <$> __FUNC_peerconn_send_to_peer w peer (MsgHave i).

(** Modelled from the spec: [pwp_conn_choke_peer] of the absent
    [pwp_connection.c] enqueues a CHOKE for the peer (section 4.6). *)
Definition pwp_conn_choke_peer (w : bt_dm_private_t) (peer : peer_ref)
  : option bt_dm_private_t :=
  _ ← peer_pc w peer;
  fst <$> __FUNC_peerconn_send_to_peer w peer MsgChoke.

(** Modelled from the spec: [pwp_conn_unchoke_peer] of the absent
    [pwp_connection.c] enqueues an UNCHOKE for the peer (section 4.6). *)
Definition pwp_conn_unchoke_peer (w : bt_dm_private_t) (peer : peer_ref)
  : option bt_dm_private_t :=
  _ ← peer_pc w peer;
  fst <$> __FUNC_peerconn_send_to_peer w peer MsgUnchoke.

(** Modelled from the spec: [pwp_send_bitfield(npieces, pieces_completed,
    send, me, peer)] of the absent peer-wire library sends our BITFIELD,
    derived from the sparse counter, and answers with the result of the
    send. *)
Definition pwp_send_bitfield (npcs : Z) (sc : sparsecounter)
    (w : bt_dm_private_t) (peer : peer_ref) : option (bt_dm_private_t * Z) :=
  __FUNC_peerconn_send_to_peer w peer (MsgBitfield (sc_bitfield npcs sc)).

(** Modelled from the spec: [pwp_handshaker_send_handshake] of the absent
    [pwp_handshaker.c] sends the handshake with the infohash and our peer
    id. *)
Definition pwp_handshaker_send_handshake (w : bt_dm_private_t) (peer : peer_ref)
    (infohash peerid : string) : option (bt_dm_private_t * Z) :=
  __FUNC_peerconn_send_to_peer w peer (MsgHandshake infohash peerid).

(** *** Removing a peer *)

(** [bt_dm_remove_peer] *)
Definition bt_dm_remove_peer (w : bt_dm_private_t) (peer : peer_ref)
  : option (bt_dm_private_t * Z) :=
  let '(w1, removed) := bt_peermanager_remove_peer w peer in
  if removed =? 0 then Some (__log w1 "ERROR,couldn't remove peer", 0)
  else
    w2 ← selector_call_on (fun s => ips_remove_peer s peer) (SelRemovePeer peer) w1;
    Some (w2, 1).

(** *** The piece database *)

(** [me->ipdb.get_piece(me->pdb, idx)]: the piece or NULL; the outer
    [None] is the call through a NULL [get_piece]. *)
Definition get_piece (w : bt_dm_private_t) (i : Z) : option (option bt_piece_t) :=
  db ← pdb w; Some (db !! i).

(** A write through the pointer [get_piece] returned for index [i]. *)
Definition store_piece (i : Z) (p : bt_piece_t) (w : bt_dm_private_t)
  : bt_dm_private_t :=
  set_pdb (insert i p <$> pdb w) w.

(** *** Jobs *)

(** [__offer_job]: [llqueue_offer(me->jobs, j)], returns NULL. *)
Definition __offer_job (w : bt_dm_private_t) (j : option bt_job_t)
  : bt_dm_private_t * option bt_job_t :=
  match j with
  | Some j' => (set_jobs (jobs w ++ [j']) w, None)
  | None => (w, None)
  end.

(** [__poll_job]: [llqueue_poll(me->jobs)], NULL on an empty queue. *)
Definition __poll_job (w : bt_dm_private_t) (unused : option bt_job_t)
  : bt_dm_private_t * option bt_job_t :=
  match jobs w with
  | [] => (w, None)
  | j :: js => (set_jobs js w, Some j)
  end.

(** The function behind a tag. *)
Definition excl_run (fn : excl_fn)
  : bt_dm_private_t -> option bt_job_t -> bt_dm_private_t * option bt_job_t :=
  match fn with
  | OFFER_JOB => __offer_job
  | POLL_JOB => __poll_job
  end.

(** Modelled from the spec: the host's [call_exclusively(me, ctx,
    &me->job_lock, payload, fn)] runs [fn(me, payload)] under the lock and
    returns its result (section 6); the call through a NULL
    [call_exclusively] stops the program. *)
Definition host_call_exclusively (fn : excl_fn) (payload : option bt_job_t)
    (w : bt_dm_private_t) : option (bt_dm_private_t * option bt_job_t) :=
  if call_exclusively (cb w)
  then
    let '(w1, res) := excl_run fn w payload in
    Some (add_event (EvCallExclusively fn payload res) w1, res)
  else None.

(** Modelled from the spec: [llqueue_count] of the absent
    [linked_list_queue.c], the length of the FIFO. *)
Definition llqueue_count (q : list bt_job_t) : Z := Z.of_nat (length q).

(** [__FUNC_peerconn_pollblock] *)
Definition __FUNC_peerconn_pollblock (w : bt_dm_private_t) (peer : peer_ref)
  : option (bt_dm_private_t * Z) :=
  let j := BT_JOB_POLLBLOCK peer in
  r ← host_call_exclusively OFFER_JOB (Some j) w;
  Some (r.1, 0).

(** [pwp_conn_offer_block(peer->pc, &blk)]: the connection takes the block
    and sends what it decides to send. *)
Definition offer_block (w : bt_dm_private_t) (peer : peer_ref) (blk : bt_block_t)
  : option bt_dm_private_t :=
  c ← peer_pc w peer;
  let '(c', msgs) := pwp_conn_offer_block c blk in
  send_all (add_event (EvPcOfferBlock peer blk) (set_peer_pc peer c' w)) peer msgs.

(** The inner loop of [__dispatch_job]:
    [while (!bt_piece_is_fully_requested(pce)) { poll; offer; }].
    [fuel] bounds the number of iterations. *)
Fixpoint request_blocks (fuel : nat) (w : bt_dm_private_t) (peer : peer_ref)
    (p_idx : Z) : option bt_dm_private_t :=
  match fuel with
  | O => None
  | S fuel' =>
      db ← pdb w;
      pce ← db !! p_idx;
      if bt_piece_is_fully_requested pce then Some w
      else
        let '(pce', blk) := bt_piece_poll_block_request pce in
        w1 ← offer_block (store_piece p_idx pce' w) peer blk;
        request_blocks fuel' w1 peer p_idx
  end.

(** The [while (1)] of [__dispatch_job] for a [BT_JOB_POLLBLOCK]. *)
Fixpoint poll_pieces (fuel : nat) (w : bt_dm_private_t) (peer : peer_ref)
  : option bt_dm_private_t :=
  match fuel with
  | O => None
  | S fuel' =>
      s ← pselector w;
      let '(s', p_idx) := ips_poll_piece s peer in
      let w1 := add_event (EvSelector (SelPollPiece peer p_idx))
                  (set_pselector (Some s') w) in
      if p_idx =? -1 then Some w1
      else
        pce ← get_piece w1 p_idx;
        match pce with
        | Some p =>
            if bt_piece_is_complete p
            then
              w2 ← selector_call_on (fun s => ips_have_piece s p_idx)
                     (SelHavePiece p_idx) w1;
              poll_pieces fuel' w2 peer
            else request_blocks fuel' w1 peer p_idx
        | None => None
        end
  end.

(** [__dispatch_job]; a job of another type fails [assert(0)]. *)
Definition __dispatch_job (fuel : nat) (w : bt_dm_private_t) (j : bt_job_t)
  : option bt_dm_private_t :=
  match j with
  | BT_JOB_POLLBLOCK peer => poll_pieces fuel w peer
  | BT_JOB_NONE => None
  end.

(** *** Callbacks of the peer connection *)

(** [__FUNC_peerconn_send_have]: the visitor of the HAVE broadcast;
    [udata] is the completed piece. *)
Definition __FUNC_peerconn_send_have (udata : bt_piece_t) (w : bt_dm_private_t)
    (peer : peer_ref) : option bt_dm_private_t :=
  c ← peer_pc w peer;
  if negb (pwp_conn_flag_is_set c PC_HANDSHAKE_RECEIVED) then Some w
  else pwp_conn_send_have w peer (bt_piece_get_idx udata).

(** The loop over [bt_piece_get_peers(p, &i)]. *)
Definition suspect_contributors (bl : list bl_entry) (piece : Z)
    (ps : list peer_ref) : list bl_entry :=
  foldl (fun b q => bt_blacklist_add_peer_as_potentially_blacklisted b piece q) bl ps.

(** The three handled outcomes of [bt_piece_write_block] in
    [__FUNC_peerconn_pushblock]; [p] is the piece after the write and
    [slot] the index it was fetched under. *)
Definition pushblock_complete (w : bt_dm_private_t) (b : bt_block_t)
    (p : bt_piece_t) : option bt_dm_private_t :=
  let w1 := __log w ("client,piece downloaded,pieceidx=" +:+ pretty (bt_piece_get_idx p)) in
  w2 ← selector_call_on (fun s => ips_have_piece s (piece_idx b))
         (SelHavePiece (piece_idx b)) w1;
  let w3 := set_pieces_completed
              (sc_mark_complete (pieces_completed w2) (piece_idx b) 1) w2 in
  bt_peermanager_forall (__FUNC_peerconn_send_have p) w3.

Definition pushblock_invalid (w : bt_dm_private_t) (peer : peer_ref)
    (b : bt_block_t) (p : bt_piece_t) : option bt_dm_private_t :=
  if bt_piece_num_peers p =? 1
  then Some (set_blacklist (bt_blacklist_add_peer (blacklist w) (piece_idx b) peer) w)
  else
    let w1 := set_blacklist
                (suspect_contributors (blacklist w) (piece_idx b) (piece_peers p)) w in
    let w2 := store_piece (piece_idx b) (bt_piece_drop_download_progress p) w1 in
    selector_call_on (fun s => ips_peer_giveback_piece s None (idx p))
      (SelPeerGivebackPiece None (idx p)) w2.

(** [__FUNC_peerconn_pushblock] *)
Definition __FUNC_peerconn_pushblock (w : bt_dm_private_t) (peer : peer_ref)
    (b : bt_block_t) (data : list Z) : option (bt_dm_private_t * Z) :=
  db ← pdb w;
  p ← db !! piece_idx b;
  let '(p1, r) := bt_piece_write_block p b data peer in
  let w1 := store_piece (piece_idx b) p1 w in
  w2 ← (if r =? 2 then pushblock_complete w1 b p1
        else if r =? 0
        then Some (add_event (EvPrintf ("error writing block" +:+ Libc.newline)) w1)
        else if r =? -1 then pushblock_invalid w1 peer b p1
        else Some w1);
  Some (w2, 1).

(** [__FUNC_peerconn_log]: [sprintf(buffer, "pwp,%s,%s", peer->peer_id,
    buf)], and [buffer] is the format of [__FUNC_log]. *)
Definition __FUNC_peerconn_log (w : bt_dm_private_t) (peer : peer_ref)
    (buf : string) : option bt_dm_private_t :=
  p ← peers w !! peer;
  let buffer := "pwp," +:+ peer_id p +:+ "," +:+ buf in
  if log_defined w buffer then Some (__FUNC_log w buffer) else None.

(** [__FUNC_peerconn_disconnect]: [__log(bto, NULL, "disconnecting,%s",
    reason)], then the removal, whose result is not looked at. *)
Definition __FUNC_peerconn_disconnect (w : bt_dm_private_t) (peer : peer_ref)
    (reason : string) : option (bt_dm_private_t * Z) :=
  let line := "disconnecting," +:+ reason in
  if log_defined w line
  then r ← bt_dm_remove_peer (__log w line) peer; Some (r.1, 1)
  else None.

(** [__FUNC_peerconn_peer_have_piece] *)
Definition __FUNC_peerconn_peer_have_piece (w : bt_dm_private_t)
    (peer : peer_ref) (i : Z) : option bt_dm_private_t :=
  selector_call_on (fun s => ips_peer_have_piece s peer i)
    (SelPeerHavePiece peer i) w.

(** [__FUNC_peerconn_giveback_block] *)
Definition __FUNC_peerconn_giveback_block (w : bt_dm_private_t)
    (peer : peer_ref) (b : bt_block_t) : option bt_dm_private_t :=
  if len b <? 0 then Some w
  else
    db ← pdb w;
    p ← db !! piece_idx b;
    let w1 := store_piece (piece_idx b) (bt_piece_giveback_block p b) w in
    selector_call_on (fun s => ips_peer_giveback_piece s (Some peer) (piece_idx b))
      (SelPeerGivebackPiece (Some peer) (piece_idx b)) w1.

(** [__FUNC_peerconn_write_block_to_stream] *)
Definition __FUNC_peerconn_write_block_to_stream (w : bt_dm_private_t)
    (blk : bt_block_t) : option bt_dm_private_t :=
  pce ← get_piece w (piece_idx blk);
  match pce with
  | None => Some (__log w "ERROR,unable to obtain piece")
  | Some p =>
      if bt_piece_write_block_to_stream p blk =? 0
      then Some (__log w "ERROR,unable to write block to stream")
      else Some w
  end.

(** One call of a peer connection into the table of callbacks that
    [bt_dm_add_peer] installs. *)
Definition run_callback (w : bt_dm_private_t) (peer : peer_ref) (c : pc_callback)
  : option bt_dm_private_t :=
  match c with
  | CbLog buf => __FUNC_peerconn_log w peer buf
  | CbSend m => fst <$> __FUNC_peerconn_send_to_peer w peer m
  | CbPushblock b data => fst <$> __FUNC_peerconn_pushblock w peer b data
  | CbPollblock => fst <$> __FUNC_peerconn_pollblock w peer
  | CbDisconnect reason => fst <$> __FUNC_peerconn_disconnect w peer reason
  | CbPeerHavePiece i => __FUNC_peerconn_peer_have_piece w peer i
  | CbPeerGivebackBlock b => __FUNC_peerconn_giveback_block w peer b
  | CbWriteBlockToStream b => __FUNC_peerconn_write_block_to_stream w b
  end.

Fixpoint run_callbacks (w : bt_dm_private_t) (peer : peer_ref)
    (cs : list pc_callback) : option bt_dm_private_t :=
  match cs with
  | [] => Some w
  | c :: cs' => w' ← run_callback w peer c; run_callbacks w' peer cs'
  end.

(** *** The periodic step *)

(** [__FUNC_peer_periodic]: the visitor of the per-peer step. *)
Definition __FUNC_peer_periodic (w : bt_dm_private_t) (peer : peer_ref)
  : option bt_dm_private_t :=
  c ← peer_pc w peer;
  if pwp_conn_flag_is_set c PC_FAILED_CONNECTION then Some w
  else if negb (pwp_conn_flag_is_set c PC_HANDSHAKE_RECEIVED) then Some w
  else
    let '(c', cbs) := pwp_conn_periodic c in
    run_callbacks (add_event (EvPcPeriodic peer) (set_peer_pc peer c' w)) peer cbs.

(** [__FUNC_peer_stats_visitor]: fills [s->peers[s->npeers++]]. *)
Definition __FUNC_peer_stats_visitor (w : bt_dm_private_t) (s : bt_dm_stats_t)
    (peer : peer_ref) : option bt_dm_stats_t :=
  c ← peer_pc w peer;
  let ps := mk_pstats (pwp_conn_im_choked c) (pwp_conn_im_choking c)
              (pwp_conn_flag_is_set c PC_HANDSHAKE_RECEIVED)
              (pwp_conn_flag_is_set c PC_FAILED_CONNECTION)
              (pc_drate c) (pc_urate c) in
  Some (mk_stats (npeers_size s) (npeers s + 1)
          (<[Z.to_nat (npeers s) := Some ps]> (st_peers s))).

(** The part of [bt_dm_periodic] after the label [cleanup]: the array of
    peer statistics grows to the number of peers and is filled. *)
Definition collect_stats (w : bt_dm_private_t) (stats : option bt_dm_stats_t)
  : option (option bt_dm_stats_t) :=
  match stats with
  | None => Some None
  | Some s =>
      let s1 :=
        if npeers_size s <? bt_peermanager_count w
        then mk_stats (bt_peermanager_count w) (npeers s)
               (st_peers s ++
                replicate (Z.to_nat (bt_peermanager_count w) - length (st_peers s)) None)
        else s in
      let s2 := mk_stats (npeers_size s1) 0 (st_peers s1) in
      Some <$> visit_peers (__FUNC_peer_stats_visitor w) (elements (pm w)) s2
  end.

(** The loop [while (0 < llqueue_count(me->jobs))] of [bt_dm_periodic]. *)
Fixpoint process_jobs (fuel : nat) (w : bt_dm_private_t) : option bt_dm_private_t :=
  match fuel with
  | O => None
  | S fuel' =>
      if 0 <? llqueue_count (jobs w)
      then
        r ← host_call_exclusively POLL_JOB None w;
        j ← r.2;
        w1 ← __dispatch_job fuel' r.1 j;
        process_jobs fuel' w1
      else Some w
  end.

(** The test [1 == me->am_seeding && 1 == config_get_int(..)] at the top
    of [bt_dm_periodic]; the configuration is read only when seeding. *)
Definition shutting_down (w : bt_dm_private_t) : option bool :=
  if am_seeding w =? 1
  then sd ← config_get_int w "shutdown_when_complete"; Some (sd =? 1)
  else Some false.

(** [bt_dm_periodic] *)
Definition bt_dm_periodic (fuel : nat) (w : bt_dm_private_t)
    (stats : option bt_dm_stats_t)
  : option (bt_dm_private_t * option bt_dm_stats_t) :=
  stop ← shutting_down w;
  if stop : bool
  then s ← collect_stats w stats; Some (w, s)
  else
    w1 ← process_jobs fuel w;
    w2 ← bt_peermanager_forall __FUNC_peer_periodic w1;
    s ← collect_stats w2 stats;
    Some (w2, s).

(** *** Inbound bytes *)

(** Modelled from the spec: [pwp_msghandler_new] of the absent
    [pwp_msghandler.c]: nothing buffered. *)
Definition pwp_msghandler_new : pwp_msghandler := mk_mh [].

(** Modelled from the spec: [pwp_handshaker_new(infohash, my_peerid)] of
    the absent [pwp_handshaker.c]: nothing received. *)
Definition pwp_handshaker_new (infohash peerid : option string) : pwp_handshaker :=
  mk_hs infohash peerid [].

(** The block [/* handle handshake */] of [bt_dm_dispatch_from_buffer]
    for a peer whose PC_HANDSHAKE_RECEIVED is unset.  The answer is the
    new state and, when the handshake is done, the bytes left for the
    message handler; without them the function returns 0. *)
Definition handle_handshake (w : bt_dm_private_t) (peer : peer_ref) (buf : list Z)
  : option (bt_dm_private_t * option (list Z)) :=
  p ← peers w !! peer;
  m ← mh p;
  match m with
  | MsgHandler _ => None
  | Handshaker h =>
      let '(r, h', rest) := pwp_handshaker_dispatch_from_buffer h buf in
      let w0 := add_event (EvHandshakerDispatch peer buf)
                  (set_peer_mh peer (Handshaker h') w) in
      if r =? 1 then
        c ← peer_pc w0 peer;
        let w1 := add_event (EvHandshakerRelease peer) w0 in
        let w2 := add_event (EvMsgHandlerNew peer)
                    (set_peer_mh peer (MsgHandler pwp_msghandler_new) w1) in
        let w3 := set_peer_pc peer (pwp_conn_set_state c PC_HANDSHAKE_RECEIVED) w2 in
        let w4 := __log w3 "send,bitfield" in
        n ← config_get_int w4 "npieces";
        sent ← pwp_send_bitfield n (pieces_completed w4) w4 peer;
        w5 ← (if sent.2 =? 0 then fst <$> bt_dm_remove_peer sent.1 peer
              else Some sent.1);
        Some (w5, Some rest)
      else Some (w0, None)
  end.

(** The block [/* handle regular PWP traffic */]. *)
Definition handle_messages (w : bt_dm_private_t) (peer : peer_ref) (buf : list Z)
  : option bt_dm_private_t :=
  p ← peers w !! peer;
  m ← mh p;
  c ← pc p;
  match m with
  | Handshaker _ => None
  | MsgHandler m0 =>
      let '(r, m', c', cbs) := pwp_msghandler_dispatch_from_buffer m0 c buf in
      let w0 := add_event (EvMsgHandlerDispatch peer buf)
                  (set_peer_pc peer c' (set_peer_mh peer (MsgHandler m') w)) in
      w1 ← run_callbacks w0 peer cbs;
      if r =? 0 then
        fst <$> bt_dm_remove_peer
                  (__log w1 "disconnecting,bad msg detected by PWP handler") peer
      else Some w1
  end.

(** [bt_dm_dispatch_from_buffer] *)
Definition bt_dm_dispatch_from_buffer (w : bt_dm_private_t) (peer_nethandle : Z)
    (buf : list Z) : option (bt_dm_private_t * Z) :=
  match bt_peermanager_nethandle_to_peer w peer_nethandle with
  | None => Some (w, 0)
  | Some peer =>
      c ← peer_pc w peer;
      if negb (pwp_conn_flag_is_set c PC_HANDSHAKE_RECEIVED) then
        r ← handle_handshake w peer buf;
        match r.2 with
        | None => Some (r.1, 0)
        | Some rest => w' ← handle_messages r.1 peer rest; Some (w', 1)
        end
      else w' ← handle_messages w peer buf; Some (w', 1)
  end.

(** [bt_dm_peer_connect_fail] *)
Definition bt_dm_peer_connect_fail (w : bt_dm_private_t) (nh : Z)
  : option bt_dm_private_t :=
  match bt_peermanager_nethandle_to_peer w nh with
  | None => Some w
  | Some peer =>
      c ← peer_pc w peer;
      Some (set_peer_pc peer (pwp_conn_set_state c PC_FAILED_CONNECTION) w)
  end.

(** *** The choker's view of a peer *)

(** The five functions of [iface_choker_peer].  The choker passes the
    peer connection it was given by [bt_leeching_choker_add_peer]; the
    connection is named by the peer that owns it.  Every function answers
    with the state it leaves and its [int] result (0 for the [void]
    ones). *)
Definition __get_drate (w : bt_dm_private_t) (peer : peer_ref)
  : option (bt_dm_private_t * Z) :=
  Some (w, 0).

Definition __get_urate (w : bt_dm_private_t) (peer : peer_ref)
  : option (bt_dm_private_t * Z) :=
  Some (w, 0).

Definition __get_is_interested (w : bt_dm_private_t) (peer : peer_ref)
  : option (bt_dm_private_t * Z) :=
  c ← peer_pc w peer; Some (w, pwp_conn_peer_is_interested c).

Definition __choke_peer (w : bt_dm_private_t) (peer : peer_ref)
  : option (bt_dm_private_t * Z) :=
  w' ← pwp_conn_choke_peer w peer; Some (w', 0).

Definition __unchoke_peer (w : bt_dm_private_t) (peer : peer_ref)
  : option (bt_dm_private_t * Z) :=
  w' ← pwp_conn_unchoke_peer w peer; Some (w', 0).

(** *** Adding a peer *)

(** The test [!strncmp(ip, my_ip, ip_len) && port == atoi(listen_port)];
    the port is read only when the addresses compare equal. *)
Definition is_own_address (w : bt_dm_private_t) (a : string) (ip_len pt : Z)
  : option bool :=
  my_ip ← config_get w "my_ip";
  if Libc.strncmp a my_ip ip_len =? 0
  then lp ← config_get w "pwp_listen_port"; Some (pt =? Libc.atoi lp)
  else Some false.

(** [bt_dm_add_peer]; the result is the new peer or NULL. *)
Definition bt_dm_add_peer (w : bt_dm_private_t) (pid a : string)
    (ip_len pt nh : Z) : option (bt_dm_private_t * option peer_ref) :=
  own ← is_own_address w a ip_len pt;
  if own : bool then Some (w, None)
  else
    let '(w1, added) := bt_peermanager_add_peer w pid a pt in
    match added with
    | None => Some (w1, None)
    | Some p =>
        let w2 := match pselector w1 with
                  | Some s => add_event (EvSelector (SelAddPeer p))
                                (set_pselector (Some (ips_add_peer s p)) w1)
                  | None => w1
                  end in
        let w3 := if nh =? 0 then w2 else set_peer_nethandle p nh w2 in
        n ← config_get_int w3 "npieces";
        l ← config_get_int w3 "piece_length";
        let w4 := set_peer_pc p (pwp_conn_set_piece_info pwp_conn_new n l) w3 in
        match peer_connect (cb w4) with
        | None => Some (w4, None)
        | Some connect =>
            let '(ok, w5) :=
              if nh =? 0
              then let r := connect a pt in
                   (r.1, add_event (EvPeerConnect a pt)
                           (set_peer_nethandle p r.2 w4))
              else (1, w4) in
            if ok =? 0 then Some (__log w5 "failed connection to peer", None)
            else
              let hs := pwp_handshaker_new (config_get w5 "infohash")
                          (config_get w5 "my_peerid") in
              Some (set_lchoke (lchoke w5 ++ [p])
                      (set_peer_mh p (Handshaker hs) w5), Some p)
        end
    end.

(** The line of [__log(bto, NULL, "cant add peer %s:%d %lx\n", ip, port,
    (unsigned long int)nethandle)]. *)
Definition cant_add_peer_line (a : string) (pt nh : Z) : string :=
  "cant add peer " +:+ a +:+ ":" +:+ pretty pt +:+ " " +:+ Libc.fmt_lx nh
  +:+ Libc.newline.

(** [bt_dm_peer_connect] *)
Definition bt_dm_peer_connect (w : bt_dm_private_t) (nh : Z) (a : string) (pt : Z)
  : option (bt_dm_private_t * Z) :=
  r ← match bt_peermanager_nethandle_to_peer w nh with
      | Some peer => Some (w, Some peer)
      | None => bt_dm_add_peer w "" a (Z.of_nat (String.length a)) pt nh
      end;
  match r.2 with
  | None =>
      let line := cant_add_peer_line a pt nh in
      if log_defined r.1 line then Some (__log r.1 line, 0) else None
  | Some peer =>
      ih ← config_get r.1 "infohash";
      me ← config_get r.1 "my_peerid";
      s ← pwp_handshaker_send_handshake r.1 peer ih me;
      Some (s.1, 1)
  end.

(** *** Construction and dependency injection *)

(** [bt_dm_new()]: the default configuration, an empty peer manager,
    blacklist, job queue and sparse counter, and the two timers of the
    leeching choker. *)
Definition default_config : gmap string string :=
  config_set_if_not_set "shutdown_when_complete" "0"
    (config_set_if_not_set "max_cache_mem_bytes" "1000000"
    (config_set_if_not_set "download_path" "."
    (config_set_if_not_set "piece_length" "0"
    (config_set_if_not_set "npieces" "0"
    (config_set_if_not_set "max_pending_requests" "10"
    (config_set_if_not_set "max_active_peers" "32"
    (config_set_if_not_set "max_peer_connections" "32"
    (config_set_if_not_set "pwp_listen_port" "6881"
    (config_set_if_not_set "my_ip" "127.0.0.1"
    (config_set_if_not_set "infohash" "00000000000000000000"
    (<["default" := "0"]> ∅))))))))))).

Definition bt_dm_new : bt_dm_private_t :=
  mk_dm None (mk_cbs None None false false) [] default_config ∅ O ∅ [] []
        [(10, LEECHER_PEER_RECIPROCATION); (30, LEECHER_PEER_OPTIMISTIC_UNCHOKE)]
        None 0 [] [].

(** [bt_dm_set_cbs] *)
Definition bt_dm_set_cbs (w : bt_dm_private_t) (func : bt_dm_cbs_t) : bt_dm_private_t :=
  set_cb func w.

(** [bt_dm_set_piece_db] *)
Definition bt_dm_set_piece_db (w : bt_dm_private_t) (piece_db : gmap Z bt_piece_t)
  : bt_dm_private_t :=
  set_pdb (Some piece_db) w.

(** [bt_dm_check_pieces]: the loop over the piece indices below [npieces]. *)
Fixpoint check_pieces_from (n : nat) (i : Z) (w : bt_dm_private_t)
  : option bt_dm_private_t :=
  match n with
  | O => Some w
  | S n' =>
      pce ← get_piece w i;
      w1 ← match pce with
           | Some p =>
               if bt_piece_is_complete p then
                 w' ← selector_call_on (fun s => ips_have_piece s i) (SelHavePiece i) w;
                 Some (set_pieces_completed
                         (sc_mark_complete (pieces_completed w') i 1) w')
               else Some w
           | None => Some w
           end;
      check_pieces_from n' (i + 1) w1
  end.

Definition bt_dm_check_pieces (w : bt_dm_private_t) : option bt_dm_private_t :=
  n ← config_get_int w "npieces";
  check_pieces_from (Z.to_nat n) 0 w.

(** [bt_dm_set_piece_selector]: a NULL selector is replaced by
    [ips.new(0)]. *)
Definition bt_dm_set_piece_selector (w : bt_dm_private_t)
    (piece_selector : option selector) : option bt_dm_private_t :=
  bt_dm_check_pieces
    (set_pselector (Some (default (ips_new 0) piece_selector)) w).

(** [bt_dm_get_num_peers] *)
Definition bt_dm_get_num_peers (w : bt_dm_private_t) : Z := bt_peermanager_count w.

End DownloadManager.


(** ** A reference instance of the collaborators

    The sequential selector, the handshaker and small stand-ins for the
    rest, on which the download manager can be run.  The theorems below
    hold for every instance; this one supplies the concrete runs. *)

Module Reference.

(** Modelled from the spec (section 4.5): the sequential strategy of the
    absent [bt_selector_sequential.c] answers the lowest index that the
    peer has, that we lack and that is not handed out already. *)
Record seq_selector := mk_sel {
  sel_have : list Z;
  sel_peers : list (peer_ref * list Z);
  sel_polled : list Z
}.

Definition peer_pieces (s : seq_selector) (p : peer_ref) : list Z :=
  concat (map snd (filter (fun e => e.1 = p) (sel_peers s))).

Definition eligible (s : seq_selector) (p : peer_ref) : list Z :=
  filter (fun i => (i ∉ sel_have s) /\ (i ∉ sel_polled s)) (peer_pieces s p).

Definition lowest (l : list Z) : Z :=
  match l with
  | [] => -1
  | i :: l' => foldl Z.min i l'
  end.

Definition seq_poll_piece (s : seq_selector) (p : peer_ref) : seq_selector * Z :=
  let i := lowest (eligible s p) in
  if i =? -1 then (s, -1)
  else (mk_sel (sel_have s) (sel_peers s) (i :: sel_polled s), i).

(** A stand-in for SHA-1: the sum of the bytes modulo 256. *)
Definition digest (bytes : list Z) : list Z := [foldr Z.add 0 bytes mod 256].

Definition bytes_of (s : string) : list Z :=
  map Libc.code (String.list_ascii_of_string s).

(** Modelled from the spec (section 4.3): the handshaker takes bytes until
    it has 68, then checks the length byte 19, the protocol name and the
    infohash: 1 when done, 0 when more bytes are needed, -1 when the
    handshake is invalid. *)
Definition handshaker_dispatch (h : pwp_handshaker) (buf : list Z)
  : Z * pwp_handshaker * list Z :=
  let need := (68 - length (hs_buf h))%nat in
  let got := hs_buf h ++ take need buf in
  let h' := mk_hs (hs_infohash h) (hs_my_peerid h) got in
  if (length got <? 68)%nat then (0, h', drop need buf)
  else if bool_decide (take 20 got = 19 :: bytes_of "BitTorrent protocol")
          && bool_decide (Some (take 20 (drop 28 got)) = bytes_of <$> hs_infohash h)
       then (1, h', drop need buf)
       else (-1, h', drop need buf).

(** A stand-in for the message handler: one message per call; it knows
    KEEP_ALIVE, UNCHOKE and HAVE and rejects everything else. *)
Definition msghandler_dispatch (m : pwp_msghandler) (c : pwp_conn) (buf : list Z)
  : Z * pwp_msghandler * pwp_conn * list pc_callback :=
  match buf with
  | [] | [0; 0; 0; 0] => (1, m, c, [])
  | [0; 0; 0; 1; 1] =>
      (1, m, set_flags (filter (fun f => f <> PC_PEER_CHOKING) (flags c)) c,
       [CbPollblock])
  | [0; 0; 0; 5; 4; 0; 0; 0; i] => (1, m, c, [CbPeerHavePiece i])
  | _ => (0, m, c, [])
  end.

(** Modelled from the spec (section 4.2): on a tick a connection that is
    not choked and has room in its pipeline asks for blocks. *)
Definition conn_periodic (c : pwp_conn) : pwp_conn * list pc_callback :=
  if negb (pwp_conn_flag_is_set c PC_PEER_CHOKING)
     && (length (pending_requests c) <? 10)%nat
  then (c, [CbPollblock])
  else (c, []).

(** A stand-in for [pwp_conn_offer_block]: the block joins the pending
    requests and a REQUEST is sent. *)
Definition conn_offer_block (c : pwp_conn) (b : bt_block_t)
  : pwp_conn * list pwp_msg :=
  (mk_pc (flags c) (peer_bitfield c) (pending_requests c ++ [b]) (pc_drate c)
         (pc_urate c) (pc_npieces c) (pc_piece_length c),
   [MsgRequest b]).

#[export] Instance collaborators : Collaborators := {
  selector := seq_selector;
  ips_new := fun _ => mk_sel [] [] [];
  ips_add_peer := fun s p => mk_sel (sel_have s) (sel_peers s ++ [(p, [])]) (sel_polled s);
  ips_remove_peer := fun s p =>
    mk_sel (sel_have s) (filter (fun e => e.1 <> p) (sel_peers s)) (sel_polled s);
  ips_have_piece := fun s i => mk_sel (i :: sel_have s) (sel_peers s) (sel_polled s);
  ips_peer_have_piece := fun s p i =>
    mk_sel (sel_have s) (sel_peers s ++ [(p, [i])]) (sel_polled s);
  ips_peer_giveback_piece := fun s _ i =>
    mk_sel (sel_have s) (sel_peers s) (filter (fun j => j <> i) (sel_polled s));
  ips_poll_piece := seq_poll_piece;
  sha1 := digest;
  disk_write_block := fun _ _ => true;
  pwp_handshaker_dispatch_from_buffer := handshaker_dispatch;
  pwp_msghandler_dispatch_from_buffer := msghandler_dispatch;
  pwp_conn_periodic := conn_periodic;
  pwp_conn_offer_block := conn_offer_block
}.

(** The host: connecting answers with the port as the net handle, sending
    always succeeds, [call_exclusively] and [log] are installed. *)
Definition host : bt_dm_cbs_t :=
  mk_cbs (Some (fun _ pt => (1, pt))) (Some (fun _ _ => 1)) true true.

(** One piece of three blocks whose bytes must sum to 6. *)
Definition piece0 : bt_piece_t :=
  mk_piece 0 40000 [6] [(MISSING, []); (MISSING, []); (MISSING, [])] [].

(** A download manager as the host sets it up: callbacks, a database with
    [piece0], the configuration of the torrent and a fresh selector. *)
Definition dm_ready : option bt_dm_private_t :=
  let w := bt_dm_set_piece_db (bt_dm_set_cbs bt_dm_new host) {[ 0 := piece0 ]} in
  let w := set_cfg (<["my_peerid" := "-YT0001-000000000000"]>
                     (<["max_pending_requests" := "2"]>
                     (<["piece_length" := "40000"]>
                     (<["npieces" := "1"]> (cfg w))))) w in
  bt_dm_set_piece_selector w None.

(** The handshake a remote peer sends for the default infohash. *)
Definition handshake_bytes : list Z :=
  19 :: bytes_of "BitTorrent protocol" ++ replicate 8 0
     ++ bytes_of "00000000000000000000" ++ bytes_of "-XX0001-000000000000".

(** Peer A (outbound, net handle 7001) was added and is still before its
    handshake. *)
Definition dm_peer_added : option bt_dm_private_t :=
  w ← dm_ready;
  fst <$> bt_dm_add_peer w "" "10.0.0.2" 8 7001 0.

(** Peer A completed its handshake, announced piece 0 and unchoked us. *)
Definition dm_connected : option bt_dm_private_t :=
  w ← dm_peer_added;
  w ← fst <$> bt_dm_dispatch_from_buffer w 7001 handshake_bytes;
  w ← fst <$> bt_dm_dispatch_from_buffer w 7001 [0; 0; 0; 5; 4; 0; 0; 0; 0];
  fst <$> bt_dm_dispatch_from_buffer w 7001 [0; 0; 0; 1; 1].

End Reference.

(** ** Reading a trace *)

(** The messages sent to peer [q], in order. *)
Definition sends_to (q : peer_ref) (t : list event) : list pwp_msg :=
  omap (fun e => match e with
                 | EvPeerSend p _ m => if decide (p = q) then Some m else None
                 | _ => None
                 end) t.

(** The blocks offered to the connection of peer [q], in order. *)
Definition offered_blocks (q : peer_ref) (t : list event) : list bt_block_t :=
  omap (fun e => match e with
                 | EvPcOfferBlock p b => if decide (p = q) then Some b else None
                 | _ => None
                 end) t.

(** The peers whose connection ran its periodic step, in order. *)
Definition pc_periodic_calls (t : list event) : list peer_ref :=
  omap (fun e => match e with EvPcPeriodic p => Some p | _ => None end) t.

(** The jobs taken from the queue by [call_exclusively(.., __poll_job)]. *)
Definition polled_jobs (t : list event) : list (option bt_job_t) :=
  omap (fun e => match e with
                 | EvCallExclusively POLL_JOB _ j => Some j
                 | _ => None
                 end) t.

(** The calls made through the selector interface, in order. *)
Definition selector_calls (t : list event) : list selector_call :=
  omap (fun e => match e with EvSelector c => Some c | _ => None end) t.

Definition is_poll_piece (c : selector_call) : bool :=
  match c with SelPollPiece _ _ => true | _ => false end.

(** The events that [w'] has beyond those of [w]. *)
Definition events_since `{Collaborators} (w w' : bt_dm_private_t) : list event :=
  drop (length (trace w)) (trace w').

(** ** Reading a state *)

Section Observations.
Context `{Collaborators}.

(** Whether flag [f] is set on the connection of peer [q]. *)
Definition peer_flag (w : bt_dm_private_t) (q : peer_ref) (f : pc_flag) : bool :=
  match peer_pc w q with
  | Some c => pwp_conn_flag_is_set c f
  | None => false
  end.

(** Every peer of the peer manager has its connection object. *)
Definition peers_have_pc (w : bt_dm_private_t) : bool :=
  forallb (fun q => bool_decide (is_Some (peer_pc w q))) (elements (pm w)).

(** What [__log] hands to the host for a line: the line is printed a
    second time on its way. *)
Definition log_events (w : bt_dm_private_t) (line : string) : list event :=
  if log (cb w)
  then [EvLog (default "(null)" (config_get w "my_peerid") +:+ ","
               +:+ Libc.printed line)]
  else [].

(** The piece stored under index [i]. *)
Definition piece_at (w : bt_dm_private_t) (i : Z) : option bt_piece_t :=
  db ← pdb w; db !! i.

End Observations.

(** The indices of the MISSING blocks, counted from [k]. *)
Fixpoint missing_from (k : nat) (bs : list (block_state * list Z)) : list nat :=
  match bs with
  | [] => []
  | b :: bs' =>
      if decide (b.1 = MISSING) then k :: missing_from (S k) bs'
      else missing_from (S k) bs'
  end.

(** The blocks a piece still misses, in the order of their offsets. *)
Definition missing_blocks (p : bt_piece_t) : list bt_block_t :=
  map (block_at p) (missing_from 0 (blocks p)).

(** The piece with every MISSING block turned REQUESTED. *)
Definition request_missing (p : bt_piece_t) : bt_piece_t :=
  set_blocks (map (fun b => if decide (b.1 = MISSING) then (REQUESTED, b.2) else b)
                  (blocks p)) p.

(** ** Classes of events *)

(** What a callback of a peer connection can cause outside the download
    manager: log lines, sends, the exclusive call that queues a job, and
    selector calls other than [poll_piece]. *)
Definition callback_event (e : event) : bool :=
  match e with
  | EvLog _ | EvPrintf _ | EvPeerSend _ _ _ => true
  | EvCallExclusively OFFER_JOB _ _ => true
  | EvSelector c => negb (is_poll_piece c)
  | _ => false
  end.

(** What dispatching a job for peer [p] can cause: selector polls for
    [p], [have_piece] notifications, offers and sends. *)
Definition job_event (p : peer_ref) (e : event) : bool :=
  match e with
  | EvSelector (SelPollPiece q _) => bool_decide (q = p)
  | EvSelector (SelHavePiece _) => true
  | EvPcOfferBlock _ _ | EvPeerSend _ _ _ => true
  | _ => false
  end.

(** What the per-peer step can cause: the periodic step of a connection
    and the callbacks it makes. *)
Definition step_event (e : event) : bool :=
  match e with
  | EvPcPeriodic _ => true
  | _ => callback_event e
  end.

(** Every [poll_piece] in the trace is made for the peer of the job that
    [call_exclusively(.., __poll_job)] returned last; [cur] is that peer. *)
Fixpoint polls_follow_job (cur : option peer_ref) (t : list event) : bool :=
  match t with
  | [] => true
  | EvCallExclusively POLL_JOB _ (Some (BT_JOB_POLLBLOCK p)) :: t' =>
      polls_follow_job (Some p) t'
  | EvCallExclusively POLL_JOB _ _ :: t' => polls_follow_job None t'
  | EvSelector (SelPollPiece q _) :: t' =>
      bool_decide (cur = Some q) && polls_follow_job cur t'
  | _ :: t' => polls_follow_job cur t'
  end.

(** The [poll_piece] calls of a trace. *)
Definition selector_polls (t : list event) : list selector_call :=
  filter (fun c => is_poll_piece c = true) (selector_calls t).

(** The guard of [__FUNC_peer_periodic]: the connection has not failed
    and the handshake was received. *)
Definition should_step `{Collaborators} (w : bt_dm_private_t) (q : peer_ref) : bool :=
  negb (peer_flag w q PC_FAILED_CONNECTION) && peer_flag w q PC_HANDSHAKE_RECEIVED.

(** ** Frames: what a call may change *)

Section Frames.
Context `{Collaborators}.

(** [w'] has the trace of [w] followed by events of the class [allowed]. *)
Definition extends (allowed : event -> bool) (w w' : bt_dm_private_t) : Prop :=
  exists d, trace w' = trace w ++ d /\ forallb allowed d = true.

(** A callback leaves the peer objects and the host's callbacks alone and
    causes callback events only. *)
Definition callback_frame (w w' : bt_dm_private_t) : Prop :=
  peers w' = peers w /\ cb w' = cb w /\ extends callback_event w w'.

(** Dispatching a job for peer [p] leaves the queue and the host's
    callbacks alone and causes job events for [p] only. *)
Definition job_frame (p : peer_ref) (w w' : bt_dm_private_t) : Prop :=
  jobs w' = jobs w /\ cb w' = cb w /\ pm w' = pm w /\ extends (job_event p) w w'.

(** Every peer that has its connection object in [w] has one in [w']. *)
Definition keeps_pc (w w' : bt_dm_private_t) : Prop :=
  forall q : peer_ref, is_Some (peer_pc w q) -> is_Some (peer_pc w' q).

(** The piece under index [i] is in the database and not complete. *)
Definition incomplete_at (db : gmap Z bt_piece_t) (i : Z) : Prop :=
  exists pce, db !! i = Some pce /\ bt_piece_is_complete pce = false.

(** The selector states [good] are closed under [poll_piece], and in them
    [poll_piece] answers -1 or a piece of [db] that is not complete: the
    selector never hands out a piece that is absent or already complete. *)
Definition selector_offers (good : selector -> Prop) (db : gmap Z bt_piece_t) : Prop :=
  forall (s : selector) (p : peer_ref), good s ->
    good (ips_poll_piece s p).1 /\
    ((ips_poll_piece s p).2 = -1 \/ incomplete_at db (ips_poll_piece s p).2).

(** A job that [__dispatch_job] handles: a PollBlock for a peer that has
    its connection object. *)
Definition job_ready (w : bt_dm_private_t) (j : bt_job_t) : Prop :=
  exists p, j = BT_JOB_POLLBLOCK p /\ is_Some (peer_pc w p).

(** The callbacks of a connection that asks for blocks or sends. *)
Definition periodic_callback (c : pc_callback) : Prop :=
  c = CbPollblock \/ exists m, c = CbSend m.

(** What the drain of the queue needs of the download manager, and keeps:
    the host's [call_exclusively] and [peer_send], a selector in a [good]
    state, and a database in which the pieces of [db] that are not
    complete are still there and not complete. *)
Definition drain_ready (good : selector -> Prop) (db : gmap Z bt_piece_t)
    (w : bt_dm_private_t) : Prop :=
  call_exclusively (cb w) = true /\ is_Some (peer_send (cb w)) /\
  (exists s, pselector w = Some s /\ good s) /\
  (exists db', pdb w = Some db' /\ forall i, incomplete_at db i -> incomplete_at db' i).

End Frames.

(** ** A download in progress

    States of the reference download manager that the examples start
    from. *)

Module Scenario.
Import Reference.

(** The three blocks of [piece0]. *)
Definition block0 : bt_block_t := mk_block 0 0 16384.
Definition block1 : bt_block_t := mk_block 0 16384 16384.
Definition block2 : bt_block_t := mk_block 0 32768 7232.

(** A tick after peer A unchoked us: the queued job is dispatched and the
    three blocks are requested from A. *)
Definition dm_requested : option bt_dm_private_t :=
  w ← dm_connected; fst <$> bt_dm_periodic 10 w None.

(** Peer A delivered the first two blocks. *)
Definition dm_two_blocks : option bt_dm_private_t :=
  w ← dm_requested;
  w ← fst <$> __FUNC_peerconn_pushblock w 0%nat block0 [1];
  fst <$> __FUNC_peerconn_pushblock w 0%nat block1 [2].

(** The states above as values; a run that stops yields the fresh
    download manager. *)
Definition w_added : bt_dm_private_t :=
  Eval vm_compute in default bt_dm_new dm_peer_added.
Definition w_connected : bt_dm_private_t :=
  Eval vm_compute in default bt_dm_new dm_connected.
Definition w_two_blocks : bt_dm_private_t :=
  Eval vm_compute in default bt_dm_new dm_two_blocks.

(** A download manager that is seeding and was told to shut down when
    complete, with a job still queued. *)
Definition w_seeding : bt_dm_private_t :=
  set_am_seeding 1
    (set_cfg (<["shutdown_when_complete" := "1"]> (cfg w_connected)) w_connected).

End Scenario.

(** ** The interface as a whole

    The remaining functions of the interface, the calls a host can make,
    and what is kept from one call to the next. *)

(** The calls of the message handler's parser, in order: the peer and the
    bytes it was given. *)
Definition msghandler_dispatches (t : list event) : list (peer_ref * list Z) :=
  omap (fun e => match e with
                 | EvMsgHandlerDispatch p buf => Some (p, buf)
                 | _ => None
                 end) t.

(** The outbound connections asked of the host, in order. *)
Definition peer_connects (t : list event) : list (string * Z) :=
  omap (fun e => match e with
                 | EvPeerConnect a pt => Some (a, pt)
                 | _ => None
                 end) t.

(** Every event but a call of the message handler's parser. *)
Definition handshake_event (e : event) : bool :=
  match e with
  | EvMsgHandlerDispatch _ _ => false
  | _ => true
  end.

Section Interface.
Context `{Collaborators}.

(** [bt_dm_get_config]: the configuration object itself, which the host
    may then write to. *)
Definition bt_dm_get_config (w : bt_dm_private_t) : gmap string string := cfg w.

(** [bt_dm_get_piecedb] *)
Definition bt_dm_get_piecedb (w : bt_dm_private_t) : option (gmap Z bt_piece_t) :=
  pdb w.


(** [bt_dm_release]: nothing is released; the answer is 1. *)
Definition bt_dm_release (w : bt_dm_private_t) : bt_dm_private_t * Z := (w, 1).

(** Modelled from the spec: [config_set] of the absent [config.c] stores
    the value under the key. *)
Definition config_set (k v : string) (w : bt_dm_private_t) : bt_dm_private_t :=
  set_cfg (<[k := v]> (bt_dm_get_config w)) w.

(** A call of the host into the download manager. *)
Inductive dm_call :=
| CallAddPeer (pid a : string) (ip_len pt nh : Z)
| CallRemovePeer (peer : peer_ref)
| CallPeriodic (fuel : nat) (stats : option bt_dm_stats_t)
| CallDispatchFromBuffer (nh : Z) (buf : list Z)
| CallPeerConnect (nh : Z) (a : string) (pt : Z)
| CallPeerConnectFail (nh : Z)
| CallConfigSet (k v : string)
| CallSetCbs (func : bt_dm_cbs_t)
| CallSetPieceDb (piece_db : gmap Z bt_piece_t)
| CallSetPieceSelector (piece_selector : option selector)
| CallCheckPieces
| CallRelease.

(** The state a call leaves. *)
Definition dm_call_run (w : bt_dm_private_t) (c : dm_call) : option bt_dm_private_t :=
  match c with
  | CallAddPeer pid a ip_len pt nh => fst <$> bt_dm_add_peer w pid a ip_len pt nh
  | CallRemovePeer peer => fst <$> bt_dm_remove_peer w peer
  | CallPeriodic fuel stats => fst <$> bt_dm_periodic fuel w stats
  | CallDispatchFromBuffer nh buf => fst <$> bt_dm_dispatch_from_buffer w nh buf
  | CallPeerConnect nh a pt => fst <$> bt_dm_peer_connect w nh a pt
  | CallPeerConnectFail nh => bt_dm_peer_connect_fail w nh
  | CallConfigSet k v => Some (config_set k v w)
  | CallSetCbs func => Some (bt_dm_set_cbs w func)
  | CallSetPieceDb piece_db => Some (bt_dm_set_piece_db w piece_db)
  | CallSetPieceSelector piece_selector => bt_dm_set_piece_selector w piece_selector
  | CallCheckPieces => bt_dm_check_pieces w
  | CallRelease => Some (bt_dm_release w).1
  end.

(** A sequence of calls, each on the state the one before left. *)
Fixpoint dm_calls (w : bt_dm_private_t) (cs : list dm_call) : option bt_dm_private_t :=
  match cs with
  | [] => Some w
  | c :: cs' => w' ← dm_call_run w c; dm_calls w' cs'
  end.

(** What stays of a peer object once it exists: its id, address and net
    handle, and that it has a connection. *)
Definition peer_kept (p p' : bt_peer_t) : Prop :=
  peer_id p' = peer_id p /\ ip p' = ip p /\ port p' = port p /\
  nethandle p' = nethandle p /\ (is_Some (pc p) -> is_Some (pc p')).

(** The same peer objects exist in [w'] as in [w], each with what is kept
    of it. *)
Definition peers_kept (w w' : bt_dm_private_t) : Prop :=
  forall r : peer_ref, match peers w !! r, peers w' !! r with
            | Some p, Some p' => peer_kept p p'
            | None, None => True
            | _, _ => False
            end.

(** What inbound bytes and ticks leave alone: the configuration, the
    seeding flag, the timers, the choker's peers and the host's callbacks;
    no peer object is made and no peer joins the peer manager. *)
Definition dm_frame (w w' : bt_dm_private_t) : Prop :=
  cfg w' = cfg w /\ am_seeding w' = am_seeding w /\ ticker w' = ticker w /\
  lchoke w' = lchoke w /\ cb w' = cb w /\ next_peer w' = next_peer w /\
  pm w' ⊆ pm w /\ peers_kept w w'.

(** The peers of the peer manager are sound: each has its connection,
    every peer object was handed out by the peer manager, and no two
    peers of the manager have the same address. *)
Definition peers_wf (w : bt_dm_private_t) : Prop :=
  (forall r : peer_ref, r ∈ pm w -> is_Some (peer_pc w r)) /\
  (forall r : peer_ref, is_Some (peers w !! r) -> (r < next_peer w)%nat) /\
  (forall (r1 r2 : peer_ref) p1 p2,
     r1 ∈ pm w -> r2 ∈ pm w ->
     peers w !! r1 = Some p1 -> peers w !! r2 = Some p2 ->
     ip p1 = ip p2 -> port p1 = port p2 -> r1 = r2).

(** The statistics entry that [__FUNC_peer_stats_visitor] writes for a
    peer. *)
Definition peer_stats (w : bt_dm_private_t) (q : peer_ref) : option bt_dm_peer_stats_t :=
  c ← peer_pc w q;
  Some (mk_pstats (pwp_conn_im_choked c) (pwp_conn_im_choking c)
          (pwp_conn_flag_is_set c PC_HANDSHAKE_RECEIVED)
          (pwp_conn_flag_is_set c PC_FAILED_CONNECTION)
          (pc_drate c) (pc_urate c)).

(** The piece under index [i] is in the database and complete. *)
Definition piece_complete_at (db : gmap Z bt_piece_t) (i : Z) : bool :=
  match db !! i with
  | Some p => bt_piece_is_complete p
  | None => false
  end.

(** The indices from [i] on, [n] of them, whose piece is in the database
    and complete, in increasing order. *)
Definition complete_pieces (db : gmap Z bt_piece_t) (i : Z) (n : nat) : list Z :=
  filter (fun j => piece_complete_at db j = true)
         ((fun k => i + Z.of_nat k) <$> seq 0 n).

End Interface.

(** ** Further states of the reference download manager *)

Module Cases.
Import Reference Scenario.

(** [piece0] with its three blocks received from peer A. *)
Definition piece_done : bt_piece_t :=
  mk_piece 0 40000 [6] [(RECEIVED, [1]); (RECEIVED, [2]); (RECEIVED, [3])] [0%nat].

(** A second piece, of which nothing was received. *)
Definition piece1 : bt_piece_t :=
  mk_piece 1 40000 [6] [(MISSING, []); (MISSING, []); (MISSING, [])] [].

(** A download manager restarted on a database that holds one complete
    and one empty piece, before its selector is installed. *)
Definition w_resumed : bt_dm_private_t :=
  config_set "npieces" "2"
    (bt_dm_set_piece_db (bt_dm_set_cbs bt_dm_new host)
       {[ 0 := piece_done; 1 := piece1 ]}).

(** A host whose [peer_send] always fails. *)
Definition mute_host : bt_dm_cbs_t :=
  mk_cbs (Some (fun _ pt => (1, pt))) (Some (fun _ _ => 0)) true true.

(** Peer A was added, and the host can no longer send. *)
Definition w_mute : bt_dm_private_t := bt_dm_set_cbs w_added mute_host.

(** A session of a host: set-up, one peer that completes its handshake, a
    tick, and the removal of the peer. *)
Definition session : list dm_call :=
  [ CallSetCbs host;
    CallSetPieceDb {[ 0 := piece0 ]};
    CallConfigSet "npieces" "1";
    CallConfigSet "piece_length" "40000";
    CallConfigSet "my_peerid" "-YT0001-000000000000";
    CallConfigSet "shutdown_when_complete" "1";
    CallSetPieceSelector None;
    CallAddPeer "" "10.0.0.2" 8 7001 0;
    CallDispatchFromBuffer 7001 handshake_bytes;
    CallPeriodic 10 None;
    CallRemovePeer 0%nat;
    CallRelease ].

(** Peer A leaves and peer B joins. *)
Definition turnover : list dm_call :=
  [ CallRemovePeer 0%nat; CallAddPeer "" "10.0.0.3" 8 7002 0 ].

End Cases.

(** * Properties *)

(** ** Reduction of field reads after updates *)

Ltac dm_simpl :=
  cbn [pdb cb jobs cfg peers next_peer pm blacklist lchoke ticker pselector
       am_seeding pieces_completed trace
       set_pdb set_cb set_cfg set_am_seeding set_jobs set_peers set_pm
       set_blacklist set_lchoke set_pselector set_pieces_completed set_trace
       add_event store_piece set_peer_pc set_peer_mh set_peer_nethandle
       mbind option_bind fmap option_fmap option_map fst snd].

Tactic Notation "dm_simpl" "in" hyp(H) :=
  cbn [pdb cb jobs cfg peers next_peer pm blacklist lchoke ticker pselector
       am_seeding pieces_completed trace
       set_pdb set_cb set_cfg set_am_seeding set_jobs set_peers set_pm
       set_blacklist set_lchoke set_pselector set_pieces_completed set_trace
       add_event store_piece set_peer_pc set_peer_mh set_peer_nethandle
       mbind option_bind fmap option_fmap option_map fst snd] in H.


(** ** The percent-encoding *)

Lemma all_chars_spec c : Url.is_char c -> c ∈ Url.all_chars.
Proof.
  intros [Hlo Hhi]. unfold Url.all_chars.
  apply list_elem_of_fmap. exists (Z.to_nat (c + 128)). split; [lia|].
  apply elem_of_seq. lia.
Qed.

Lemma byte_roundtrips_all c : Url.is_char c -> Url.byte_roundtrips c = true.
Proof.
  intros Hc. apply all_chars_spec in Hc.
  assert (H : forallb Url.byte_roundtrips Url.all_chars = true) by (vm_compute; reflexivity).
  rewrite forallb_forall in H. apply H. by apply list_elem_of_In.
Qed.

Lemma url_encode_cons c s : Url.url_encode (c :: s) = Url.url_encode [c] ++ Url.url_encode s.
Proof. simpl. destruct (Url.isalnum c); reflexivity. Qed.

Lemma byte_roundtrips_spec c :
  Url.is_char c ->
  Url.url_encode [c] = Url.encode_byte c /\
  Url.encoded_as c (Url.encode_byte c) = true /\
  Url.url_decode (Url.url_encode [c]) = [c].
Proof.
  intros Hc. pose proof (byte_roundtrips_all c Hc) as Hb.
  unfold Url.byte_roundtrips in Hb.
  apply andb_prop in Hb as [Hb Hdec]. apply andb_prop in Hb as [Henc Hshape].
  apply bool_decide_eq_true in Hdec. apply bool_decide_eq_true in Henc. done.
Qed.

Lemma url_decode_encoded_byte c t :
  Url.is_char c -> Url.url_decode (Url.url_encode [c] ++ t) = c :: Url.url_decode t.
Proof.
  intros Hc. destruct (byte_roundtrips_spec c Hc) as (_ & _ & Hdec).
  revert Hdec. simpl. destruct (Url.isalnum c) eqn:Ha; simpl.
  - destruct (Z.eqb_spec c 37) as [->|_]; [discriminate Ha|].
    destruct (Z.eqb_spec c 43) as [->|_]; [discriminate Ha|]. reflexivity.
  - intros Hdec. congruence.
Qed.

(** C9.  For every C string [s] (non-zero signed bytes), [url_encode]
    emits each alphanumeric byte unchanged and every other byte as ['%']
    followed by two uppercase hexadecimal digits, those of [hex] for its
    high and its low four bits; [url_decode] of the result is [s] again. *)
Theorem url_decode_encode s :
  Url.c_string s ->
  Url.url_encode s = concat (map Url.encode_byte s) /\
  Forall (fun c => Url.encoded_as c (Url.encode_byte c) = true) s /\
  Url.url_decode (Url.url_encode s) = s.
Proof.
  induction 1 as [|c s [Hc _] _ (IHe & IHs & IHd)]; [done|].
  destruct (byte_roundtrips_spec c Hc) as (Henc & Hshape & _).
  rewrite url_encode_cons. split; [|split].
  - cbn [map concat]. by rewrite <- IHe, Henc.
  - by constructor.
  - rewrite url_decode_encoded_byte by done. by rewrite IHd.
Qed.

(** The round trip on the bytes of "hi", a space, the byte 0xE9 and a
    percent sign. *)
Lemma url_decode_encode_witness :
  Url.c_string [104; 105; 32; -23; 37] /\
  Url.url_encode [104; 105; 32; -23; 37] = [104; 105; 37; 50; 48; 37; 69; 57; 37; 50; 53] /\
  Url.url_decode (Url.url_encode [104; 105; 32; -23; 37]) = [104; 105; 32; -23; 37].
Proof.
  assert (Hs : Url.c_string [104; 105; 32; -23; 37]).
  { repeat constructor; unfold Url.is_char; lia. }
  split; [exact Hs|].
  destruct (url_decode_encode _ Hs) as (He & _ & Hd).
  split; [rewrite He; reflexivity | exact Hd].
Defined.


(** ** Refusals and small callbacks *)

Section Refusals.
Context `{Collaborators}.

Lemma strncmp_nat_refl a n : Libc.strncmp_nat a a n = 0.
Proof.
  revert a. induction n as [|n IH]; intros [|c a]; simpl; try done.
  by rewrite Z.eqb_refl.
Qed.

Lemma strncmp_refl a n : Libc.strncmp a a n = 0.
Proof. unfold Libc.strncmp. destruct (n <? 0); apply strncmp_nat_refl. Qed.

(** C6.  With [my_ip] and [pwp_listen_port] configured, [bt_dm_add_peer]
    returns NULL, for every peer id, length argument and net handle, when
    the address is the download manager's own and when the peer manager
    already has a peer with that (ip, port).  In both cases the state it
    returns is the state it was given: no peer is registered. *)
Theorem add_peer_refuses (w : bt_dm_private_t) (pid a : string) (ip_len pt nh : Z)
    (my_ip lp : string) :
  config_get w "my_ip" = Some my_ip ->
  config_get w "pwp_listen_port" = Some lp ->
  (a = my_ip /\ pt = Libc.atoi lp) \/ bt_peermanager_contains w a pt = true ->
  bt_dm_add_peer w pid a ip_len pt nh = Some (w, None).
Proof.
  intros Hip Hport Hcase. unfold bt_dm_add_peer, is_own_address.
  rewrite Hip. simpl.
  destruct (Libc.strncmp a my_ip ip_len =? 0) eqn:Hcmp.
  - rewrite Hport. simpl. destruct (pt =? Libc.atoi lp) eqn:Hpt; [done|].
    destruct Hcase as [[_ ->]|Hdup]; [by rewrite Z.eqb_refl in Hpt|].
    unfold bt_peermanager_add_peer. by rewrite Hdup.
  - simpl. destruct Hcase as [[-> _]|Hdup].
    + by rewrite strncmp_refl in Hcmp.
    + unfold bt_peermanager_add_peer. by rewrite Hdup.
Qed.

(** C10.  [__FUNC_peerconn_giveback_block] called with a block whose [len]
    is negative returns at once: the state is unchanged, so no piece was
    touched and the selector was not called. *)
Theorem giveback_block_negative_len (w : bt_dm_private_t) (peer : peer_ref)
    (b : bt_block_t) :
  len b < 0 -> __FUNC_peerconn_giveback_block w peer b = Some w.
Proof.
  intros Hn. unfold __FUNC_peerconn_giveback_block.
  by destruct (Z.ltb_spec (len b) 0); [|lia].
Qed.

(** C8.  In every state and for every peer, [get_drate] and [get_urate]
    of the choker's interface answer 0 and change nothing.  For a peer that
    has its connection, with the host's [peer_send] installed,
    [get_is_interested] answers the PEER_INTERESTED flag and changes
    nothing, and [choke_peer] and [unchoke_peer] change nothing but the
    trace, to which they add the CHOKE or UNCHOKE sent to that peer. *)
Theorem choker_peer_interface (w : bt_dm_private_t) (peer : peer_ref) :
  __get_drate w peer = Some (w, 0) /\
  __get_urate w peer = Some (w, 0) /\
  forall p c send,
    peers w !! peer = Some p -> pc p = Some c -> peer_send (cb w) = Some send ->
    __get_is_interested w peer
      = Some (w, if pwp_conn_flag_is_set c PC_PEER_INTERESTED then 1 else 0) /\
    __choke_peer w peer
      = Some (add_event (EvPeerSend peer (nethandle p) MsgChoke) w, 0) /\
    __unchoke_peer w peer
      = Some (add_event (EvPeerSend peer (nethandle p) MsgUnchoke) w, 0).
Proof.
  split; [done|]. split; [done|]. intros p c send Hp Hc Hs.
  unfold __get_is_interested, __choke_peer, __unchoke_peer, pwp_conn_choke_peer,
    pwp_conn_unchoke_peer, __FUNC_peerconn_send_to_peer, peer_pc,
    pwp_conn_peer_is_interested.
  rewrite Hp. simpl. rewrite Hc, Hs. simpl. done.
Qed.

End Refusals.

(** ** A complete piece *)

Section Pushblock.
Context `{Collaborators}.

Lemma sends_to_app q t1 t2 : sends_to q (t1 ++ t2) = sends_to q t1 ++ sends_to q t2.
Proof. apply omap_app. Qed.

Lemma selector_calls_app t1 t2 :
  selector_calls (t1 ++ t2) = selector_calls t1 ++ selector_calls t2.
Proof. apply omap_app. Qed.

Lemma events_since_app (w w' : bt_dm_private_t) d :
  trace w' = trace w ++ d -> events_since w w' = d.
Proof. intros Ht. unfold events_since. rewrite Ht. by rewrite drop_app_length. Qed.

Lemma write_block_idx p b data peer p1 r :
  bt_piece_write_block p b data peer = (p1, r) -> idx p1 = idx p.
Proof.
  unfold bt_piece_write_block. intros Hw.
  repeat match type of Hw with
         | (if ?c then _ else _) = _ => destruct c
         end; by inversion Hw.
Qed.

Lemma peer_pc_Some (w : bt_dm_private_t) r c :
  peer_pc w r = Some c <-> exists p, peers w !! r = Some p /\ pc p = Some c.
Proof.
  unfold peer_pc. destruct (peers w !! r) as [p|]; simpl; split.
  - eauto.
  - by intros (? & [= <-] & ?).
  - done.
  - by intros (? & ? & ?).
Qed.

Lemma send_have_step pce (w : bt_dm_private_t) r p c send :
  peers w !! r = Some p -> pc p = Some c -> peer_send (cb w) = Some send ->
  __FUNC_peerconn_send_have pce w r =
    Some (if pwp_conn_flag_is_set c PC_HANDSHAKE_RECEIVED
          then add_event (EvPeerSend r (nethandle p) (MsgHave (idx pce))) w
          else w).
Proof.
  intros Hp Hc Hs.
  unfold __FUNC_peerconn_send_have, pwp_conn_send_have,
    __FUNC_peerconn_send_to_peer, peer_pc.
  rewrite Hp. simpl. rewrite Hc. simpl.
  destruct (pwp_conn_flag_is_set c PC_HANDSHAKE_RECEIVED); simpl; [|done].
  by rewrite Hs.
Qed.

(** The HAVE broadcast over a list of distinct peers: the state changes
    only by the sends, one to each peer whose handshake arrived. *)
Lemma send_have_visit pce send rs :
  NoDup rs ->
  forall w : bt_dm_private_t,
  peer_send (cb w) = Some send ->
  Forall (fun q => is_Some (peer_pc w q)) rs ->
  exists d,
    visit_peers (__FUNC_peerconn_send_have pce) rs w = Some (set_trace (trace w ++ d) w) /\
    selector_calls d = [] /\
    forall q, sends_to q d =
      if bool_decide (q ∈ rs) && peer_flag w q PC_HANDSHAKE_RECEIVED
      then [MsgHave (idx pce)] else [].
Proof.
  induction 1 as [|r rs Hr Hnd IH]; intros w Hsend Hpc.
  - exists []. cbn [visit_peers]. rewrite app_nil_r. split; [by destruct w|].
    split; [done|]. done.
  - apply Forall_cons in Hpc as [[c Hc] Hpc]. cbn [visit_peers].
    pose proof Hc as Hc'. apply peer_pc_Some in Hc' as (p & Hp & Hpc').
    rewrite (send_have_step pce w r p c send) by done. cbn [mbind option_bind].
    destruct (pwp_conn_flag_is_set c PC_HANDSHAKE_RECEIVED) eqn:Hf.
    + set (e := EvPeerSend r (nethandle p) (MsgHave (idx pce))).
      destruct (IH (add_event e w)) as (d & Hv & Hsel & Hd); [done|done|].
      exists (e :: d). split; [|split].
      * rewrite Hv. f_equal. unfold add_event, set_trace. cbn.
        by rewrite <- app_assoc.
      * done.
      * intros q. change (e :: d) with ([e] ++ d). rewrite sends_to_app, Hd.
        change (peer_flag (add_event e w) q) with (peer_flag w q).
        destruct (decide (q = r)) as [->|Hne].
        -- rewrite (bool_decide_eq_false_2 (r ∈ rs)) by done.
           rewrite bool_decide_eq_true_2 by (apply elem_of_cons; auto).
           unfold peer_flag. rewrite Hc, Hf. cbn. by rewrite decide_True.
        -- unfold sends_to at 1. cbn. rewrite decide_False by done. cbn.
           destruct (decide (q ∈ rs)).
           ++ rewrite !bool_decide_eq_true_2 by (try apply elem_of_cons; auto). done.
           ++ rewrite !bool_decide_eq_false_2
                by (rewrite ?elem_of_cons; intros ?; intuition). done.
    + destruct (IH w) as (d & Hv & Hsel & Hd); [done|done|].
      exists d. split; [done|]. split; [done|]. intros q. rewrite Hd.
      destruct (decide (q = r)) as [->|Hne].
      * rewrite (bool_decide_eq_false_2 (r ∈ rs)) by done.
        rewrite bool_decide_eq_true_2 by (apply elem_of_cons; auto).
        unfold peer_flag. rewrite Hc, Hf. done.
      * destruct (decide (q ∈ rs)).
        -- rewrite !bool_decide_eq_true_2 by (try apply elem_of_cons; auto). done.
        -- rewrite !bool_decide_eq_false_2
             by (rewrite ?elem_of_cons; intros ?; intuition). done.
Qed.


Lemma peers_have_pc_spec (w : bt_dm_private_t) :
  peers_have_pc w = true -> Forall (fun q => is_Some (peer_pc w q)) (elements (pm w)).
Proof.
  unfold peers_have_pc. rewrite forallb_forall, Forall_forall.
  intros Hall q Hq. apply list_elem_of_In in Hq.
  by apply Hall, bool_decide_eq_true in Hq.
Qed.

Lemma log_trace (w : bt_dm_private_t) line :
  __log w line = set_trace (trace w ++ log_events w line) w.
Proof.
  unfold __log, __FUNC_log, log_events. destruct (log (cb w)); [done|].
  rewrite app_nil_r. by destruct w.
Qed.

Lemma sends_to_log q (w : bt_dm_private_t) line : sends_to q (log_events w line) = [].
Proof. unfold log_events. by destruct (log (cb w)). Qed.

Lemma selector_calls_log (w : bt_dm_private_t) line :
  selector_calls (log_events w line) = [].
Proof. unfold log_events. by destruct (log (cb w)). Qed.

(** C3.  When [bt_piece_write_block] answers 2 in the pushblock callback,
    the piece index is marked in the sparse counter, the selector receives
    [have_piece(idx)] and nothing else, and the messages sent are exactly
    one HAVE(idx) to each peer of the peer manager whose
    PC_HANDSHAKE_RECEIVED is set and none to any other peer. *)
Theorem pushblock_complete_broadcast (w : bt_dm_private_t) (peer : peer_ref)
    (b : bt_block_t) (data : list Z) db p p1 s send :
  pdb w = Some db ->
  db !! piece_idx b = Some p ->
  idx p = piece_idx b ->
  bt_piece_write_block p b data peer = (p1, 2) ->
  pselector w = Some s ->
  peer_send (cb w) = Some send ->
  peers_have_pc w = true ->
  exists w',
    __FUNC_peerconn_pushblock w peer b data = Some (w', 1) /\
    sc_have (pieces_completed w') (piece_idx b) = true /\
    pselector w' = Some (ips_have_piece s (piece_idx b)) /\
    selector_calls (events_since w w') = [SelHavePiece (piece_idx b)] /\
    forall q, sends_to q (events_since w w') =
      if bool_decide (q ∈ pm w) && peer_flag w q PC_HANDSHAKE_RECEIVED
      then [MsgHave (piece_idx b)] else [].
Proof.
  intros Hdb Hp Hidx Hw Hsel Hsend Hpcs.
  unfold __FUNC_peerconn_pushblock. rewrite Hdb. cbn [mbind option_bind].
  rewrite Hp. cbn [mbind option_bind]. rewrite Hw.
  change (2 =? 2) with true. cbv iota.
  unfold pushblock_complete.
  rewrite log_trace.
  unfold selector_call_on. cbn [pselector set_trace store_piece set_pdb].
  rewrite Hsel. cbn [mbind option_bind].
  unfold bt_peermanager_forall.
  match goal with
  | |- context [visit_peers _ ?rs ?w0] =>
      destruct (send_have_visit p1 send rs (NoDup_elements _) w0)
        as (d & Hv & Hds & Hd)
  end.
  { exact Hsend. }
  { apply peers_have_pc_spec in Hpcs. exact Hpcs. }
  rewrite Hv. cbn [mbind option_bind].
  eexists. split; [reflexivity|].
  split; [|split; [done|]].
  { cbn. unfold sc_have. cbn.
    destruct (Z.leb_spec (piece_idx b) (piece_idx b)); [|lia].
    destruct (Z.ltb_spec (piece_idx b) (piece_idx b + 1)); [done|lia]. }
  erewrite events_since_app by (cbn; rewrite <- !app_assoc; reflexivity).
  split.
  - rewrite !selector_calls_app, selector_calls_log, Hds. done.
  - intros q. rewrite !sends_to_app, sends_to_log, Hd. cbn.
    rewrite (write_block_idx _ _ _ _ _ _ Hw), Hidx.
    replace (bool_decide (q ∈ elements (pm w))) with (bool_decide (q ∈ pm w)).
    2:{ apply bool_decide_ext. by rewrite elem_of_elements. }
    done.
Qed.

End Pushblock.

(** ** Dispatching a PollBlock job *)

Section Poll.
Context `{Collaborators}.

Lemma offered_blocks_app q t1 t2 :
  offered_blocks q (t1 ++ t2) = offered_blocks q t1 ++ offered_blocks q t2.
Proof. apply omap_app. Qed.

Lemma first_missing_None bs :
  first_missing bs = None ->
  forallb (fun b => negb (bool_decide (b.1 = MISSING))) bs = true /\
  (forall k, missing_from k bs = []) /\
  map (fun b => if decide (b.1 = MISSING) then (REQUESTED, b.2) else b) bs = bs.
Proof.
  induction bs as [|b bs IH]; cbn; [done|].
  destruct (decide (b.1 = MISSING)) as [Hm|Hm]; [done|].
  destruct (first_missing bs); [done|]. intros _.
  destruct IH as (IH1 & IH2 & IH3); [done|].
  rewrite bool_decide_eq_false_2 by done. cbn. rewrite IH3. auto.
Qed.

Lemma first_missing_Some bs j :
  first_missing bs = Some j ->
  forallb (fun b => negb (bool_decide (b.1 = MISSING))) bs = false /\
  (forall k, missing_from k bs
             = (k + j)%nat :: missing_from k (alter (fun b => (REQUESTED, b.2)) j bs)) /\
  map (fun b => if decide (b.1 = MISSING) then (REQUESTED, b.2) else b)
      (alter (fun b => (REQUESTED, b.2)) j bs)
  = map (fun b => if decide (b.1 = MISSING) then (REQUESTED, b.2) else b) bs.
Proof.
  revert j. induction bs as [|b bs IH]; intros j; cbn; [done|].
  destruct (decide (b.1 = MISSING)) as [Hm|Hm].
  - intros [= <-]. rewrite bool_decide_eq_true_2 by done. cbn.
    split; [done|]. split.
    + intros k. by rewrite Nat.add_0_r.
    + done.
  - destruct (first_missing bs) as [j'|] eqn:Hf; [|done]. intros [= <-].
    destruct (IH j' eq_refl) as (IH1 & IH2 & IH3).
    rewrite bool_decide_eq_false_2 by done. cbn.
    split; [done|]. split.
    + intros k. rewrite decide_False by done. rewrite IH2. f_equal. lia.
    + rewrite decide_False by done. by rewrite IH3.
Qed.

Lemma send_all_trace (w : bt_dm_private_t) peer p send ms :
  peers w !! peer = Some p -> peer_send (cb w) = Some send ->
  send_all w peer ms
  = Some (set_trace (trace w ++ map (EvPeerSend peer (nethandle p)) ms) w).
Proof.
  revert w. induction ms as [|m ms IH]; intros w Hp Hs; cbn [send_all map].
  - rewrite app_nil_r. by destruct w.
  - unfold __FUNC_peerconn_send_to_peer. rewrite Hp. cbn [mbind option_bind].
    rewrite Hs. cbn [mbind option_bind fst]. rewrite IH by done.
    f_equal. cbn. by rewrite <- app_assoc.
Qed.

Lemma offered_blocks_sends q peer nh ms :
  offered_blocks q (map (EvPeerSend peer nh) ms) = [].
Proof. by induction ms. Qed.

(** The inner loop offers the missing blocks of the piece one by one and
    leaves the piece fully requested. *)
Lemma request_blocks_offers (n : nat) :
  forall (fuel : nat) (w : bt_dm_private_t) peer i db pce p c send,
  length (missing_from 0 (blocks pce)) = n ->
  (n < fuel)%nat ->
  pdb w = Some db -> db !! i = Some pce ->
  peers w !! peer = Some p -> pc p = Some c ->
  peer_send (cb w) = Some send ->
  exists w' d,
    request_blocks fuel w peer i = Some w' /\
    trace w' = trace w ++ d /\
    offered_blocks peer d = missing_blocks pce /\
    selector_calls d = [] /\
    pselector w' = pselector w /\
    pdb w' = Some (<[i := request_missing pce]> db).
Proof.
  induction n as [|n IH]; intros fuel w peer i db pce p c send Hn Hfuel Hdb Hpce Hp Hc Hs;
    (destruct fuel as [|fuel]; [lia|]); cbn [request_blocks];
    rewrite Hdb; cbn [mbind option_bind]; rewrite Hpce; cbn [mbind option_bind];
    unfold bt_piece_is_fully_requested, bt_piece_poll_block_request.
  - destruct (first_missing (blocks pce)) as [j|] eqn:Hf.
    { apply first_missing_Some in Hf as (_ & Hm & _). by rewrite Hm in Hn. }
    apply first_missing_None in Hf as (-> & Hm & Hmap).
    exists w, []. rewrite app_nil_r. repeat split; try done.
    + unfold missing_blocks. by rewrite Hm.
    + rewrite Hdb. f_equal. unfold request_missing. rewrite Hmap.
      symmetry. rewrite insert_id; [done|]. rewrite Hpce. by destruct pce.
  - destruct (first_missing (blocks pce)) as [j|] eqn:Hf.
    2:{ apply first_missing_None in Hf as (_ & Hm & _). by rewrite Hm in Hn. }
    apply first_missing_Some in Hf as (-> & Hm & Hmap).
    set (pce' := set_blocks (alter (fun b => (REQUESTED, b.2)) j (blocks pce)) pce).
    unfold offer_block, peer_pc.
    cbn [store_piece set_pdb peers]. rewrite Hp. cbn [mbind option_bind].
    rewrite Hc. cbn [mbind option_bind].
    destruct (pwp_conn_offer_block c (block_at pce j)) as [c' msgs] eqn:Hoff.
    set (p' := mk_peer (peer_id p) (ip p) (port p) (nethandle p) (Some c') (mh p)).
    erewrite (send_all_trace _ peer p' send); cycle 1.
    { cbn. rewrite lookup_alter_eq, Hp. done. }
    { done. }
    cbn [mbind option_bind].
    match goal with
    | |- context [request_blocks fuel ?w1 peer i] =>
        destruct (IH fuel w1 peer i (<[i := pce']> db) pce' p' c' send)
          as (w' & d & Hr & Ht & Ho & Hsc & Hsel & Hdb')
    end.
    + rewrite Hm in Hn. cbn in Hn. cbn. lia.
    + lia.
    + cbn. by rewrite Hdb.
    + by rewrite lookup_insert_eq.
    + cbn. rewrite lookup_alter_eq, Hp. done.
    + done.
    + done.
    + exists w'. eexists. split; [exact Hr|]. split.
      { rewrite Ht. cbn. rewrite <- !app_assoc. reflexivity. }
      split.
      { rewrite !offered_blocks_app, offered_blocks_sends, Ho. cbn.
        rewrite decide_True by done. unfold missing_blocks. rewrite Hm. cbn.
        done. }
      split.
      { rewrite !selector_calls_app, Hsc. cbn. rewrite app_nil_r.
        clear. by induction msgs. }
      split; [by rewrite Hsel|].
      rewrite Hdb'. rewrite insert_insert_eq. f_equal. f_equal.
      unfold request_missing, pce'. cbn. by rewrite Hmap.
Qed.


Lemma missing_from_length k bs : (length (missing_from k bs) <= length bs)%nat.
Proof.
  revert k. induction bs as [|b bs IH]; intros k; cbn; [lia|].
  destruct (decide (b.1 = MISSING)); cbn; specialize (IH (S k)); lia.
Qed.

Lemma request_missing_fully_requested p :
  bt_piece_is_fully_requested (request_missing p) = true.
Proof.
  unfold bt_piece_is_fully_requested, request_missing. cbn.
  induction (blocks p) as [|b bs IH]; cbn; [done|]. rewrite IH, andb_true_r.
  destruct (decide (b.1 = MISSING)) as [Hm|Hm]; cbn.
  - done.
  - by rewrite bool_decide_eq_false_2.
Qed.

(** C2, as amended.  Dispatching a PollBlock job for which the selector
    answers a piece that is in the database and not complete polls the
    selector once, offers the connection every MISSING block of the piece
    in the order of their offsets and leaves the piece fully requested;
    [max_pending_requests] plays no part.  The loop ends within the number
    of blocks of the piece. *)
Theorem pollblock_offers_every_missing_block (fuel : nat) (w : bt_dm_private_t)
    (peer : peer_ref) s s' i db pce p c send :
  pselector w = Some s ->
  ips_poll_piece s peer = (s', i) ->
  i <> -1 ->
  pdb w = Some db ->
  db !! i = Some pce ->
  bt_piece_is_complete pce = false ->
  peers w !! peer = Some p ->
  pc p = Some c ->
  peer_send (cb w) = Some send ->
  (length (blocks pce) + 1 < fuel)%nat ->
  exists w',
    __dispatch_job fuel w (BT_JOB_POLLBLOCK peer) = Some w' /\
    selector_calls (events_since w w') = [SelPollPiece peer i] /\
    offered_blocks peer (events_since w w') = missing_blocks pce /\
    piece_at w' i = Some (request_missing pce) /\
    bt_piece_is_fully_requested (request_missing pce) = true.
Proof.
  intros Hsel Hpoll Hi Hdb Hpce Hcomplete Hp Hc Hsend Hfuel.
  destruct fuel as [|fuel]; [lia|]. cbn [__dispatch_job poll_pieces].
  rewrite Hsel. cbn [mbind option_bind]. rewrite Hpoll.
  destruct (Z.eqb_spec i (-1)) as [|_]; [done|].
  unfold get_piece. cbn [pdb add_event set_trace set_pselector].
  rewrite Hdb. cbn [mbind option_bind]. rewrite Hpce, Hcomplete.
  match goal with
  | |- context [request_blocks fuel ?w1 peer i] =>
      destruct (request_blocks_offers (length (missing_from 0 (blocks pce)))
                  fuel w1 peer i db pce p c send)
        as (w' & d & Hr & Ht & Ho & Hsc & Hps & Hdb'); try done
  end.
  { pose proof (missing_from_length 0 (blocks pce)). lia. }
  exists w'. split; [exact Hr|].
  erewrite events_since_app by (rewrite Ht; cbn; rewrite <- app_assoc; reflexivity).
  rewrite selector_calls_app, offered_blocks_app, Hsc, Ho.
  split; [done|]. split; [done|]. split.
  - unfold piece_at. rewrite Hdb'. cbn. by rewrite lookup_insert_eq.
  - apply request_missing_fully_requested.
Qed.

(** An invalid piece with one contributor: the peer is banned and nothing
    else happens; in particular the piece keeps its blocks and the
    selector is not called. *)
Lemma pushblock_invalid_single (w : bt_dm_private_t) peer b data db p p1 :
  pdb w = Some db ->
  db !! piece_idx b = Some p ->
  bt_piece_write_block p b data peer = (p1, -1) ->
  bt_piece_num_peers p1 = 1 ->
  __FUNC_peerconn_pushblock w peer b data
  = Some (set_blacklist (bt_blacklist_add_peer (blacklist w) (piece_idx b) peer)
            (store_piece (piece_idx b) p1 w), 1).
Proof.
  intros Hdb Hp Hw Hn. unfold __FUNC_peerconn_pushblock.
  rewrite Hdb. cbn [mbind option_bind]. rewrite Hp. cbn [mbind option_bind].
  rewrite Hw. change (-1 =? 2) with false. change (-1 =? 0) with false.
  change (-1 =? -1) with true. cbv iota. unfold pushblock_invalid.
  rewrite Hn. done.
Qed.

End Poll.

(** ** The end of the handshake *)

Section Handshake.
Context `{Collaborators}.

(** C5.  For a peer whose PC_HANDSHAKE_RECEIVED is unset,
    [bt_dm_dispatch_from_buffer] gives the bytes to the handshaker; when
    that answers 1, the handshaker is released, [peer->mh] becomes a fresh
    message handler, the flag is set on the connection, and the bitfield of
    the sparse counter over [npieces] pieces is sent to that peer, in this
    order; the rest of the bytes then goes to the message handler.  (When
    the send fails the peer is also removed, which needs a selector.) *)
Theorem handshake_completion (w : bt_dm_private_t) (nh : Z) (buf : list Z)
    peer p c h h' rest n send :
  bt_peermanager_nethandle_to_peer w nh = Some peer ->
  peers w !! peer = Some p ->
  pc p = Some c ->
  mh p = Some (Handshaker h) ->
  pwp_conn_flag_is_set c PC_HANDSHAKE_RECEIVED = false ->
  pwp_handshaker_dispatch_from_buffer h buf = (1, h', rest) ->
  config_get_int w "npieces" = Some n ->
  peer_send (cb w) = Some send ->
  send (nethandle p) (MsgBitfield (sc_bitfield n (pieces_completed w))) <> 0
    \/ is_Some (pselector w) ->
  exists w1 tail,
    handle_handshake w peer buf = Some (w1, Some rest) /\
    bt_dm_dispatch_from_buffer w nh buf
      = (w' ← handle_messages w1 peer rest; Some (w', 1)) /\
    peers w1 !! peer
      = Some (mk_peer (peer_id p) (ip p) (port p) (nethandle p)
                (Some (pwp_conn_set_state c PC_HANDSHAKE_RECEIVED))
                (Some (MsgHandler pwp_msghandler_new))) /\
    peer_flag w1 peer PC_HANDSHAKE_RECEIVED = true /\
    events_since w w1
      = [EvHandshakerDispatch peer buf; EvHandshakerRelease peer; EvMsgHandlerNew peer]
        ++ log_events w "send,bitfield"
        ++ [EvPeerSend peer (nethandle p)
              (MsgBitfield (sc_bitfield n (pieces_completed w)))]
        ++ tail /\
    (send (nethandle p) (MsgBitfield (sc_bitfield n (pieces_completed w))) <> 0 ->
     tail = []).
Proof.
  intros Hnh Hp Hc Hmh Hflag Hhs Hn Hsend Hok.
  set (bits := MsgBitfield (sc_bitfield n (pieces_completed w))).
  set (p1 := mk_peer (peer_id p) (ip p) (port p) (nethandle p)
               (Some (pwp_conn_set_state c PC_HANDSHAKE_RECEIVED))
               (Some (MsgHandler pwp_msghandler_new))).
  assert (Hflag1 : pwp_conn_flag_is_set (pwp_conn_set_state c PC_HANDSHAKE_RECEIVED)
                     PC_HANDSHAKE_RECEIVED = true).
  { unfold pwp_conn_set_state, pwp_conn_flag_is_set.
    destruct (decide (PC_HANDSHAKE_RECEIVED ∈ flags c)).
    - by apply bool_decide_eq_true_2.
    - apply bool_decide_eq_true_2. cbn. apply elem_of_cons. auto. }
  assert (Hhh : exists w1 tail,
    handle_handshake w peer buf = Some (w1, Some rest) /\
    peers w1 = <[peer := p1]> (peers w) /\
    trace w1 = trace w ++
      [EvHandshakerDispatch peer buf; EvHandshakerRelease peer; EvMsgHandlerNew peer]
        ++ log_events w "send,bitfield" ++ [EvPeerSend peer (nethandle p) bits] ++ tail /\
    (send (nethandle p) bits <> 0 -> tail = [])).
  { unfold handle_handshake. rewrite Hp. dm_simpl.
    rewrite Hmh. dm_simpl. rewrite Hhs.
    change (1 =? 1) with true. cbv iota.
    unfold peer_pc. dm_simpl.
    rewrite lookup_alter_eq, Hp. dm_simpl. cbn [pc].
    rewrite Hc. dm_simpl.
    rewrite log_trace.
    unfold config_get_int, config_get in *. dm_simpl.
    rewrite Hn. dm_simpl.
    unfold pwp_send_bitfield, __FUNC_peerconn_send_to_peer. dm_simpl.
    rewrite !lookup_alter_eq, Hp. dm_simpl.
    rewrite Hsend. dm_simpl. cbn [nethandle].
    fold bits.
    assert (Hpeers : alter
              (fun p0 => mk_peer (peer_id p0) (ip p0) (port p0) (nethandle p0)
                           (Some (pwp_conn_set_state c PC_HANDSHAKE_RECEIVED)) (mh p0))
              peer
              (alter (fun p0 => mk_peer (peer_id p0) (ip p0) (port p0) (nethandle p0)
                                  (pc p0) (Some (MsgHandler pwp_msghandler_new)))
                 peer
                 (alter (fun p0 => mk_peer (peer_id p0) (ip p0) (port p0) (nethandle p0)
                                     (pc p0) (Some (Handshaker h')))
                    peer (peers w)))
            = <[peer := p1]> (peers w)).
    { apply map_eq. intros q. destruct (decide (q = peer)) as [->|Hne].
      - rewrite lookup_insert_eq, !lookup_alter_eq, Hp. done.
      - rewrite lookup_insert_ne, !lookup_alter_ne by done. done. }
    destruct (Z.eqb_spec (send (nethandle p) bits) 0) as [Hz|Hnz].
    - destruct Hok as [Hok|[s Hs]]; [done|].
      unfold bt_dm_remove_peer, bt_peermanager_remove_peer. dm_simpl.
      rewrite decide_True.
      2:{ unfold bt_peermanager_nethandle_to_peer in Hnh.
          apply find_some in Hnh as [Hin _].
          apply list_elem_of_In in Hin. by apply elem_of_elements in Hin. }
      change (1 =? 0) with false. cbv iota.
      unfold selector_call_on. dm_simpl.
      rewrite Hs. dm_simpl.
      eexists _, [EvSelector (SelRemovePeer peer)].
      split; [reflexivity|]. dm_simpl.
      split; [exact Hpeers|]. split; [|done].
      cbn. rewrite <- !app_assoc. cbn. reflexivity.
    - dm_simpl. eexists _, []. split; [reflexivity|]. dm_simpl.
      split; [exact Hpeers|]. split; [|done].
      cbn. rewrite <- !app_assoc. cbn. reflexivity. }
  destruct Hhh as (w1 & tail & Hh & Hpeers & Htrace & Htail).
  exists w1, tail. split; [exact Hh|]. split.
  { unfold bt_dm_dispatch_from_buffer. rewrite Hnh.
    unfold peer_pc at 1. rewrite Hp. cbn [mbind option_bind]. rewrite Hc.
    cbn [mbind option_bind]. rewrite Hflag. cbn [negb].
    rewrite Hh. cbn [mbind option_bind fst snd]. done. }
  split; [by rewrite Hpeers, lookup_insert_eq|]. split.
  { unfold peer_flag, peer_pc. rewrite Hpeers, lookup_insert_eq. exact Hflag1. }
  split; [|exact Htail].
  by apply events_since_app.
Qed.

End Handshake.

(** ** What the callbacks may change *)

Section FrameLemmas.
Context `{Collaborators}.

Lemma extends_refl allowed (w : bt_dm_private_t) : extends allowed w w.
Proof. exists []. by rewrite app_nil_r. Qed.

Lemma extends_same allowed (w w' : bt_dm_private_t) :
  trace w' = trace w -> extends allowed w w'.
Proof. intros Ht. exists []. by rewrite app_nil_r. Qed.

Lemma extends_trans allowed (w1 w2 w3 : bt_dm_private_t) :
  extends allowed w1 w2 -> extends allowed w2 w3 -> extends allowed w1 w3.
Proof.
  intros (d1 & Ht1 & Hd1) (d2 & Ht2 & Hd2). exists (d1 ++ d2). split.
  - by rewrite Ht2, Ht1, app_assoc.
  - by rewrite forallb_app, Hd1, Hd2.
Qed.

Lemma extends_events allowed (w w' : bt_dm_private_t) d :
  trace w' = trace w ++ d -> forallb allowed d = true -> extends allowed w w'.
Proof. intros. by exists d. Qed.

Lemma extends_mono (a1 a2 : event -> bool) (w w' : bt_dm_private_t) :
  (forall e, a1 e = true -> a2 e = true) -> extends a1 w w' -> extends a2 w w'.
Proof.
  intros Hsub (d & Ht & Hd). exists d. split; [done|].
  rewrite forallb_forall in *. auto.
Qed.

Lemma callback_frame_refl (w : bt_dm_private_t) : callback_frame w w.
Proof. repeat split. apply extends_refl. Qed.

Lemma callback_frame_trans (w1 w2 w3 : bt_dm_private_t) :
  callback_frame w1 w2 -> callback_frame w2 w3 -> callback_frame w1 w3.
Proof.
  intros (Hp1 & Hc1 & He1) (Hp2 & Hc2 & He2). split; [congruence|].
  split; [congruence|]. by eapply extends_trans.
Qed.

(** A state that differs in fields other than the peer objects, the
    callbacks and the trace, plus some callback events. *)
Lemma callback_frame_intro (w w' : bt_dm_private_t) d :
  peers w' = peers w -> cb w' = cb w -> trace w' = trace w ++ d ->
  forallb callback_event d = true -> callback_frame w w'.
Proof. intros. repeat split; try done. by exists d. Qed.

Lemma callback_frame_silent (w w' : bt_dm_private_t) :
  peers w' = peers w -> cb w' = cb w -> trace w' = trace w -> callback_frame w w'.
Proof. intros. repeat split; try done. by apply extends_same. Qed.

Lemma callback_frame_log (w : bt_dm_private_t) line : callback_frame w (__log w line).
Proof.
  rewrite log_trace. eapply callback_frame_intro; try done.
  unfold log_events. by destruct (log (cb w)).
Qed.

Lemma callback_frame_func_log (w : bt_dm_private_t) line :
  callback_frame w (__FUNC_log w line).
Proof.
  unfold __FUNC_log. destruct (log (cb w)); [|apply callback_frame_refl].
  by eapply callback_frame_intro.
Qed.

Lemma callback_frame_selector (w w' : bt_dm_private_t) f c :
  is_poll_piece c = false ->
  selector_call_on f c w = Some w' -> callback_frame w w'.
Proof.
  intros Hc. unfold selector_call_on. destruct (pselector w); [|done].
  intros [= <-]. eapply callback_frame_intro; try done. cbn. by rewrite Hc.
Qed.

Lemma callback_frame_send (w : bt_dm_private_t) peer m r :
  __FUNC_peerconn_send_to_peer w peer m = Some r -> callback_frame w r.1.
Proof.
  unfold __FUNC_peerconn_send_to_peer.
  destruct (peers w !! peer); [|done]. destruct (peer_send (cb w)); [|done].
  intros [= <-]. by eapply callback_frame_intro.
Qed.

Lemma callback_frame_send_have pce rs :
  forall w w' : bt_dm_private_t,
  visit_peers (__FUNC_peerconn_send_have pce) rs w = Some w' -> callback_frame w w'.
Proof.
  induction rs as [|r rs IH]; intros w w'; cbn [visit_peers].
  - intros [= <-]. apply callback_frame_refl.
  - destruct (__FUNC_peerconn_send_have pce w r) as [w1|] eqn:Hv; [|done].
    cbn [mbind option_bind]. intros Hrest.
    eapply callback_frame_trans; [|by apply IH]. clear Hrest IH.
    revert Hv. unfold __FUNC_peerconn_send_have, pwp_conn_send_have.
    destruct (peer_pc w r); [|done]. cbn [mbind option_bind].
    destruct (negb _); [intros [= <-]; apply callback_frame_refl|].
    destruct (__FUNC_peerconn_send_to_peer w r _) as [res|] eqn:Hs; [|done].
    intros [= <-]. by eapply callback_frame_send.
Qed.

Lemma callback_frame_remove_peer (w : bt_dm_private_t) peer r :
  bt_dm_remove_peer w peer = Some r -> callback_frame w r.1.
Proof.
  unfold bt_dm_remove_peer, bt_peermanager_remove_peer.
  destruct (decide (peer ∈ pm w)).
  - change (1 =? 0) with false. cbv iota.
    destruct (selector_call_on _ _ _) as [w2|] eqn:Hs; [|done].
    intros [= <-]. apply callback_frame_selector in Hs; [|done].
    destruct Hs as (Hp & Hc & He). repeat split; try done.
  - change (0 =? 0) with true. cbv iota. intros [= <-]. apply callback_frame_log.
Qed.

Lemma callback_frame_pushblock (w : bt_dm_private_t) peer b data r :
  __FUNC_peerconn_pushblock w peer b data = Some r -> callback_frame w r.1.
Proof.
  unfold __FUNC_peerconn_pushblock.
  destruct (pdb w) as [db|] eqn:Hdb; [|done]. cbn [mbind option_bind].
  destruct (db !! piece_idx b) as [p|]; [|done]. cbn [mbind option_bind].
  destruct (bt_piece_write_block p b data peer) as [p1 res].
  set (w1 := store_piece (piece_idx b) p1 w).
  assert (H1 : callback_frame w w1) by (by apply callback_frame_silent).
  match goal with
  | |- (?m ≫= _) = _ -> _ => destruct m as [w2|] eqn:Hm; [|done]
  end.
  intros [= <-]. cbn [fst]. eapply callback_frame_trans; [exact H1|]. clear H1.
  revert Hm. destruct (res =? 2).
  { unfold pushblock_complete.
    destruct (selector_call_on _ _ (__log w1 _)) as [w3|] eqn:Hs; [|done].
    cbn [mbind option_bind]. intros Hv.
    apply callback_frame_send_have in Hv.
    apply callback_frame_selector in Hs; [|done].
    eapply callback_frame_trans; [apply callback_frame_log|].
    eapply callback_frame_trans; [exact Hs|].
    eapply callback_frame_trans; [|exact Hv].
    by apply callback_frame_silent. }
  destruct (res =? 0).
  { intros [= <-]. by eapply callback_frame_intro. }
  destruct (res =? -1); [|intros [= <-]; apply callback_frame_refl].
  unfold pushblock_invalid. destruct (_ =? 1).
  { intros [= <-]. by apply callback_frame_silent. }
  intros Hs. apply callback_frame_selector in Hs; [|done].
  eapply callback_frame_trans; [|exact Hs].
  by apply callback_frame_silent.
Qed.

Lemma callback_frame_pollblock (w : bt_dm_private_t) peer r :
  __FUNC_peerconn_pollblock w peer = Some r -> callback_frame w r.1.
Proof.
  unfold __FUNC_peerconn_pollblock, host_call_exclusively.
  destruct (call_exclusively (cb w)); [|done]. cbn.
  intros [= <-]. by eapply callback_frame_intro.
Qed.

Lemma callback_frame_run_callback (w w' : bt_dm_private_t) peer c :
  run_callback w peer c = Some w' -> callback_frame w w'.
Proof.
  destruct c; cbn [run_callback].
  - unfold __FUNC_peerconn_log. destruct (peers w !! peer); [|done].
    cbn [mbind option_bind]. destruct (log_defined w _); [|done].
    intros [= <-]. apply callback_frame_func_log.
  - destruct (__FUNC_peerconn_send_to_peer w peer m) eqn:Hs; [|done].
    intros [= <-]. by eapply callback_frame_send.
  - destruct (__FUNC_peerconn_pushblock w peer b data) eqn:Hs; [|done].
    intros [= <-]. by eapply callback_frame_pushblock.
  - destruct (__FUNC_peerconn_pollblock w peer) eqn:Hs; [|done].
    intros [= <-]. by eapply callback_frame_pollblock.
  - unfold __FUNC_peerconn_disconnect. destruct (log_defined w _); [|done].
    destruct (bt_dm_remove_peer _ peer) as [r|] eqn:Hs; [|done].
    intros [= <-]. cbn [fst]. eapply callback_frame_trans; [apply callback_frame_log|].
    by eapply callback_frame_remove_peer.
  - unfold __FUNC_peerconn_peer_have_piece. by apply callback_frame_selector.
  - unfold __FUNC_peerconn_giveback_block. destruct (len b <? 0).
    { intros [= <-]. apply callback_frame_refl. }
    destruct (pdb w) as [db|]; [|done]. cbn [mbind option_bind].
    destruct (db !! piece_idx b) as [p|]; [|done]. cbn [mbind option_bind].
    intros Hs. apply callback_frame_selector in Hs; [|done].
    eapply callback_frame_trans; [|exact Hs].
    by apply callback_frame_silent.
  - unfold __FUNC_peerconn_write_block_to_stream, get_piece.
    destruct (pdb w) as [db|]; [|done]. cbn [mbind option_bind].
    destruct (db !! piece_idx b) as [p|].
    + destruct (_ =? 0); intros [= <-];
        [apply callback_frame_log|apply callback_frame_refl].
    + intros [= <-]. apply callback_frame_log.
Qed.

Lemma callback_frame_run_callbacks peer cs :
  forall w w' : bt_dm_private_t,
  run_callbacks w peer cs = Some w' -> callback_frame w w'.
Proof.
  induction cs as [|c cs IH]; intros w w'; cbn [run_callbacks].
  - intros [= <-]. apply callback_frame_refl.
  - destruct (run_callback w peer c) as [w1|] eqn:Hc; [|done].
    cbn [mbind option_bind]. intros Hrest.
    eapply callback_frame_trans; [by eapply callback_frame_run_callback|by apply IH].
Qed.

End FrameLemmas.

(** ** What dispatching a job may change *)

Section JobFrames.
Context `{Collaborators}.

Lemma job_frame_refl p (w : bt_dm_private_t) : job_frame p w w.
Proof. repeat split. apply extends_refl. Qed.

Lemma job_frame_trans p (w1 w2 w3 : bt_dm_private_t) :
  job_frame p w1 w2 -> job_frame p w2 w3 -> job_frame p w1 w3.
Proof.
  intros (Hj1 & Hc1 & Hp1 & He1) (Hj2 & Hc2 & Hp2 & He2).
  repeat split; try congruence. by eapply extends_trans.
Qed.

Lemma job_frame_intro p (w w' : bt_dm_private_t) d :
  jobs w' = jobs w -> cb w' = cb w -> pm w' = pm w -> trace w' = trace w ++ d ->
  forallb (job_event p) d = true -> job_frame p w w'.
Proof. intros. repeat split; try done. by exists d. Qed.

Lemma job_frame_send_all p peer ms :
  forall w w' : bt_dm_private_t, send_all w peer ms = Some w' -> job_frame p w w'.
Proof.
  induction ms as [|m ms IH]; intros w w'; cbn [send_all].
  - intros [= <-]. apply job_frame_refl.
  - unfold __FUNC_peerconn_send_to_peer.
    destruct (peers w !! peer); [|done]. destruct (peer_send (cb w)); [|done].
    cbn [mbind option_bind fst]. intros Hrest. apply IH in Hrest.
    eapply job_frame_trans; [|exact Hrest]. by eapply job_frame_intro.
Qed.

Lemma job_frame_offer_block p (w w' : bt_dm_private_t) peer blk :
  offer_block w peer blk = Some w' -> job_frame p w w'.
Proof.
  unfold offer_block. destruct (peer_pc w peer) as [c|]; [|done].
  cbn [mbind option_bind]. destruct (pwp_conn_offer_block c blk) as [c' msgs].
  intros Hs. apply (job_frame_send_all p) in Hs.
  eapply job_frame_trans; [|exact Hs]. by eapply job_frame_intro.
Qed.

Lemma job_frame_request_blocks p peer i fuel :
  forall w w' : bt_dm_private_t,
  request_blocks fuel w peer i = Some w' -> job_frame p w w'.
Proof.
  induction fuel as [|fuel IH]; intros w w'; cbn [request_blocks]; [done|].
  destruct (pdb w) as [db|]; [|done]. cbn [mbind option_bind].
  destruct (db !! i) as [pce|]; [|done]. cbn [mbind option_bind].
  destruct (bt_piece_is_fully_requested pce).
  { intros [= <-]. apply job_frame_refl. }
  destruct (bt_piece_poll_block_request pce) as [pce' blk].
  destruct (offer_block _ peer blk) as [w1|] eqn:Ho; [|done].
  cbn [mbind option_bind]. intros Hrest. apply IH in Hrest.
  apply (job_frame_offer_block p) in Ho.
  eapply job_frame_trans; [|exact Hrest].
  eapply job_frame_trans; [|exact Ho].
  by eapply (job_frame_intro _ _ _ []); [..|done]; rewrite ?app_nil_r.
Qed.

Lemma job_frame_poll_pieces peer fuel :
  forall w w' : bt_dm_private_t,
  poll_pieces fuel w peer = Some w' -> job_frame peer w w'.
Proof.
  induction fuel as [|fuel IH]; intros w w'; cbn [poll_pieces]; [done|].
  destruct (pselector w) as [s|]; [|done]. cbn [mbind option_bind].
  destruct (ips_poll_piece s peer) as [s' i].
  set (w1 := add_event _ _).
  assert (H1 : job_frame peer w w1).
  { eapply job_frame_intro; try done. cbn. by rewrite bool_decide_eq_true_2. }
  destruct (i =? -1); [by intros [= <-]|].
  unfold get_piece. destruct (pdb w1) as [db|]; [|done]. cbn [mbind option_bind].
  destruct (db !! i) as [pce|]; [|done].
  destruct (bt_piece_is_complete pce).
  - unfold selector_call_on. destruct (pselector w1) as [s1|]; [|done].
    cbn [mbind option_bind]. intros Hrest. apply IH in Hrest.
    eapply job_frame_trans; [exact H1|].
    eapply job_frame_trans; [|exact Hrest]. by eapply job_frame_intro.
  - intros Hr. apply (job_frame_request_blocks peer peer i fuel) in Hr.
    by eapply job_frame_trans.
Qed.

Lemma job_frame_dispatch fuel (w w' : bt_dm_private_t) j :
  __dispatch_job fuel w j = Some w' ->
  exists p, j = BT_JOB_POLLBLOCK p /\ job_frame p w w'.
Proof.
  destruct j as [|p]; cbn [__dispatch_job]; [done|].
  intros Hp. exists p. split; [done|]. by eapply job_frame_poll_pieces.
Qed.

(** *** What the classes of events exclude *)

Lemma polled_jobs_app t1 t2 : polled_jobs (t1 ++ t2) = polled_jobs t1 ++ polled_jobs t2.
Proof. apply omap_app. Qed.

Lemma pc_periodic_calls_app t1 t2 :
  pc_periodic_calls (t1 ++ t2) = pc_periodic_calls t1 ++ pc_periodic_calls t2.
Proof. apply omap_app. Qed.

Lemma selector_polls_app t1 t2 :
  selector_polls (t1 ++ t2) = selector_polls t1 ++ selector_polls t2.
Proof. unfold selector_polls. by rewrite selector_calls_app, filter_app. Qed.

Lemma job_events_quiet p d :
  forallb (job_event p) d = true ->
  polled_jobs d = [] /\ pc_periodic_calls d = [] /\
  forall t, polls_follow_job (Some p) (d ++ t) = polls_follow_job (Some p) t.
Proof.
  induction d as [|e d IH]; [done|]. cbn [forallb].
  intros [He Hd]%andb_prop. destruct (IH Hd) as (IH1 & IH2 & IH3).
  destruct e as [| | | | | c | | | | | |]; try done;
    try (split; [done|]; split; [done|]; intros t; cbn; by rewrite IH3).
  destruct c; try done. cbn in He. apply bool_decide_eq_true in He as ->.
  split; [done|]. split; [done|]. intros t. cbn.
  rewrite bool_decide_eq_true_2 by done. by rewrite IH3.
Qed.

Lemma step_events_quiet d :
  forallb step_event d = true ->
  polled_jobs d = [] /\ selector_polls d = [] /\
  forall cur, polls_follow_job cur d = true.
Proof.
  induction d as [|e d IH]; [done|]. cbn [forallb].
  intros [He Hd]%andb_prop. destruct (IH Hd) as (IH1 & IH2 & IH3).
  destruct e as [| | | | fn ? ? | c | | | | | |]; try done.
  - destruct fn; done.
  - destruct c; done.
Qed.

Lemma callback_events_quiet d :
  forallb callback_event d = true ->
  forallb step_event d = true /\ pc_periodic_calls d = [].
Proof.
  induction d as [|e d IH]; [done|]. cbn [forallb].
  intros [He Hd]%andb_prop. destruct (IH Hd) as (IH1 & IH2).
  destruct e; try done; cbn in *; by rewrite ?He, ?IH1.
Qed.

Lemma polls_follow_job_weaken t :
  polls_follow_job None t = true -> forall cur, polls_follow_job cur t = true.
Proof.
  induction t as [|e t IH]; [done|]. intros Ht cur.
  destruct e as [| | | | fn ? j | c | | | | | |]; cbn in *; auto.
  - destruct fn; auto.
  - destruct c; auto. by rewrite bool_decide_eq_false_2 in Ht.
Qed.

(** The drain of the job queue. *)
Lemma process_jobs_drains fuel :
  forall w w' : bt_dm_private_t,
  process_jobs fuel w = Some w' ->
  jobs w' = [] /\ cb w' = cb w /\ pm w' = pm w /\
  exists d,
    trace w' = trace w ++ d /\
    polled_jobs d = Some <$> jobs w /\
    pc_periodic_calls d = [] /\
    polls_follow_job None d = true.
Proof.
  induction fuel as [|fuel IH]; intros w w'; cbn [process_jobs]; [done|].
  unfold llqueue_count. destruct (jobs w) as [|j js] eqn:Hjobs.
  { cbn. intros [= <-]. repeat split; try done. exists []. by rewrite app_nil_r. }
  replace (0 <? Z.of_nat (length (j :: js))) with true
    by (symmetry; apply Z.ltb_lt; cbn [length]; lia).
  unfold host_call_exclusively. destruct (call_exclusively (cb w)); [|done].
  cbn [excl_run]. unfold __poll_job. rewrite Hjobs. dm_simpl.
  destruct (__dispatch_job fuel _ j) as [w1|] eqn:Hd; [|done]. dm_simpl.
  intros Hrest. apply IH in Hrest as (Hj & Hc & Hp & d' & Ht & Hpolled & Hper & Hfollow).
  apply job_frame_dispatch in Hd as (p & -> & Hj1 & Hc1 & Hp1 & dj & Htj & Hdj).
  dm_simpl in Hj1. dm_simpl in Hc1. dm_simpl in Hp1. dm_simpl in Htj.
  apply job_events_quiet in Hdj as (Hq1 & Hq2 & Hq3).
  split; [done|]. split; [congruence|]. split; [congruence|].
  exists ([EvCallExclusively POLL_JOB None (Some (BT_JOB_POLLBLOCK p))] ++ dj ++ d').
  split; [by rewrite Ht, Htj, <- !app_assoc|].
  rewrite !polled_jobs_app, !pc_periodic_calls_app, Hq1, Hq2, Hpolled, Hper, Hj1.
  split; [done|]. split; [done|]. cbn. rewrite Hq3.
  by apply polls_follow_job_weaken.
Qed.

End JobFrames.

(** ** Fuel only bounds the loops: more of it gives the same result *)

Section Fuel.
Context `{Collaborators}.

Lemma request_blocks_fuel_mono peer i fuel :
  forall (fuel' : nat) (w w' : bt_dm_private_t),
  (fuel <= fuel')%nat ->
  request_blocks fuel w peer i = Some w' -> request_blocks fuel' w peer i = Some w'.
Proof.
  induction fuel as [|fuel IH]; intros fuel' w w' Hle; [done|].
  destruct fuel' as [|fuel']; [lia|]. cbn [request_blocks].
  destruct (pdb w) as [db|]; [|done]. cbn [mbind option_bind].
  destruct (db !! i) as [pce|]; [|done]. cbn [mbind option_bind].
  destruct (bt_piece_is_fully_requested pce); [done|].
  destruct (bt_piece_poll_block_request pce) as [pce' blk].
  destruct (offer_block _ peer blk) as [w1|]; [|done]. cbn [mbind option_bind].
  apply IH. lia.
Qed.

Lemma poll_pieces_fuel_mono peer fuel :
  forall (fuel' : nat) (w w' : bt_dm_private_t),
  (fuel <= fuel')%nat ->
  poll_pieces fuel w peer = Some w' -> poll_pieces fuel' w peer = Some w'.
Proof.
  induction fuel as [|fuel IH]; intros fuel' w w' Hle; [done|].
  destruct fuel' as [|fuel']; [lia|]. cbn [poll_pieces].
  destruct (pselector w) as [s|]; [|done]. cbn [mbind option_bind].
  destruct (ips_poll_piece s peer) as [s' i].
  destruct (i =? -1); [done|].
  destruct (get_piece _ i) as [[pce|]|]; try done. cbn [mbind option_bind].
  destruct (bt_piece_is_complete pce).
  - destruct (selector_call_on _ _ _) as [w2|]; [|done]. cbn [mbind option_bind].
    apply IH. lia.
  - apply request_blocks_fuel_mono. lia.
Qed.

Lemma process_jobs_fuel_mono fuel :
  forall (fuel' : nat) (w w' : bt_dm_private_t),
  (fuel <= fuel')%nat ->
  process_jobs fuel w = Some w' -> process_jobs fuel' w = Some w'.
Proof.
  induction fuel as [|fuel IH]; intros fuel' w w' Hle; [done|].
  destruct fuel' as [|fuel']; [lia|]. cbn [process_jobs].
  destruct (0 <? llqueue_count (jobs w)); [|done].
  destruct (host_call_exclusively POLL_JOB None w) as [r|]; [|done].
  cbn [mbind option_bind]. destruct r.2 as [j|]; [|done]. cbn [mbind option_bind].
  destruct (__dispatch_job fuel r.1 j) as [w1|] eqn:Hd; [|done].
  cbn [mbind option_bind]. intros Hrest.
  assert (Hd' : __dispatch_job fuel' r.1 j = Some w1).
  { destruct j; [done|]. cbn [__dispatch_job] in *.
    eapply poll_pieces_fuel_mono; [|exact Hd]. lia. }
  rewrite Hd'. cbn [mbind option_bind]. eapply IH; [|exact Hrest]. lia.
Qed.

Lemma bt_dm_periodic_fuel_mono (fuel fuel' : nat) (w : bt_dm_private_t) stats r :
  (fuel <= fuel')%nat ->
  bt_dm_periodic fuel w stats = Some r -> bt_dm_periodic fuel' w stats = Some r.
Proof.
  intros Hle. unfold bt_dm_periodic.
  destruct (shutting_down w) as [[]|]; try done. cbn [mbind option_bind].
  destruct (process_jobs fuel w) as [w1|] eqn:Hj; [|done].
  by rewrite (process_jobs_fuel_mono fuel fuel' w w1 Hle Hj).
Qed.

(** With an empty queue the drain needs one unit of fuel and does
    nothing. *)
Lemma process_jobs_empty (fuel : nat) (w : bt_dm_private_t) :
  jobs w = [] -> process_jobs (S fuel) w = Some w.
Proof. intros Hj. cbn [process_jobs]. by rewrite Hj. Qed.

End Fuel.

(** ** The tick returns

    Under what the drain needs, every loop of [bt_dm_periodic] ends and
    the tick returns. *)

Section Returns.
Context `{Collaborators}.

Lemma keeps_pc_refl (w : bt_dm_private_t) : keeps_pc w w.
Proof. by intros q. Qed.

Lemma keeps_pc_trans (w1 w2 w3 : bt_dm_private_t) :
  keeps_pc w1 w2 -> keeps_pc w2 w3 -> keeps_pc w1 w3.
Proof. intros H1 H2 q Hq. by apply H2, H1. Qed.

Lemma keeps_pc_same (w w' : bt_dm_private_t) : peers w' = peers w -> keeps_pc w w'.
Proof. intros Hp q. unfold peer_pc. by rewrite Hp. Qed.

Lemma keeps_pc_set_pc (w w' : bt_dm_private_t) r c :
  peers w' = peers (set_peer_pc r c w) -> keeps_pc w w'.
Proof.
  intros Hp q. unfold peer_pc. rewrite Hp. cbn [peers set_peer_pc set_peers].
  destruct (decide (q = r)) as [->|Hne].
  - rewrite lookup_alter_eq. destruct (peers w !! r); [|by intros [? ?]].
    intros _. by eexists.
  - by rewrite lookup_alter_ne.
Qed.

Lemma send_all_peers peer ms :
  forall w w' : bt_dm_private_t,
  send_all w peer ms = Some w' ->
  peers w' = peers w /\ pselector w' = pselector w /\ pdb w' = pdb w.
Proof.
  induction ms as [|m ms IH]; intros w w'; cbn [send_all].
  - by intros [= <-].
  - unfold __FUNC_peerconn_send_to_peer.
    destruct (peers w !! peer); [|done]. destruct (peer_send (cb w)); [|done].
    cbn [mbind option_bind fst]. intros Hrest. by apply IH in Hrest.
Qed.

Lemma request_blocks_keeps_pc peer i fuel :
  forall w w' : bt_dm_private_t,
  request_blocks fuel w peer i = Some w' -> keeps_pc w w'.
Proof.
  induction fuel as [|fuel IH]; intros w w'; cbn [request_blocks]; [done|].
  destruct (pdb w) as [db|]; [|done]. cbn [mbind option_bind].
  destruct (db !! i) as [pce|]; [|done]. cbn [mbind option_bind].
  destruct (bt_piece_is_fully_requested pce).
  { intros [= <-]. apply keeps_pc_refl. }
  destruct (bt_piece_poll_block_request pce) as [pce' blk].
  destruct (offer_block _ peer blk) as [w1|] eqn:Ho; [|done].
  cbn [mbind option_bind]. intros Hrest. apply IH in Hrest.
  eapply keeps_pc_trans; [|exact Hrest].
  revert Ho. unfold offer_block.
  destruct (peer_pc _ peer) as [c|]; [|done]. cbn [mbind option_bind].
  destruct (pwp_conn_offer_block c blk) as [c' msgs].
  intros Hs. apply send_all_peers in Hs as (Hp & _).
  by apply (keeps_pc_set_pc w w1 peer c').
Qed.

Lemma request_missing_complete pce :
  bt_piece_is_complete (request_missing pce) = bt_piece_is_complete pce.
Proof.
  assert (Hrecv : forall bs : list (block_state * list Z),
            forallb (fun b => bool_decide (b.1 = RECEIVED))
              (map (fun b => if decide (b.1 = MISSING) then (REQUESTED, b.2) else b) bs)
            = forallb (fun b => bool_decide (b.1 = RECEIVED)) bs).
  { induction bs as [|b bs IH]; [done|]. cbn [map forallb]. rewrite IH. f_equal.
    destruct (decide (b.1 = MISSING)) as [Hm|Hm]; [|done]. cbn [fst]. by rewrite Hm. }
  assert (Hdata : forall bs : list (block_state * list Z),
            map snd (map (fun b => if decide (b.1 = MISSING) then (REQUESTED, b.2) else b) bs)
            = map snd bs).
  { induction bs as [|b bs IH]; [done|]. cbn [map]. rewrite IH. f_equal.
    by destruct (decide (b.1 = MISSING)). }
  unfold bt_piece_is_complete, all_received, bt_piece_is_valid, piece_bytes,
    request_missing, set_blocks.
  cbn [blocks sha1sum]. by rewrite Hrecv, Hdata.
Qed.

Lemma drain_ready_same good db (w w' : bt_dm_private_t) :
  cb w' = cb w -> pselector w' = pselector w -> pdb w' = pdb w ->
  drain_ready good db w -> drain_ready good db w'.
Proof. unfold drain_ready. by intros -> -> ->. Qed.

(** One PollBlock job returns, and leaves what the drain needs. *)
Lemma poll_pieces_returns good db (w : bt_dm_private_t) p :
  selector_offers good db ->
  drain_ready good db w ->
  is_Some (peer_pc w p) ->
  exists fuel w',
    poll_pieces fuel w p = Some w' /\
    drain_ready good db w' /\ keeps_pc w w' /\ jobs w' = jobs w /\ pm w' = pm w.
Proof.
  intros Hoff (Hex & [send Hsend] & (s & Hs & Hgood) & (db' & Hdb & Hcov)) [c Hc].
  destruct (Hoff s p Hgood) as [Hgood' Hans].
  destruct (ips_poll_piece s p) as [s' i] eqn:Hpoll. cbn [fst snd] in *.
  set (w1 := add_event (EvSelector (SelPollPiece p i)) (set_pselector (Some s') w)).
  assert (Hr1 : drain_ready good db w1).
  { split; [done|]. split; [by exists send|]. split; [by exists s'|by exists db']. }
  destruct (Z.eqb_spec i (-1)) as [Hi|Hi].
  { exists 1%nat, w1. cbn [poll_pieces]. rewrite Hs. cbn [mbind option_bind].
    rewrite Hpoll. fold w1. rewrite (proj2 (Z.eqb_eq _ _) Hi).
    split; [done|]. split; [done|]. split; [by apply keeps_pc_same|done]. }
  destruct Hans as [Hans|Hinc]; [done|].
  destruct (Hcov i Hinc) as (pce & Hpce & Hcomplete).
  apply peer_pc_Some in Hc as (pp & Hpp & Hpc).
  destruct (request_blocks_offers (length (missing_from 0 (blocks pce)))
              (S (length (missing_from 0 (blocks pce)))) w1 p i db' pce pp c send)
    as (w' & d & Hrun & _ & _ & _ & Hsel' & Hdb'); try done; [lia|].
  exists (S (S (length (missing_from 0 (blocks pce))))), w'.
  split.
  { cbn [poll_pieces]. rewrite Hs. cbn [mbind option_bind]. rewrite Hpoll. fold w1.
    rewrite (proj2 (Z.eqb_neq _ _) Hi). unfold get_piece.
    replace (pdb w1) with (Some db') by done. cbn [mbind option_bind].
    rewrite Hpce, Hcomplete. exact Hrun. }
  pose proof (job_frame_request_blocks p p i _ _ _ Hrun) as (Hj & Hcb & Hpm & _).
  pose proof (request_blocks_keeps_pc p i _ _ _ Hrun) as Hk.
  split.
  { split; [by rewrite Hcb|]. split; [rewrite Hcb; by exists send|].
    split; [exists s'; by rewrite Hsel'|].
    eexists. split; [exact Hdb'|]. intros j Hj'.
    destruct (decide (j = i)) as [->|Hne].
    - exists (request_missing pce). rewrite lookup_insert_eq.
      split; [done|]. by rewrite request_missing_complete.
    - destruct (Hcov j Hj') as (pj & Hpj & Hcj). exists pj.
      by rewrite lookup_insert_ne. }
  split; [|done].
  eapply keeps_pc_trans; [|exact Hk]. by apply keeps_pc_same.
Qed.

(** The drain returns: each job in turn is taken and dispatched. *)
Lemma process_jobs_returns good db :
  selector_offers good db ->
  forall (js : list bt_job_t) (w : bt_dm_private_t),
  jobs w = js ->
  drain_ready good db w ->
  Forall (job_ready w) js ->
  exists fuel w',
    process_jobs fuel w = Some w' /\
    keeps_pc w w' /\ cb w' = cb w /\ pm w' = pm w.
Proof.
  intros Hoff js. induction js as [|j js IH]; intros w Hjobs Hready Hall.
  { exists 1%nat, w. split; [by apply process_jobs_empty|].
    split; [apply keeps_pc_refl|done]. }
  apply Forall_cons in Hall as [(p & -> & Hp) Hall].
  set (w0 := add_event (EvCallExclusively POLL_JOB None (Some (BT_JOB_POLLBLOCK p)))
               (set_jobs js w)).
  assert (Hr0 : drain_ready good db w0) by (by apply (drain_ready_same good db w)).
  destruct (poll_pieces_returns good db w0 p Hoff Hr0 Hp)
    as (f1 & w1 & Hrun1 & Hr1 & Hk1 & Hj1 & Hpm1).
  destruct (IH w1) as (f2 & w2 & Hrun2 & Hk2 & Hcb2 & Hpm2); [done|done| |].
  { eapply Forall_impl; [exact Hall|]. intros j (q & -> & Hq).
    exists q. split; [done|]. by apply Hk1. }
  exists (S (max f1 f2)), w2. split.
  - cbn [process_jobs]. rewrite Hjobs. unfold llqueue_count.
    replace (0 <? Z.of_nat (length (BT_JOB_POLLBLOCK p :: js))) with true
      by (symmetry; apply Z.ltb_lt; cbn [length]; lia).
    unfold host_call_exclusively. destruct Hready as (-> & _).
    cbn [excl_run]. unfold __poll_job. rewrite Hjobs.
    cbn [mbind option_bind fst snd __dispatch_job]. fold w0.
    rewrite (poll_pieces_fuel_mono p f1 (max f1 f2) w0 w1) by (done || lia).
    cbn [mbind option_bind].
    apply (process_jobs_fuel_mono f2); [lia|done].
  - pose proof (job_frame_poll_pieces p _ _ _ Hrun1) as (_ & Hcb1 & _).
    split; [|split; [by rewrite Hcb2, Hcb1|by rewrite Hpm2, Hpm1]].
    eapply keeps_pc_trans; [|exact Hk2].
    eapply keeps_pc_trans; [|exact Hk1]. by apply keeps_pc_same.
Qed.

(** The callbacks of a connection that asks for blocks or sends return. *)
Lemma run_callbacks_returns q cbs :
  Forall periodic_callback cbs ->
  forall w : bt_dm_private_t,
  call_exclusively (cb w) = true -> is_Some (peer_send (cb w)) ->
  is_Some (peers w !! q) ->
  exists w',
    run_callbacks w q cbs = Some w' /\
    peers w' = peers w /\ cb w' = cb w /\ pm w' = pm w.
Proof.
  induction 1 as [|c cbs Hc _ IH]; intros w Hex Hsend Hq; cbn [run_callbacks].
  { by exists w. }
  assert (Hone : exists w1, run_callback w q c = Some w1 /\
                   peers w1 = peers w /\ cb w1 = cb w /\ pm w1 = pm w).
  { destruct Hc as [->|[m ->]]; cbn [run_callback].
    - unfold __FUNC_peerconn_pollblock, host_call_exclusively. rewrite Hex.
      cbn. by eexists.
    - unfold __FUNC_peerconn_send_to_peer.
      destruct Hq as [pp ->]. destruct Hsend as [send ->]. cbn. by eexists. }
  destruct Hone as (w1 & -> & Hp1 & Hcb1 & Hpm1). cbn [mbind option_bind].
  destruct (IH w1) as (w' & Hrun & Hp & Hcb & Hpm);
    [by rewrite Hcb1|by rewrite Hcb1|by rewrite Hp1|].
  exists w'. split; [done|]. split; [congruence|]. split; congruence.
Qed.

(** The per-peer step returns for a peer that has its connection. *)
Lemma peer_periodic_returns (w : bt_dm_private_t) q :
  (forall c, Forall periodic_callback (pwp_conn_periodic c).2) ->
  call_exclusively (cb w) = true -> is_Some (peer_send (cb w)) ->
  is_Some (peer_pc w q) ->
  exists w',
    __FUNC_peer_periodic w q = Some w' /\
    keeps_pc w w' /\ cb w' = cb w /\ pm w' = pm w.
Proof.
  intros Hcbs Hex Hsend [c Hc]. unfold __FUNC_peer_periodic. rewrite Hc.
  cbn [mbind option_bind].
  destruct (pwp_conn_flag_is_set c PC_FAILED_CONNECTION).
  { exists w. split; [done|]. split; [apply keeps_pc_refl|done]. }
  destruct (negb _).
  { exists w. split; [done|]. split; [apply keeps_pc_refl|done]. }
  specialize (Hcbs c). destruct (pwp_conn_periodic c) as [c' cbs]. cbn [snd] in Hcbs.
  set (w0 := add_event (EvPcPeriodic q) (set_peer_pc q c' w)).
  destruct (run_callbacks_returns q cbs Hcbs w0) as (w' & Hrun & Hp & Hcb & Hpm);
    [done|done| |].
  { apply peer_pc_Some in Hc as (pp & Hpp & _).
    subst w0. cbn [peers add_event set_trace set_peer_pc set_peers].
    rewrite lookup_alter_eq, Hpp. by eexists. }
  exists w'. split; [done|]. split; [|done].
  by apply (keeps_pc_set_pc w w' q c').
Qed.

(** The visit of the peers returns when each has its connection. *)
Lemma visit_periodic_returns (rs : list peer_ref) :
  (forall c, Forall periodic_callback (pwp_conn_periodic c).2) ->
  forall w : bt_dm_private_t,
  call_exclusively (cb w) = true -> is_Some (peer_send (cb w)) ->
  Forall (fun q => is_Some (peer_pc w q)) rs ->
  exists w',
    visit_peers __FUNC_peer_periodic rs w = Some w' /\
    keeps_pc w w' /\ cb w' = cb w /\ pm w' = pm w.
Proof.
  intros Hcbs. induction rs as [|r rs IH]; intros w Hex Hsend Hall; cbn [visit_peers].
  { exists w. split; [done|]. split; [apply keeps_pc_refl|done]. }
  apply Forall_cons in Hall as [Hr Hall].
  destruct (peer_periodic_returns w r Hcbs Hex Hsend Hr) as (w1 & -> & Hk1 & Hcb1 & Hpm1).
  cbn [mbind option_bind].
  destruct (IH w1) as (w' & Hrun & Hk & Hcb & Hpm);
    [by rewrite Hcb1|by rewrite Hcb1| |].
  { eapply Forall_impl; [exact Hall|]. intros q Hq. by apply Hk1. }
  exists w'. split; [done|]. split; [by eapply keeps_pc_trans|]. split; congruence.
Qed.

(** The statistics are collected when each peer has its connection. *)
Lemma collect_stats_returns (w : bt_dm_private_t) stats :
  Forall (fun q => is_Some (peer_pc w q)) (elements (pm w)) ->
  is_Some (collect_stats w stats).
Proof.
  intros Hall. destruct stats as [s|]; cbn [collect_stats]; [|by eexists].
  match goal with
  | |- is_Some (Some <$> visit_peers _ _ ?s2) => generalize s2
  end.
  induction Hall as [|r rs [c Hc] _ IH]; intros s2; cbn [visit_peers].
  - by eexists.
  - assert (Hv : is_Some (__FUNC_peer_stats_visitor w s2 r)).
    { unfold __FUNC_peer_stats_visitor. rewrite Hc. by eexists. }
    destruct Hv as [s3 ->]. cbn [mbind option_bind]. apply IH.
Qed.

(** A tick that does not shut down returns, given enough fuel. *)
Lemma bt_dm_periodic_returns good db (w : bt_dm_private_t) stats :
  shutting_down w = Some false ->
  selector_offers good db ->
  drain_ready good db w ->
  Forall (job_ready w) (jobs w) ->
  peers_have_pc w = true ->
  (forall c, Forall periodic_callback (pwp_conn_periodic c).2) ->
  exists fuel0, forall fuel, (fuel0 <= fuel)%nat ->
    is_Some (bt_dm_periodic fuel w stats).
Proof.
  intros Hno Hoff Hready Hjobs Hpc Hcbs.
  destruct (process_jobs_returns good db Hoff (jobs w) w eq_refl Hready Hjobs)
    as (f1 & w1 & Hrun1 & Hk1 & Hcb1 & Hpm1).
  destruct Hready as (Hex & Hsend & _).
  apply peers_have_pc_spec in Hpc.
  destruct (visit_periodic_returns (elements (pm w1)) Hcbs w1)
    as (w2 & Hrun2 & Hk2 & Hcb2 & Hpm2); [by rewrite Hcb1|by rewrite Hcb1| |].
  { rewrite Hpm1. eapply Forall_impl; [exact Hpc|]. intros q Hq. by apply Hk1. }
  destruct (collect_stats_returns w2 stats) as [st Hst].
  { rewrite Hpm2, Hpm1. eapply Forall_impl; [exact Hpc|].
    intros q Hq. by apply Hk2, Hk1. }
  exists f1. intros fuel Hfuel. unfold bt_dm_periodic. rewrite Hno.
  cbn [mbind option_bind].
  rewrite (process_jobs_fuel_mono f1 fuel w w1) by done.
  cbn [mbind option_bind]. unfold bt_peermanager_forall. rewrite Hrun2.
  cbn [mbind option_bind]. rewrite Hst. by eexists.
Qed.

End Returns.

(** ** The periodic step *)

Section Periodic.
Context `{Collaborators}.

Lemma should_step_ext (w w' : bt_dm_private_t) q :
  peers w' !! q = peers w !! q -> should_step w' q = should_step w q.
Proof. intros Hq. unfold should_step, peer_flag, peer_pc. by rewrite Hq. Qed.

Lemma filter_should_step_ext (w w' : bt_dm_private_t) (rs : list peer_ref) :
  (forall q, q ∈ rs -> peers w' !! q = peers w !! q) ->
  filter (fun q => should_step w' q = true) rs
  = filter (fun q => should_step w q = true) rs.
Proof.
  induction rs as [|r rs IH]; intros Hrs; [done|].
  rewrite !filter_cons, (should_step_ext w w' r) by (apply Hrs, elem_of_cons; auto).
  rewrite IH; [done|]. intros q Hq. apply Hrs, elem_of_cons. auto.
Qed.

(** One visit of the per-peer step. *)
Lemma peer_periodic_step (w w' : bt_dm_private_t) r :
  __FUNC_peer_periodic w r = Some w' ->
  (forall q, q <> r -> peers w' !! q = peers w !! q) /\
  exists d,
    trace w' = trace w ++ d /\
    forallb step_event d = true /\
    pc_periodic_calls d = if should_step w r then [r] else [].
Proof.
  unfold __FUNC_peer_periodic, should_step, peer_flag.
  destruct (peer_pc w r) as [c|]; [|done]. cbn [mbind option_bind].
  destruct (pwp_conn_flag_is_set c PC_FAILED_CONNECTION).
  { intros [= <-]. split; [done|]. exists []. by rewrite app_nil_r. }
  destruct (pwp_conn_flag_is_set c PC_HANDSHAKE_RECEIVED); cbn [negb andb].
  2:{ intros [= <-]. split; [done|]. exists []. by rewrite app_nil_r. }
  destruct (pwp_conn_periodic c) as [c' cbs].
  intros Hr. apply callback_frame_run_callbacks in Hr as (Hp & _ & d & Ht & Hd).
  dm_simpl in Hp. dm_simpl in Ht.
  apply callback_events_quiet in Hd as [Hd1 Hd2]. split.
  - intros q Hq. rewrite Hp. by rewrite lookup_alter_ne.
  - exists (EvPcPeriodic r :: d). split; [by rewrite Ht, <- app_assoc|].
    split; [done|]. change (pc_periodic_calls (EvPcPeriodic r :: d))
      with (r :: pc_periodic_calls d). by rewrite Hd2.
Qed.

(** The per-peer step over distinct peers: the connections that run their
    periodic step are those the guard lets through. *)
Lemma peer_periodic_visit (rs : list peer_ref) :
  NoDup rs ->
  forall w w' : bt_dm_private_t,
  visit_peers __FUNC_peer_periodic rs w = Some w' ->
  (forall q, q ∉ rs -> peers w' !! q = peers w !! q) /\
  exists d,
    trace w' = trace w ++ d /\
    forallb step_event d = true /\
    pc_periodic_calls d = filter (fun q => should_step w q = true) rs.
Proof.
  induction 1 as [|r rs Hr Hnd IH]; intros w w'; cbn [visit_peers].
  - intros [= <-]. split; [done|]. exists []. by rewrite app_nil_r.
  - destruct (__FUNC_peer_periodic w r) as [w1|] eqn:Hv; [|done].
    cbn [mbind option_bind]. intros Hrest.
    apply peer_periodic_step in Hv as (Hp1 & d1 & Ht1 & Hd1 & Hc1).
    apply IH in Hrest as (Hp2 & d2 & Ht2 & Hd2 & Hc2). split.
    + intros q Hq. rewrite Hp2, Hp1; [done|..].
      * intros ->. apply Hq, elem_of_cons. auto.
      * intros Hin. apply Hq, elem_of_cons. auto.
    + exists (d1 ++ d2). split; [by rewrite Ht2, Ht1, app_assoc|].
      split; [by rewrite forallb_app, Hd1, Hd2|].
      rewrite pc_periodic_calls_app, Hc1, Hc2, filter_cons.
      rewrite (filter_should_step_ext w w1).
      2:{ intros q Hq. apply Hp1. by intros ->. }
      destruct (should_step w r); by rewrite ?decide_True, ?decide_False by done.
Qed.

(** A tick of a download manager that is seeding and configured to shut
    down when complete changes nothing. *)
Lemma periodic_shutdown (fuel : nat) (w : bt_dm_private_t) stats :
  shutting_down w = Some true ->
  bt_dm_periodic fuel w stats = (fun s => (w, s)) <$> collect_stats w stats.
Proof.
  intros Hstop. unfold bt_dm_periodic. rewrite Hstop. cbn [mbind option_bind].
  by destruct (collect_stats w stats).
Qed.

(** A tick that does not shut down: the queue is drained first, each job
    taken under the host's exclusivity; then the peers are visited. *)
Lemma periodic_trace (fuel : nat) (w w' : bt_dm_private_t) stats st' :
  shutting_down w = Some false ->
  bt_dm_periodic fuel w stats = Some (w', st') ->
  exists w1 d1 d2,
    process_jobs fuel w = Some w1 /\ jobs w1 = [] /\ pm w1 = pm w /\
    trace w1 = trace w ++ d1 /\
    polled_jobs d1 = Some <$> jobs w /\
    pc_periodic_calls d1 = [] /\
    polls_follow_job None d1 = true /\
    bt_peermanager_forall __FUNC_peer_periodic w1 = Some w' /\
    trace w' = trace w1 ++ d2 /\
    polled_jobs d2 = [] /\
    selector_polls d2 = [] /\
    (forall cur, polls_follow_job cur d2 = true) /\
    pc_periodic_calls d2 = filter (fun q => should_step w1 q = true) (elements (pm w1)) /\
    collect_stats w' stats = Some st'.
Proof.
  intros Hno. unfold bt_dm_periodic. rewrite Hno. cbn [mbind option_bind].
  destruct (process_jobs fuel w) as [w1|] eqn:Hj; [|done]. cbn [mbind option_bind].
  destruct (bt_peermanager_forall __FUNC_peer_periodic w1) as [w2|] eqn:Hv; [|done].
  cbn [mbind option_bind].
  destruct (collect_stats w2 stats) as [s|] eqn:Hs; [|done]. cbn [mbind option_bind].
  intros [= <- <-].
  apply process_jobs_drains in Hj as Hj'.
  destruct Hj' as (Hjobs & _ & Hpm & d1 & Ht1 & Hq1 & Hc1 & Hf1).
  pose proof Hv as Hv'. unfold bt_peermanager_forall in Hv'.
  apply peer_periodic_visit in Hv' as (_ & d2 & Ht2 & Hd2 & Hc2);
    [|apply NoDup_elements].
  apply step_events_quiet in Hd2 as (Hq2 & Hs2 & Hf2).
  exists w1, d1, d2. repeat split; done.
Qed.

Lemma polls_follow_job_app d1 d2 cur :
  polls_follow_job cur d1 = true ->
  (forall c, polls_follow_job c d2 = true) ->
  polls_follow_job cur (d1 ++ d2) = true.
Proof.
  intros Hf1 Hf2. revert cur Hf1.
  induction d1 as [|e d1 IH]; intros cur Hf1; [apply Hf2|].
  destruct e as [| | | | fn ? j | c | | | | | |]; cbn in *; auto.
  - destruct fn; auto. destruct j as [[]|]; auto.
  - destruct c; auto. apply andb_prop in Hf1 as [-> Hf1]. cbn. auto.
Qed.

(** C4, as amended.  A tick of a download manager that is seeding with
    [shutdown_when_complete] 1 leaves the state as it is and only collects
    the statistics.  Any other tick that returns has drained the queue
    first, taking each job that was queued with the host's
    [call_exclusively], and run no connection's periodic step meanwhile;
    it has then visited the peers and run the periodic step of exactly
    those whose connection has not failed and whose handshake was
    received; the statistics are collected from the final state.  And
    such a tick does return, with the queue drained, once the fuel
    suffices: when the host's [call_exclusively] and [peer_send] are
    installed, every queued job is a PollBlock for a peer with a
    connection, the selector only hands out pieces of the database that
    are not complete, every peer of the peer manager has its connection,
    and the periodic step of a connection only asks for blocks or
    sends. *)
Theorem periodic_tick (fuel : nat) (w : bt_dm_private_t)
    (stats : option bt_dm_stats_t) :
  (am_seeding w = 1 ->
   config_get_int w "shutdown_when_complete" = Some 1 ->
   bt_dm_periodic fuel w stats = (fun s => (w, s)) <$> collect_stats w stats) /\
  (shutting_down w = Some false ->
   forall w' st',
   bt_dm_periodic fuel w stats = Some (w', st') ->
   exists w1,
     process_jobs fuel w = Some w1 /\
     jobs w1 = [] /\
     polled_jobs (events_since w w1) = Some <$> jobs w /\
     pc_periodic_calls (events_since w w1) = [] /\
     bt_peermanager_forall __FUNC_peer_periodic w1 = Some w' /\
     polled_jobs (events_since w1 w') = [] /\
     pc_periodic_calls (events_since w1 w')
       = filter (fun q => should_step w1 q = true) (elements (pm w1)) /\
     collect_stats w' stats = Some st') /\
  (forall (good : selector -> Prop) s db send,
     shutting_down w = Some false ->
     call_exclusively (cb w) = true ->
     peer_send (cb w) = Some send ->
     pselector w = Some s -> good s ->
     pdb w = Some db ->
     selector_offers good db ->
     Forall (job_ready w) (jobs w) ->
     peers_have_pc w = true ->
     (forall c, Forall periodic_callback (pwp_conn_periodic c).2) ->
     exists fuel0, forall fuel', (fuel0 <= fuel')%nat ->
       exists w1 w' st',
         bt_dm_periodic fuel' w stats = Some (w', st') /\
         process_jobs fuel' w = Some w1 /\
         jobs w1 = [] /\
         polled_jobs (events_since w w1) = Some <$> jobs w).
Proof.
  split; [|split].
  - intros Hseed Hsd. apply periodic_shutdown. unfold shutting_down.
    by rewrite Hseed, Hsd.
  - intros Hno w' st' Hrun.
    destruct (periodic_trace fuel w w' stats st' Hno Hrun)
      as (w1 & d1 & d2 & Hj & Hjobs & _ & Ht1 & Hq1 & Hc1 & _ & Hv & Ht2 & Hq2 & _ & _ & Hc2 & Hst).
    exists w1. rewrite (events_since_app w w1 d1), (events_since_app w1 w' d2) by done.
    repeat split; done.
  - intros good s db send Hno Hex Hsend Hs Hgood Hdb Hoff Hjobs Hpc Hcbs.
    destruct (bt_dm_periodic_returns good db w stats Hno Hoff) as [fuel0 Hret];
      [|done|done|done|].
    { split; [done|]. split; [by exists send|]. split; [by exists s|by exists db]. }
    exists fuel0. intros fuel' Hfuel. destruct (Hret fuel' Hfuel) as [[w' st'] Hrun].
    destruct (periodic_trace fuel' w w' stats st' Hno Hrun)
      as (w1 & d1 & _ & Hj & Hjobs1 & _ & Ht1 & Hq1 & _).
    exists w1, w', st'. rewrite (events_since_app w w1 d1) by done.
    repeat split; done.
Qed.

(** C7.  The pollblock callback only queues a [BT_JOB_POLLBLOCK] for the
    peer through [call_exclusively] with [__offer_job]: the selector and
    every other field stay as they were.  No callback of a peer connection
    makes the selector's [poll_piece] run.  In a tick, every [poll_piece]
    is made for the peer of the job taken last from the queue through
    [call_exclusively] with [__poll_job]; the jobs taken are the jobs that
    were queued, and the per-peer step that follows polls nothing. *)
Theorem pollblock_deferred_to_drain :
  (forall (w : bt_dm_private_t) (peer : peer_ref),
     call_exclusively (cb w) = true ->
     __FUNC_peerconn_pollblock w peer
     = Some (set_jobs (jobs w ++ [BT_JOB_POLLBLOCK peer])
               (add_event (EvCallExclusively OFFER_JOB
                             (Some (BT_JOB_POLLBLOCK peer)) None) w), 0)) /\
  (forall (w w' : bt_dm_private_t) (peer : peer_ref) (cbs : list pc_callback),
     run_callbacks w peer cbs = Some w' ->
     selector_polls (events_since w w') = []) /\
  (forall (fuel : nat) (w w' : bt_dm_private_t) stats st',
     bt_dm_periodic fuel w stats = Some (w', st') ->
     polls_follow_job None (events_since w w') = true /\
     (shutting_down w = Some true \/
      exists w1,
        process_jobs fuel w = Some w1 /\
        polled_jobs (events_since w w1) = Some <$> jobs w /\
        selector_polls (events_since w1 w') = [])).
Proof.
  split; [|split].
  - intros w peer Hex. unfold __FUNC_peerconn_pollblock, host_call_exclusively.
    rewrite Hex. done.
  - intros w w' peer cbs Hr.
    apply callback_frame_run_callbacks in Hr as (_ & _ & d & Ht & Hd).
    rewrite (events_since_app w w' d) by done.
    apply callback_events_quiet in Hd as [Hd _].
    by apply step_events_quiet in Hd as (_ & Hd & _).
  - intros fuel w w' stats st' Hrun.
    destruct (shutting_down w) as [[]|] eqn:Hstop.
    + rewrite periodic_shutdown in Hrun by done.
      destruct (collect_stats w stats); [|done]. injection Hrun as <- <-.
      split; [|by left]. unfold events_since. by rewrite drop_all.
    + destruct (periodic_trace fuel w w' stats st' Hstop Hrun)
        as (w1 & d1 & d2 & Hj & _ & _ & Ht1 & Hq1 & _ & Hf1 & _ & Ht2 & _ & Hs2 & Hf2 & _).
      split.
      * rewrite (events_since_app w w' (d1 ++ d2)) by (by rewrite Ht2, Ht1, app_assoc).
        by apply polls_follow_job_app.
      * right. exists w1. split; [done|].
        rewrite (events_since_app w w1 d1), (events_since_app w1 w' d2) by done.
        done.
    + unfold bt_dm_periodic in Hrun. by rewrite Hstop in Hrun.
Qed.

End Periodic.

(** * Further properties *)

(** ** The percent-encoding: buffers, alphabet and hex digits *)

Lemma land_15_range code : 0 <= Z.land code 15 < 16.
Proof.
  change 15 with (Z.ones 4). rewrite Z.land_ones by lia.
  apply Z.mod_pos_bound. lia.
Qed.

Lemma to_hex_cases code :
  exists k, (k < 16)%nat /\ Z.land code 15 = Z.of_nat k /\
            Url.to_hex code = nth k Url.hex 0.
Proof.
  pose proof (land_15_range code) as Hr.
  exists (Z.to_nat (Z.land code 15)). split; [lia|]. split; [lia|]. reflexivity.
Qed.

Lemma to_hex_alnum code : Url.isalnum (Url.to_hex code) = true.
Proof.
  destruct (to_hex_cases code) as (k & Hk & _ & ->).
  do 16 (destruct k as [|k]; [reflexivity|]). lia.
Qed.

Lemma url_decode_length_aux n :
  forall s, (length s <= n)%nat -> (length (Url.url_decode s) <= length s)%nat.
Proof.
  induction n as [|n IH]; intros s Hs.
  - destruct s; [cbn; lia|cbn in Hs; lia].
  - destruct s as [|c s]; [cbn; lia|].
    cbn [Url.url_decode]. cbn [length] in Hs.
    destruct (c =? 37).
    + destruct s as [|p1 [|p2 rest]].
      * cbn. lia.
      * specialize (IH [p1] ltac:(cbn [length] in *; lia)). cbn [length] in *. lia.
      * cbn [length] in *.
        specialize (IH rest ltac:(lia)). lia.
    + specialize (IH s ltac:(lia)).
      destruct (c =? 43); cbn [length]; lia.
Qed.

(** X1.  The results fit the buffers the functions allocate:
    [url_encode] writes at most three bytes for each byte of its input
    ([malloc(strlen(str) * 3 + 1)]) and [url_decode] at most one
    ([malloc(strlen(str) + 1)]). *)
Theorem url_buffers_suffice (s : list Z) :
  (length (Url.url_encode s) <= 3 * length s)%nat /\
  (length (Url.url_decode s) <= length s)%nat.
Proof.
  split.
  - induction s as [|c s IH]; [cbn; lia|].
    cbn [Url.url_encode]. destruct (Url.isalnum c); cbn [length]; lia.
  - by apply (url_decode_length_aux (length s)).
Qed.

Lemma hex_entry_upper code :
  Url.is_upper_hex (nth (Z.to_nat (Z.land code 15)) Url.hex 0) = true.
Proof.
  destruct (to_hex_cases code) as (k & Hk & -> & _). rewrite Nat2Z.id.
  do 16 (destruct k as [|k]; [reflexivity|]). lia.
Qed.

Lemma to_hex_to_char x :
  Url.to_hex (Url.to_char x) = nth (Z.to_nat (Z.land x 15)) Url.hex 0.
Proof.
  unfold Url.to_hex. do 2 f_equal. change 15 with (Z.ones 4).
  rewrite !Z.land_ones by lia. unfold Url.to_char.
  change (2 ^ 4) with 16. Z.div_mod_to_equations. lia.
Qed.

Lemma url_encode_byte_any c t :
  Url.url_encode (c :: t) = Url.encode_byte c ++ Url.url_encode t.
Proof.
  cbn [Url.url_encode]. unfold Url.encode_byte.
  destruct (Url.isalnum c); [done|]. rewrite !to_hex_to_char. cbn [app].
  do 3 f_equal. by rewrite <- Z.land_assoc.
Qed.

(** X2.  Whatever the input, [url_encode] copies an alphanumeric byte and
    writes every other byte as ['%'] followed by the two characters that
    the table ["0123456789ABCDEF"] has for its high and its low four bits,
    each a digit or a letter from ['A'] to ['F']; so the output holds only
    alphanumeric characters and ['%'], and no NUL is written before the
    terminating one. *)
Theorem url_encode_alphabet (s : list Z) :
  Url.url_encode s = concat (map Url.encode_byte s) /\
  Forall (fun c => Url.encoded_as c (Url.encode_byte c) = true) s /\
  Forall (fun c => (Url.isalnum c = true \/ c = 37) /\ c <> 0) (Url.url_encode s).
Proof.
  split; [|split].
  - induction s as [|c s IH]; [done|].
    rewrite url_encode_byte_any. cbn [map concat]. by rewrite IH.
  - apply Forall_forall. intros c _. unfold Url.encode_byte, Url.encoded_as.
    destruct (Url.isalnum c); [by rewrite Z.eqb_refl|].
    by rewrite !hex_entry_upper.
  - assert (Hnz : forall c, Url.isalnum c = true -> c <> 0).
    { intros c Hc ->. discriminate Hc. }
    induction s as [|c s IH]; [constructor|].
    cbn [Url.url_encode]. destruct (Url.isalnum c) eqn:Hc.
    + constructor; [auto|exact IH].
    + constructor; [split; [by right|lia]|].
      constructor; [pose proof (to_hex_alnum (Url.to_char (Z.shiftr c 4))); auto|].
      constructor; [pose proof (to_hex_alnum (Url.to_char (Z.land c 15))); auto|].
      exact IH.
Qed.

(** X3.  [from_hex] undoes [to_hex]: for every [code] the digit that
    [to_hex] picks from the table reads back as the low four bits of
    [code]. *)
Theorem from_hex_to_hex (code : Z) :
  Url.from_hex (Url.to_hex code) = Z.land code 15.
Proof.
  destruct (to_hex_cases code) as (k & Hk & -> & ->).
  do 16 (destruct k as [|k]; [reflexivity|]). lia.
Qed.

Lemma tolower_idem ch : Url.tolower (Url.tolower ch) = Url.tolower ch.
Proof.
  unfold Url.tolower. destruct (Url.isupper ch) eqn:Hu; [|by rewrite Hu].
  unfold Url.isupper in *.
  apply andb_true_iff in Hu as [H1 H2].
  apply Z.leb_le in H1, H2.
  replace (65 <=? ch + 32) with true by (symmetry; apply Z.leb_le; lia).
  replace (ch + 32 <=? 90) with false by (symmetry; apply Z.leb_gt; lia).
  reflexivity.
Qed.

Lemma from_hex_tolower ch : Url.from_hex (Url.tolower ch) = Url.from_hex ch.
Proof.
  unfold Url.from_hex.
  destruct (Url.isdigit ch) eqn:Hd.
  - assert (Hl : Url.tolower ch = ch).
    { unfold Url.tolower, Url.isupper, Url.isdigit in *.
      apply andb_true_iff in Hd as [H1 H2]. apply Z.leb_le in H1, H2.
      replace (65 <=? ch) with false by (symmetry; apply Z.leb_gt; lia).
      reflexivity. }
    by rewrite Hl, Hd.
  - assert (Hl : Url.isdigit (Url.tolower ch) = false).
    { unfold Url.tolower. destruct (Url.isupper ch) eqn:Hu; [|exact Hd].
      unfold Url.isupper, Url.isdigit in *.
      apply andb_true_iff in Hu as [H1 H2]. apply Z.leb_le in H1, H2.
      replace (ch + 32 <=? 57) with false by (symmetry; apply Z.leb_gt; lia).
      by rewrite andb_false_r. }
    by rewrite Hl, tolower_idem.
Qed.

(** X4.  [url_decode] reads the two hex digits of an escape without
    regard to case: [from_hex] lowers its argument, so ["%e9"] and ["%E9"]
    decode alike. *)
Theorem url_decode_hex_case (h l : Z) (t : list Z) :
  Url.url_decode (37 :: Url.tolower h :: Url.tolower l :: t)
  = Url.url_decode (37 :: h :: l :: t).
Proof.
  cbn [Url.url_decode]. change (37 =? 37) with true. cbv iota.
  by rewrite !from_hex_tolower.
Qed.

(** X5.  On a string without ['%'] the decoder copies every byte except
    ['+'], which it turns into a space; so a literal ['+'] never survives
    decoding. *)
Theorem url_decode_plain (s : list Z) :
  Forall (fun c => c <> 37) s ->
  Url.url_decode s = map (fun c => if c =? 43 then 32 else c) s /\
  43 ∉ Url.url_decode s.
Proof.
  intros Hs.
  assert (E : Url.url_decode s = map (fun c => if c =? 43 then 32 else c) s).
  { induction Hs as [|c s Hc Hs IH]; [reflexivity|].
    cbn [Url.url_decode map].
    destruct (Z.eqb_spec c 37) as [->|_]; [done|].
    rewrite IH. by destruct (c =? 43). }
  split; [exact E|].
  rewrite E. intros Hin. apply list_elem_of_fmap in Hin as (c & Hc & _).
  destruct (Z.eqb_spec c 43); lia.
Qed.

Lemma url_decode_url_encode s :
  Forall Url.is_char s -> Url.url_decode (Url.url_encode s) = s.
Proof.
  induction 1 as [|c s Hc Hs IH]; [reflexivity|].
  rewrite url_encode_cons, url_decode_encoded_byte by exact Hc.
  by rewrite IH.
Qed.

(** X6.  [url_encode] loses nothing: two strings of [char]s with the same
    encoding are the same string. *)
Theorem url_encode_injective (s t : list Z) :
  Url.c_string s -> Url.c_string t ->
  Url.url_encode s = Url.url_encode t -> s = t.
Proof.
  intros Hs Ht E.
  assert (Hs' : Forall Url.is_char s) by (eapply Forall_impl; [exact Hs|]; by intros ? []).
  assert (Ht' : Forall Url.is_char t) by (eapply Forall_impl; [exact Ht|]; by intros ? []).
  rewrite <- (url_decode_url_encode s Hs'), <- (url_decode_url_encode t Ht').
  by rewrite E.
Qed.

(** ** What inbound bytes and ticks leave alone *)

Section KeptLemmas.
Context `{Collaborators}.

Lemma peer_kept_refl p : peer_kept p p.
Proof. by repeat split. Qed.

Lemma peer_kept_trans p1 p2 p3 : peer_kept p1 p2 -> peer_kept p2 p3 -> peer_kept p1 p3.
Proof.
  intros (?&?&?&?&?) (?&?&?&?&?). repeat split; try congruence. auto.
Qed.

Lemma peers_kept_refl (w : bt_dm_private_t) : peers_kept w w.
Proof. intros r. destruct (peers w !! r); [apply peer_kept_refl|done]. Qed.

Lemma peers_kept_same (w w' : bt_dm_private_t) : peers w' = peers w -> peers_kept w w'.
Proof. intros E r. rewrite E. destruct (peers w !! r); [apply peer_kept_refl|done]. Qed.

Lemma peers_kept_trans (w1 w2 w3 : bt_dm_private_t) :
  peers_kept w1 w2 -> peers_kept w2 w3 -> peers_kept w1 w3.
Proof.
  intros H1 H2 r. specialize (H1 r). specialize (H2 r).
  destruct (peers w1 !! r), (peers w2 !! r), (peers w3 !! r); try done.
  by eapply peer_kept_trans.
Qed.

Lemma peers_kept_alter (w w' : bt_dm_private_t) f r :
  (forall p, peer_kept p (f p)) ->
  peers w' = alter f r (peers w) -> peers_kept w w'.
Proof.
  intros Hf E q. rewrite E. destruct (decide (q = r)) as [->|Hne].
  - rewrite lookup_alter_eq. destruct (peers w !! r); cbn; [apply Hf|done].
  - rewrite lookup_alter_ne by done. destruct (peers w !! q); [apply peer_kept_refl|done].
Qed.

Lemma peers_kept_set_pc (w : bt_dm_private_t) r c : peers_kept w (set_peer_pc r c w).
Proof.
  eapply peers_kept_alter; [|reflexivity]. intros p. by repeat split.
Qed.

Lemma peers_kept_set_mh (w : bt_dm_private_t) r m : peers_kept w (set_peer_mh r m w).
Proof.
  eapply peers_kept_alter; [|reflexivity]. intros p. by repeat split.
Qed.

Lemma dm_frame_refl (w : bt_dm_private_t) : dm_frame w w.
Proof. repeat split; try done. apply peers_kept_refl. Qed.

Lemma dm_frame_trans (w1 w2 w3 : bt_dm_private_t) :
  dm_frame w1 w2 -> dm_frame w2 w3 -> dm_frame w1 w3.
Proof.
  intros (?&?&?&?&?&?&?&?) (?&?&?&?&?&?&?&?).
  repeat split; try congruence; [set_solver|by eapply peers_kept_trans].
Qed.

(** A state that differs in none of the kept fields. *)
Lemma dm_frame_fields (w w' : bt_dm_private_t) :
  cfg w' = cfg w -> am_seeding w' = am_seeding w -> ticker w' = ticker w ->
  lchoke w' = lchoke w -> cb w' = cb w -> next_peer w' = next_peer w ->
  pm w' ⊆ pm w -> peers_kept w w' -> dm_frame w w'.
Proof. intros. by repeat split. Qed.

Lemma dm_frame_set_pc (w : bt_dm_private_t) r c : dm_frame w (set_peer_pc r c w).
Proof. apply dm_frame_fields; try done. apply peers_kept_set_pc. Qed.

Lemma dm_frame_set_mh (w : bt_dm_private_t) r m : dm_frame w (set_peer_mh r m w).
Proof. apply dm_frame_fields; try done. apply peers_kept_set_mh. Qed.

Lemma dm_frame_add_event (w : bt_dm_private_t) e : dm_frame w (add_event e w).
Proof. apply dm_frame_fields; try done. by apply peers_kept_same. Qed.

Lemma dm_frame_store_piece (w : bt_dm_private_t) i p : dm_frame w (store_piece i p w).
Proof. apply dm_frame_fields; try done. by apply peers_kept_same. Qed.

Lemma dm_frame_log (w : bt_dm_private_t) line : dm_frame w (__log w line).
Proof.
  rewrite log_trace. apply dm_frame_fields; try done. by apply peers_kept_same.
Qed.

Lemma dm_frame_func_log (w : bt_dm_private_t) line : dm_frame w (__FUNC_log w line).
Proof.
  unfold __FUNC_log. destruct (log (cb w)); [apply dm_frame_add_event|apply dm_frame_refl].
Qed.

Lemma dm_frame_selector (w w' : bt_dm_private_t) f c :
  selector_call_on f c w = Some w' -> dm_frame w w'.
Proof.
  unfold selector_call_on. destruct (pselector w); [|done].
  intros [= <-]. apply dm_frame_fields; try done. by apply peers_kept_same.
Qed.

Lemma dm_frame_send (w : bt_dm_private_t) peer m r :
  __FUNC_peerconn_send_to_peer w peer m = Some r -> dm_frame w r.1.
Proof.
  unfold __FUNC_peerconn_send_to_peer.
  destruct (peers w !! peer); [|done]. destruct (peer_send (cb w)); [|done].
  intros [= <-]. apply dm_frame_add_event.
Qed.

Lemma dm_frame_send_have pce rs :
  forall w w' : bt_dm_private_t,
  visit_peers (__FUNC_peerconn_send_have pce) rs w = Some w' -> dm_frame w w'.
Proof.
  induction rs as [|r rs IH]; intros w w'; cbn [visit_peers].
  - intros [= <-]. apply dm_frame_refl.
  - destruct (__FUNC_peerconn_send_have pce w r) as [w1|] eqn:Hv; [|done].
    cbn [mbind option_bind]. intros Hrest.
    eapply dm_frame_trans; [|by apply IH]. clear Hrest IH.
    revert Hv. unfold __FUNC_peerconn_send_have, pwp_conn_send_have.
    destruct (peer_pc w r); [|done]. cbn [mbind option_bind].
    destruct (negb _); [intros [= <-]; apply dm_frame_refl|].
    destruct (__FUNC_peerconn_send_to_peer w r _) as [res|] eqn:Hs; [|done].
    intros [= <-]. by eapply dm_frame_send.
Qed.

Lemma dm_frame_remove_peer (w : bt_dm_private_t) peer r :
  bt_dm_remove_peer w peer = Some r -> dm_frame w r.1.
Proof.
  unfold bt_dm_remove_peer, bt_peermanager_remove_peer.
  destruct (decide (peer ∈ pm w)).
  - change (1 =? 0) with false. cbv iota.
    destruct (selector_call_on _ _ _) as [w2|] eqn:Hs; [|done].
    intros [= <-]. apply dm_frame_selector in Hs.
    eapply dm_frame_trans; [|exact Hs].
    apply dm_frame_fields; try done; [|by apply peers_kept_same].
    cbn. by apply subseteq_difference_l.
  - change (0 =? 0) with true. cbv iota. intros [= <-]. apply dm_frame_log.
Qed.

Lemma dm_frame_pushblock (w : bt_dm_private_t) peer b data r :
  __FUNC_peerconn_pushblock w peer b data = Some r -> dm_frame w r.1.
Proof.
  unfold __FUNC_peerconn_pushblock.
  destruct (pdb w) as [db|] eqn:Hdb; [|done]. cbn [mbind option_bind].
  destruct (db !! piece_idx b) as [p|]; [|done]. cbn [mbind option_bind].
  destruct (bt_piece_write_block p b data peer) as [p1 res].
  set (w1 := store_piece (piece_idx b) p1 w).
  assert (H1 : dm_frame w w1) by apply dm_frame_store_piece.
  match goal with
  | |- (?m ≫= _) = _ -> _ => destruct m as [w2|] eqn:Hm; [|done]
  end.
  intros [= <-]. cbn [fst]. eapply dm_frame_trans; [exact H1|]. clear H1.
  revert Hm. destruct (res =? 2).
  { unfold pushblock_complete.
    destruct (selector_call_on _ _ (__log w1 _)) as [w3|] eqn:Hs; [|done].
    cbn [mbind option_bind]. intros Hv.
    apply dm_frame_send_have in Hv.
    apply dm_frame_selector in Hs.
    eapply dm_frame_trans; [apply dm_frame_log|].
    eapply dm_frame_trans; [exact Hs|].
    eapply dm_frame_trans; [|exact Hv].
    apply dm_frame_fields; try done. by apply peers_kept_same. }
  destruct (res =? 0).
  { intros [= <-]. apply dm_frame_add_event. }
  destruct (res =? -1); [|intros [= <-]; apply dm_frame_refl].
  unfold pushblock_invalid. destruct (_ =? 1).
  { intros [= <-]. apply dm_frame_fields; try done. by apply peers_kept_same. }
  intros Hs. apply dm_frame_selector in Hs.
  eapply dm_frame_trans; [|exact Hs].
  apply dm_frame_fields; try done. by apply peers_kept_same.
Qed.

Lemma dm_frame_pollblock (w : bt_dm_private_t) peer r :
  __FUNC_peerconn_pollblock w peer = Some r -> dm_frame w r.1.
Proof.
  unfold __FUNC_peerconn_pollblock, host_call_exclusively.
  destruct (call_exclusively (cb w)); [|done]. cbn.
  intros [= <-]. apply dm_frame_fields; try done. by apply peers_kept_same.
Qed.

Lemma dm_frame_run_callback (w w' : bt_dm_private_t) peer c :
  run_callback w peer c = Some w' -> dm_frame w w'.
Proof.
  destruct c; cbn [run_callback].
  - unfold __FUNC_peerconn_log. destruct (peers w !! peer); [|done].
    cbn [mbind option_bind]. destruct (log_defined w _); [|done].
    intros [= <-]. apply dm_frame_func_log.
  - destruct (__FUNC_peerconn_send_to_peer w peer m) eqn:Hs; [|done].
    intros [= <-]. by eapply dm_frame_send.
  - destruct (__FUNC_peerconn_pushblock w peer b data) eqn:Hs; [|done].
    intros [= <-]. by eapply dm_frame_pushblock.
  - destruct (__FUNC_peerconn_pollblock w peer) eqn:Hs; [|done].
    intros [= <-]. by eapply dm_frame_pollblock.
  - unfold __FUNC_peerconn_disconnect. destruct (log_defined w _); [|done].
    destruct (bt_dm_remove_peer _ peer) as [r|] eqn:Hs; [|done].
    intros [= <-]. cbn [fst]. eapply dm_frame_trans; [apply dm_frame_log|].
    by eapply dm_frame_remove_peer.
  - unfold __FUNC_peerconn_peer_have_piece. by apply dm_frame_selector.
  - unfold __FUNC_peerconn_giveback_block. destruct (len b <? 0).
    { intros [= <-]. apply dm_frame_refl. }
    destruct (pdb w) as [db|]; [|done]. cbn [mbind option_bind].
    destruct (db !! piece_idx b) as [p|]; [|done]. cbn [mbind option_bind].
    intros Hs. apply dm_frame_selector in Hs.
    eapply dm_frame_trans; [|exact Hs]. apply dm_frame_store_piece.
  - unfold __FUNC_peerconn_write_block_to_stream, get_piece.
    destruct (pdb w) as [db|]; [|done]. cbn [mbind option_bind].
    destruct (db !! piece_idx b) as [p|].
    + destruct (_ =? 0); intros [= <-];
        [apply dm_frame_log|apply dm_frame_refl].
    + intros [= <-]. apply dm_frame_log.
Qed.

Lemma dm_frame_run_callbacks peer cs :
  forall w w' : bt_dm_private_t,
  run_callbacks w peer cs = Some w' -> dm_frame w w'.
Proof.
  induction cs as [|c cs IH]; intros w w'; cbn [run_callbacks].
  - intros [= <-]. apply dm_frame_refl.
  - destruct (run_callback w peer c) as [w1|] eqn:Hc; [|done].
    cbn [mbind option_bind]. intros Hrest.
    eapply dm_frame_trans; [by eapply dm_frame_run_callback|by apply IH].
Qed.

Lemma dm_frame_send_all peer ms :
  forall w w' : bt_dm_private_t, send_all w peer ms = Some w' -> dm_frame w w'.
Proof.
  induction ms as [|m ms IH]; intros w w'; cbn [send_all].
  - intros [= <-]. apply dm_frame_refl.
  - destruct (__FUNC_peerconn_send_to_peer w peer m) as [r|] eqn:Hs; [|done].
    cbn [mbind option_bind]. intros Hrest. apply IH in Hrest.
    eapply dm_frame_trans; [|exact Hrest]. by eapply dm_frame_send.
Qed.

Lemma dm_frame_offer_block (w w' : bt_dm_private_t) peer blk :
  offer_block w peer blk = Some w' -> dm_frame w w'.
Proof.
  unfold offer_block. destruct (peer_pc w peer) as [c|]; [|done].
  cbn [mbind option_bind]. destruct (pwp_conn_offer_block c blk) as [c' msgs].
  intros Hs. apply dm_frame_send_all in Hs.
  eapply dm_frame_trans; [|exact Hs].
  eapply dm_frame_trans; [apply dm_frame_set_pc|apply dm_frame_add_event].
Qed.

Lemma dm_frame_request_blocks peer i fuel :
  forall w w' : bt_dm_private_t,
  request_blocks fuel w peer i = Some w' -> dm_frame w w'.
Proof.
  induction fuel as [|fuel IH]; intros w w'; cbn [request_blocks]; [done|].
  destruct (pdb w) as [db|]; [|done]. cbn [mbind option_bind].
  destruct (db !! i) as [pce|]; [|done]. cbn [mbind option_bind].
  destruct (bt_piece_is_fully_requested pce).
  { intros [= <-]. apply dm_frame_refl. }
  destruct (bt_piece_poll_block_request pce) as [pce' blk].
  destruct (offer_block _ peer blk) as [w1|] eqn:Ho; [|done].
  cbn [mbind option_bind]. intros Hrest. apply IH in Hrest.
  apply dm_frame_offer_block in Ho.
  eapply dm_frame_trans; [|exact Hrest].
  eapply dm_frame_trans; [|exact Ho]. apply dm_frame_store_piece.
Qed.

Lemma dm_frame_poll_pieces peer fuel :
  forall w w' : bt_dm_private_t,
  poll_pieces fuel w peer = Some w' -> dm_frame w w'.
Proof.
  induction fuel as [|fuel IH]; intros w w'; cbn [poll_pieces]; [done|].
  destruct (pselector w) as [s|]; [|done]. cbn [mbind option_bind].
  destruct (ips_poll_piece s peer) as [s' i].
  set (w1 := add_event _ _).
  assert (H1 : dm_frame w w1).
  { apply dm_frame_fields; try done. by apply peers_kept_same. }
  destruct (i =? -1); [by intros [= <-]|].
  unfold get_piece. destruct (pdb w1) as [db|]; [|done]. cbn [mbind option_bind].
  destruct (db !! i) as [pce|]; [|done].
  destruct (bt_piece_is_complete pce).
  - destruct (selector_call_on _ _ w1) as [w2|] eqn:Hs; [|done].
    cbn [mbind option_bind]. intros Hrest. apply IH in Hrest.
    apply dm_frame_selector in Hs.
    eapply dm_frame_trans; [exact H1|].
    eapply dm_frame_trans; [exact Hs|exact Hrest].
  - intros Hr. apply dm_frame_request_blocks in Hr.
    eapply dm_frame_trans; [exact H1|exact Hr].
Qed.

Lemma dm_frame_process_jobs fuel :
  forall w w' : bt_dm_private_t, process_jobs fuel w = Some w' -> dm_frame w w'.
Proof.
  induction fuel as [|fuel IH]; intros w w'; cbn [process_jobs]; [done|].
  destruct (0 <? llqueue_count (jobs w)); [|intros [= <-]; apply dm_frame_refl].
  unfold host_call_exclusively. destruct (call_exclusively (cb w)); [|done].
  cbn [excl_run]. unfold __poll_job.
  destruct (jobs w) as [|j js]; [done|].
  cbn [mbind option_bind fst snd].
  destruct (__dispatch_job fuel _ j) as [w1|] eqn:Hd; [|done].
  cbn [mbind option_bind]. intros Hrest. apply IH in Hrest.
  destruct j as [|p]; [done|]. cbn [__dispatch_job] in Hd.
  apply dm_frame_poll_pieces in Hd.
  eapply dm_frame_trans; [|exact Hrest].
  eapply dm_frame_trans; [|exact Hd].
  apply dm_frame_fields; try done. by apply peers_kept_same.
Qed.

Lemma dm_frame_peer_periodic (w w' : bt_dm_private_t) r :
  __FUNC_peer_periodic w r = Some w' -> dm_frame w w'.
Proof.
  unfold __FUNC_peer_periodic. destruct (peer_pc w r) as [c|]; [|done].
  cbn [mbind option_bind].
  destruct (pwp_conn_flag_is_set c PC_FAILED_CONNECTION);
    [intros [= <-]; apply dm_frame_refl|].
  destruct (negb _); [intros [= <-]; apply dm_frame_refl|].
  destruct (pwp_conn_periodic c) as [c' cbs].
  intros Hr. apply dm_frame_run_callbacks in Hr.
  eapply dm_frame_trans; [|exact Hr].
  eapply dm_frame_trans; [apply dm_frame_set_pc|apply dm_frame_add_event].
Qed.

Lemma dm_frame_visit (visitor : bt_dm_private_t -> peer_ref -> option bt_dm_private_t) rs :
  (forall w w' r, visitor w r = Some w' -> dm_frame w w') ->
  forall w w', visit_peers visitor rs w = Some w' -> dm_frame w w'.
Proof.
  intros Hv. induction rs as [|r rs IH]; intros w w'; cbn [visit_peers].
  - intros [= <-]. apply dm_frame_refl.
  - destruct (visitor w r) as [w1|] eqn:Hr; [|done].
    cbn [mbind option_bind]. intros Hrest.
    eapply dm_frame_trans; [by eapply Hv|by apply IH].
Qed.

Lemma dm_frame_periodic fuel (w : bt_dm_private_t) stats r :
  bt_dm_periodic fuel w stats = Some r -> dm_frame w r.1.
Proof.
  unfold bt_dm_periodic. destruct (shutting_down w) as [[|]|]; [| |done];
    cbn [mbind option_bind].
  - destruct (collect_stats w stats); [|done]. intros [= <-]. apply dm_frame_refl.
  - destruct (process_jobs fuel w) as [w1|] eqn:Hj; [|done]. cbn [mbind option_bind].
    destruct (bt_peermanager_forall _ w1) as [w2|] eqn:Hv; [|done].
    cbn [mbind option_bind].
    destruct (collect_stats w2 stats); [|done]. intros [= <-]. cbn [fst].
    apply dm_frame_process_jobs in Hj.
    apply (dm_frame_visit _ _ dm_frame_peer_periodic) in Hv.
    by eapply dm_frame_trans.
Qed.

Lemma dm_frame_handle_messages (w w' : bt_dm_private_t) peer buf :
  handle_messages w peer buf = Some w' -> dm_frame w w'.
Proof.
  unfold handle_messages. destruct (peers w !! peer) as [p|]; [|done].
  cbn [mbind option_bind]. destruct (mh p) as [m|]; [|done].
  cbn [mbind option_bind]. destruct (pc p) as [c|]; [|done].
  cbn [mbind option_bind]. destruct m as [|m0]; [done|].
  destruct (pwp_msghandler_dispatch_from_buffer m0 c buf) as [[[r m'] c'] cbs].
  set (w0 := add_event _ _).
  assert (H0 : dm_frame w w0).
  { eapply dm_frame_trans; [apply dm_frame_set_mh|].
    eapply dm_frame_trans; [apply dm_frame_set_pc|apply dm_frame_add_event]. }
  destruct (run_callbacks w0 peer cbs) as [w1|] eqn:Hc; [|done].
  cbn [mbind option_bind]. apply dm_frame_run_callbacks in Hc.
  destruct (r =? 0).
  - destruct (bt_dm_remove_peer _ peer) as [res|] eqn:Hr; [|done].
    intros [= <-]. apply dm_frame_remove_peer in Hr.
    eapply dm_frame_trans; [exact H0|].
    eapply dm_frame_trans; [exact Hc|].
    eapply dm_frame_trans; [apply dm_frame_log|exact Hr].
  - intros [= <-]. by eapply dm_frame_trans.
Qed.

Lemma dm_frame_handle_handshake (w : bt_dm_private_t) peer buf r :
  handle_handshake w peer buf = Some r -> dm_frame w r.1.
Proof.
  unfold handle_handshake. destruct (peers w !! peer) as [p|]; [|done].
  cbn [mbind option_bind]. destruct (mh p) as [m|]; [|done].
  cbn [mbind option_bind]. destruct m as [h|]; [|done].
  destruct (pwp_handshaker_dispatch_from_buffer h buf) as [[res h'] rest].
  set (w0 := add_event (EvHandshakerDispatch peer buf) _).
  assert (H0 : dm_frame w w0).
  { eapply dm_frame_trans; [apply dm_frame_set_mh|apply dm_frame_add_event]. }
  destruct (res =? 1); [|by intros [= <-]].
  destruct (peer_pc w0 peer) as [c|]; [|done]. cbn [mbind option_bind].
  set (w3 := set_peer_pc _ _ _).
  assert (H3 : dm_frame w0 w3).
  { eapply dm_frame_trans; [apply dm_frame_add_event|].
    eapply dm_frame_trans; [apply dm_frame_set_mh|].
    eapply dm_frame_trans; [apply dm_frame_add_event|apply dm_frame_set_pc]. }
  destruct (config_get_int _ _) as [n|]; [|done]. cbn [mbind option_bind].
  destruct (pwp_send_bitfield _ _ _ _) as [sent|] eqn:Hs; [|done].
  cbn [mbind option_bind].
  apply dm_frame_send in Hs.
  assert (H4 : dm_frame w sent.1).
  { eapply dm_frame_trans; [exact H0|]. eapply dm_frame_trans; [exact H3|].
    eapply dm_frame_trans; [apply dm_frame_log|exact Hs]. }
  destruct (sent.2 =? 0).
  - destruct (bt_dm_remove_peer sent.1 peer) as [res'|] eqn:Hr; [|done].
    cbn [fmap option_fmap option_map mbind option_bind].
    intros [= <-]. cbn [fst]. apply dm_frame_remove_peer in Hr.
    by eapply dm_frame_trans.
  - cbn [mbind option_bind]. by intros [= <-].
Qed.

Lemma dm_frame_dispatch_from_buffer (w : bt_dm_private_t) nh buf r :
  bt_dm_dispatch_from_buffer w nh buf = Some r -> dm_frame w r.1.
Proof.
  unfold bt_dm_dispatch_from_buffer.
  destruct (bt_peermanager_nethandle_to_peer w nh) as [peer|];
    [|intros [= <-]; apply dm_frame_refl].
  destruct (peer_pc w peer) as [c|]; [|done]. cbn [mbind option_bind].
  destruct (negb _).
  - destruct (handle_handshake w peer buf) as [hr|] eqn:Hh; [|done].
    cbn [mbind option_bind]. apply dm_frame_handle_handshake in Hh.
    destruct hr.2 as [rest|]; [|by intros [= <-]].
    destruct (handle_messages hr.1 peer rest) as [w'|] eqn:Hm; [|done].
    cbn [mbind option_bind]. intros [= <-]. cbn [fst].
    apply dm_frame_handle_messages in Hm. by eapply dm_frame_trans.
  - destruct (handle_messages w peer buf) as [w'|] eqn:Hm; [|done].
    cbn [mbind option_bind]. intros [= <-]. cbn [fst].
    by eapply dm_frame_handle_messages.
Qed.

Lemma dm_frame_connect_fail (w w' : bt_dm_private_t) nh :
  bt_dm_peer_connect_fail w nh = Some w' -> dm_frame w w'.
Proof.
  unfold bt_dm_peer_connect_fail.
  destruct (bt_peermanager_nethandle_to_peer w nh) as [peer|];
    [|intros [= <-]; apply dm_frame_refl].
  destruct (peer_pc w peer) as [c|]; [|done]. cbn [mbind option_bind].
  intros [= <-]. apply dm_frame_set_pc.
Qed.

Lemma dm_frame_check_pieces_from n :
  forall i (w w' : bt_dm_private_t),
  check_pieces_from n i w = Some w' -> dm_frame w w'.
Proof.
  induction n as [|n IH]; intros i w w'; cbn [check_pieces_from].
  - intros [= <-]. apply dm_frame_refl.
  - unfold get_piece. destruct (pdb w) as [db|]; [|done]. cbn [mbind option_bind].
    match goal with
    | |- (?m ≫= _) = _ -> _ => destruct m as [w1|] eqn:Hm; [|done]
    end.
    cbn [mbind option_bind]. intros Hrest. apply IH in Hrest.
    eapply dm_frame_trans; [|exact Hrest]. clear Hrest.
    destruct (db !! i) as [p|]; [|injection Hm as <-; apply dm_frame_refl].
    destruct (bt_piece_is_complete p); [|injection Hm as <-; apply dm_frame_refl].
    destruct (selector_call_on _ _ w) as [w2|] eqn:Hs; [|done].
    cbn [mbind option_bind] in Hm. injection Hm as <-.
    apply dm_frame_selector in Hs.
    eapply dm_frame_trans; [exact Hs|].
    apply dm_frame_fields; try done. by apply peers_kept_same.
Qed.

End KeptLemmas.

(** ** Peers that leave *)

Section Leaving.
Context `{Collaborators}.

Lemma nethandle_to_peer_elem (w : bt_dm_private_t) nh peer :
  bt_peermanager_nethandle_to_peer w nh = Some peer ->
  peer ∈ pm w /\ exists p, peers w !! peer = Some p /\ nethandle p = nh.
Proof.
  unfold bt_peermanager_nethandle_to_peer. intros Hf.
  apply find_some in Hf as [Hin Hnh].
  apply list_elem_of_In, elem_of_elements in Hin. split; [done|].
  unfold peer_has_nethandle in Hnh. destruct (peers w !! peer) as [p|]; [|done].
  exists p. split; [done|]. by apply bool_decide_eq_true in Hnh.
Qed.

Lemma events_since_refl (w : bt_dm_private_t) : events_since w w = [].
Proof. unfold events_since. by rewrite drop_all. Qed.

Lemma remove_peer_member (w : bt_dm_private_t) peer s :
  peer ∈ pm w -> pselector w = Some s ->
  bt_dm_remove_peer w peer
  = Some (add_event (EvSelector (SelRemovePeer peer))
            (set_pselector (Some (ips_remove_peer s peer))
               (set_pm (next_peer w) (pm w ∖ {[peer]}) w)), 1).
Proof.
  intros Hin Hs. unfold bt_dm_remove_peer, bt_peermanager_remove_peer.
  rewrite decide_True by done. change (1 =? 0) with false. cbv iota.
  unfold selector_call_on. cbn [pselector set_pm]. rewrite Hs. reflexivity.
Qed.

Lemma remove_peer_stranger (w : bt_dm_private_t) peer :
  peer ∉ pm w ->
  bt_dm_remove_peer w peer = Some (__log w "ERROR,couldn't remove peer", 0).
Proof.
  intros Hin. unfold bt_dm_remove_peer, bt_peermanager_remove_peer.
  by rewrite decide_False by done.
Qed.

Lemma remove_peer_gone (w : bt_dm_private_t) peer r :
  bt_dm_remove_peer w peer = Some r ->
  pm r.1 = pm w ∖ {[peer]} /\ peers r.1 = peers w.
Proof.
  unfold bt_dm_remove_peer, bt_peermanager_remove_peer.
  destruct (decide (peer ∈ pm w)) as [Hin|Hout].
  - change (1 =? 0) with false. cbv iota.
    unfold selector_call_on. cbn [pselector set_pm].
    destruct (pselector w); [|done]. by intros [= <-].
  - change (0 =? 0) with true. cbv iota. intros [= <-]. cbn [fst].
    rewrite log_trace. cbn [pm peers set_trace]. split; [|done].
    apply set_eq. intros q. rewrite elem_of_difference, elem_of_singleton.
    split; [|tauto]. intros Hq. split; [done|]. by intros ->.
Qed.

(** X7.  [bt_dm_remove_peer] with a selector installed.  For a peer of
    the peer manager it answers 1: the peer leaves the peer manager, whose
    count drops by one, and the selector's [remove_peer] is called once.
    For a peer that the peer manager does not hold it answers 0: the peer
    manager and the selector are as they were, the selector is not called,
    and the only event is the log line ["ERROR,couldn't remove peer"]. *)
Theorem remove_peer_once (w : bt_dm_private_t) (peer : peer_ref) (s : selector) :
  pselector w = Some s ->
  (peer ∈ pm w ->
   exists w1,
     bt_dm_remove_peer w peer = Some (w1, 1) /\
     pm w1 = pm w ∖ {[peer]} /\
     bt_dm_get_num_peers w1 = bt_dm_get_num_peers w - 1 /\
     pselector w1 = Some (ips_remove_peer s peer) /\
     events_since w w1 = [EvSelector (SelRemovePeer peer)]) /\
  ((peer ∉ pm w) ->
   exists w1,
     bt_dm_remove_peer w peer = Some (w1, 0) /\
     pm w1 = pm w /\
     bt_dm_get_num_peers w1 = bt_dm_get_num_peers w /\
     pselector w1 = Some s /\
     events_since w w1 = log_events w "ERROR,couldn't remove peer" /\
     selector_calls (events_since w w1) = []).
Proof.
  intros Hs. split.
  - intros Hin. eexists. split; [by apply remove_peer_member|].
    cbn [pm peers pselector add_event set_trace set_pselector set_pm].
    split; [done|]. split.
    { unfold bt_dm_get_num_peers, bt_peermanager_count.
      cbn [pm add_event set_trace set_pselector set_pm].
      rewrite size_difference by (by apply singleton_subseteq_l).
      rewrite size_singleton.
      assert (size (pm w) <> 0%nat)
        by (by eapply size_non_empty_iff, non_empty_inhabited).
      lia. }
    split; [done|]. by apply events_since_app.
  - intros Hout. eexists. split; [by apply remove_peer_stranger|].
    rewrite log_trace. unfold bt_dm_get_num_peers, bt_peermanager_count.
    cbn [pm pselector trace set_trace].
    split; [done|]. split; [done|]. split; [done|].
    rewrite (events_since_app w _ (log_events w "ERROR,couldn't remove peer")) by done.
    split; [done|]. apply selector_calls_log.
Qed.


(** X9.  [bt_dm_peer_connect_fail] does nothing for a net handle that no
    peer has.  For the peer that has it, PC_FAILED_CONNECTION is set on its
    connection and nothing else changes: no event, no other peer, and the
    peer stays in the peer manager; from then on the per-peer step of a
    tick returns at its first test and the statistics report the failure. *)
Theorem connect_fail_marks_peer (w : bt_dm_private_t) (nh : Z) :
  (bt_peermanager_nethandle_to_peer w nh = None ->
   bt_dm_peer_connect_fail w nh = Some w) /\
  (forall peer c,
     bt_peermanager_nethandle_to_peer w nh = Some peer ->
     peer_pc w peer = Some c ->
     exists w',
       bt_dm_peer_connect_fail w nh = Some w' /\
       peer_pc w' peer = Some (pwp_conn_set_state c PC_FAILED_CONNECTION) /\
       peer_flag w' peer PC_FAILED_CONNECTION = true /\
       (forall q, q <> peer -> peers w' !! q = peers w !! q) /\
       trace w' = trace w /\ pm w' = pm w /\
       should_step w' peer = false /\
       __FUNC_peer_periodic w' peer = Some w' /\
       (ps_failed_connection <$> peer_stats w' peer) = Some true).
Proof.
  split.
  { intros Hn. unfold bt_dm_peer_connect_fail. by rewrite Hn. }
  intros peer c Hn Hc.
  assert (Hset : pwp_conn_flag_is_set (pwp_conn_set_state c PC_FAILED_CONNECTION)
                   PC_FAILED_CONNECTION = true).
  { unfold pwp_conn_set_state, pwp_conn_flag_is_set.
    destruct (decide (PC_FAILED_CONNECTION ∈ flags c)).
    - by apply bool_decide_eq_true_2.
    - apply bool_decide_eq_true_2. cbn. apply elem_of_cons. auto. }
  exists (set_peer_pc peer (pwp_conn_set_state c PC_FAILED_CONNECTION) w).
  assert (Hpc : peer_pc (set_peer_pc peer (pwp_conn_set_state c PC_FAILED_CONNECTION) w)
                  peer = Some (pwp_conn_set_state c PC_FAILED_CONNECTION)).
  { apply peer_pc_Some in Hc as (p & Hp & _).
    unfold peer_pc, set_peer_pc. cbn [peers set_peers].
    by rewrite lookup_alter_eq, Hp. }
  split.
  { unfold bt_dm_peer_connect_fail. by rewrite Hn, Hc. }
  split; [exact Hpc|]. split.
  { unfold peer_flag. by rewrite Hpc. }
  split.
  { intros q Hq. unfold set_peer_pc. cbn [peers set_peers].
    by rewrite lookup_alter_ne. }
  split; [done|]. split; [done|]. split.
  { unfold should_step, peer_flag. by rewrite Hpc, Hset. }
  split.
  { unfold __FUNC_peer_periodic. rewrite Hpc. cbn [mbind option_bind].
    by rewrite Hset. }
  unfold peer_stats. rewrite Hpc. cbn. by rewrite Hset.
Qed.

End Leaving.

(** ** Inbound bytes *)

Section Inbound.
Context `{Collaborators}.

Lemma msghandler_dispatches_app t1 t2 :
  msghandler_dispatches (t1 ++ t2)
  = msghandler_dispatches t1 ++ msghandler_dispatches t2.
Proof. apply omap_app. Qed.

Lemma msghandler_dispatches_cons peer buf d :
  msghandler_dispatches (EvMsgHandlerDispatch peer buf :: d)
  = (peer, buf) :: msghandler_dispatches d.
Proof. reflexivity. Qed.

Lemma callback_events_no_dispatch d :
  forallb callback_event d = true -> msghandler_dispatches d = [].
Proof.
  induction d as [|e d IH]; [done|]. cbn [forallb].
  intros [He Hd]%andb_prop. destruct e; try done; by apply IH.
Qed.

Lemma handshake_events_quiet d :
  forallb handshake_event d = true -> msghandler_dispatches d = [].
Proof.
  induction d as [|e d IH]; [done|]. cbn [forallb].
  intros [He Hd]%andb_prop. destruct e; try done; by apply IH.
Qed.

Lemma callback_is_handshake_event e :
  callback_event e = true -> handshake_event e = true.
Proof. by destruct e. Qed.

Lemma extends_add_event allowed (w : bt_dm_private_t) e :
  allowed e = true -> extends allowed w (add_event e w).
Proof. intros He. exists [e]. split; [done|]. cbn. by rewrite He. Qed.

Lemma extends_callback_frame (w w' : bt_dm_private_t) :
  callback_frame w w' -> extends handshake_event w w'.
Proof.
  intros (_ & _ & He). eapply extends_mono; [|exact He].
  apply callback_is_handshake_event.
Qed.

(** The handshake block never runs the message handler. *)
Lemma handle_handshake_trace (w : bt_dm_private_t) peer buf r :
  handle_handshake w peer buf = Some r -> extends handshake_event w r.1.
Proof.
  unfold handle_handshake. destruct (peers w !! peer) as [p|]; [|done].
  cbn [mbind option_bind]. destruct (mh p) as [m|]; [|done].
  cbn [mbind option_bind]. destruct m as [h|]; [|done].
  destruct (pwp_handshaker_dispatch_from_buffer h buf) as [[res h'] rest].
  set (w0 := add_event (EvHandshakerDispatch peer buf) _).
  assert (H0 : extends handshake_event w w0) by (by exists [EvHandshakerDispatch peer buf]).
  destruct (res =? 1); [|by intros [= <-]].
  destruct (peer_pc w0 peer) as [c|]; [|done]. cbn [mbind option_bind].
  set (w3 := set_peer_pc _ _ _).
  assert (H3 : extends handshake_event w0 w3).
  { exists [EvHandshakerRelease peer; EvMsgHandlerNew peer]. split; [|done].
    cbn. by rewrite <- app_assoc. }
  destruct (config_get_int _ _) as [n|]; [|done]. cbn [mbind option_bind].
  destruct (pwp_send_bitfield _ _ _ _) as [sent|] eqn:Hs; [|done].
  cbn [mbind option_bind].
  apply callback_frame_send, extends_callback_frame in Hs.
  assert (H4 : extends handshake_event w sent.1).
  { eapply extends_trans; [exact H0|]. eapply extends_trans; [exact H3|].
    eapply extends_trans; [|exact Hs].
    apply extends_callback_frame, callback_frame_log. }
  destruct (sent.2 =? 0).
  - destruct (bt_dm_remove_peer sent.1 peer) as [res'|] eqn:Hr; [|done].
    cbn [fmap option_fmap option_map mbind option_bind].
    intros [= <-]. cbn [fst].
    apply callback_frame_remove_peer, extends_callback_frame in Hr.
    by eapply extends_trans.
  - cbn [mbind option_bind]. by intros [= <-].
Qed.

(** The block for regular traffic runs the message handler once, on the
    bytes it was given, and only for a peer whose object has a message
    handler and a connection. *)
Lemma handle_messages_trace (w w' : bt_dm_private_t) peer buf :
  handle_messages w peer buf = Some w' ->
  exists p m c res m' c' cbs d,
    peers w !! peer = Some p /\ mh p = Some (MsgHandler m) /\ pc p = Some c /\
    pwp_msghandler_dispatch_from_buffer m c buf = (res, m', c', cbs) /\
    trace w' = trace w ++ EvMsgHandlerDispatch peer buf :: d /\
    forallb callback_event d = true /\
    peers w' = <[peer := mk_peer (peer_id p) (ip p) (port p) (nethandle p)
                           (Some c') (Some (MsgHandler m'))]> (peers w) /\
    (res = 0 -> peer ∉ pm w') /\
    (res <> 0 -> pm w' ⊆ pm w /\
                 run_callbacks
                   (add_event (EvMsgHandlerDispatch peer buf)
                      (set_peer_pc peer c' (set_peer_mh peer (MsgHandler m') w)))
                   peer cbs = Some w').
Proof.
  unfold handle_messages. destruct (peers w !! peer) as [p|] eqn:Hp; [|done].
  cbn [mbind option_bind]. destruct (mh p) as [m|] eqn:Hm; [|done].
  cbn [mbind option_bind]. destruct (pc p) as [c|] eqn:Hc; [|done].
  cbn [mbind option_bind]. destruct m as [|m0]; [done|].
  destruct (pwp_msghandler_dispatch_from_buffer m0 c buf) as [[[r m'] c'] cbs] eqn:Hd.
  set (w0 := add_event _ _).
  assert (Hpeers0 : peers w0 = <[peer := mk_peer (peer_id p) (ip p) (port p) (nethandle p)
                                          (Some c') (Some (MsgHandler m'))]> (peers w)).
  { subst w0. cbn [peers add_event set_trace set_peer_pc set_peer_mh set_peers].
    apply map_eq. intros q. destruct (decide (q = peer)) as [->|Hne].
    - by rewrite lookup_insert_eq, !lookup_alter_eq, Hp.
    - by rewrite lookup_insert_ne, !lookup_alter_ne by done. }
  assert (Ht0 : trace w0 = trace w ++ [EvMsgHandlerDispatch peer buf]) by done.
  destruct (run_callbacks w0 peer cbs) as [w1|] eqn:Hcb; [|done].
  cbn [mbind option_bind].
  pose proof (callback_frame_run_callbacks _ _ _ _ Hcb) as (Hp1 & _ & d1 & Ht1 & Hd1).
  pose proof (dm_frame_run_callbacks _ _ _ _ Hcb) as (_&_&_&_&_&_&Hpm1&_).
  intros Hres. exists p, m0, c, r, m', c', cbs.
  destruct (Z.eqb_spec r 0) as [->|Hnz].
  - destruct (bt_dm_remove_peer _ peer) as [res|] eqn:Hr; [|done].
    injection Hres as <-.
    pose proof (remove_peer_gone _ _ _ Hr) as [Hpm Hpeers].
    apply callback_frame_remove_peer in Hr as (_ & _ & d2 & Ht2 & Hd2).
    rewrite log_trace in Hpm, Hpeers, Ht2. cbn [pm peers trace set_trace] in *.
    exists (d1 ++ log_events w1 "disconnecting,bad msg detected by PWP handler" ++ d2).
    split; [done|]. split; [done|]. split; [done|]. split; [done|].
    split.
    { rewrite Ht2, Ht1, Ht0, <- !app_assoc. reflexivity. }
    split.
    { rewrite !forallb_app, Hd1, Hd2, andb_true_r. cbn [andb].
      unfold log_events. by destruct (log (cb w1)). }
    split; [congruence|]. split; [|done].
    intros _. rewrite Hpm, elem_of_difference, elem_of_singleton. by intros [_ Hne].
  - injection Hres as <-. exists d1.
    split; [done|]. split; [done|]. split; [done|]. split; [done|].
    split; [by rewrite Ht1, Ht0, <- app_assoc|].
    split; [done|]. split; [congruence|]. split; [done|].
    intros _. split; [|done].
    etrans; [exact Hpm1|]. done.
Qed.

Lemma extends_dispatches (w w' : bt_dm_private_t) :
  extends handshake_event w w' -> msghandler_dispatches (events_since w w') = [].
Proof.
  intros (d & Ht & Hd). erewrite events_since_app by exact Ht.
  by apply handshake_events_quiet.
Qed.

(** X10.  [bt_dm_dispatch_from_buffer] answers 0 or 1.  It answers 0 and
    leaves everything as it was for a net handle that no peer of the peer
    manager has, and it answers 1 exactly when it has run the message
    handler, which it does at most once and for the peer that has the
    net handle. *)
Theorem dispatch_from_buffer_result (w w' : bt_dm_private_t) (nh : Z)
    (buf : list Z) (r : Z) :
  bt_dm_dispatch_from_buffer w nh buf = Some (w', r) ->
  (bt_peermanager_nethandle_to_peer w nh = None -> r = 0 /\ w' = w) /\
  (r = 0 /\ msghandler_dispatches (events_since w w') = [] \/
   r = 1 /\ exists peer rest,
     bt_peermanager_nethandle_to_peer w nh = Some peer /\
     msghandler_dispatches (events_since w w') = [(peer, rest)]).
Proof.
  unfold bt_dm_dispatch_from_buffer.
  destruct (bt_peermanager_nethandle_to_peer w nh) as [peer|].
  2:{ intros [= <- <-]. split; [done|]. left. by rewrite events_since_refl. }
  destruct (peer_pc w peer) as [c|]; [|done]. cbn [mbind option_bind].
  intros Hrun. split; [done|]. revert Hrun.
  destruct (negb _).
  - destruct (handle_handshake w peer buf) as [hr|] eqn:Hh; [|done].
    cbn [mbind option_bind]. apply handle_handshake_trace in Hh.
    destruct hr.2 as [rest|].
    2:{ intros [= <- <-]. left. split; [done|]. by apply extends_dispatches. }
    destruct (handle_messages hr.1 peer rest) as [w1|] eqn:Hm; [|done].
    cbn [mbind option_bind]. intros [= <- <-]. right. split; [done|].
    exists peer, rest. split; [done|].
    apply handle_messages_trace in Hm
      as (?&?&?&?&?&?&?& d & _ & _ & _ & _ & Ht & Hd & _).
    destruct Hh as (d0 & Ht0 & Hd0).
    erewrite events_since_app
      by (rewrite Ht, Ht0, <- app_assoc; reflexivity).
    rewrite msghandler_dispatches_app, msghandler_dispatches_cons.
    by rewrite (handshake_events_quiet d0), (callback_events_no_dispatch d).
  - destruct (handle_messages w peer buf) as [w1|] eqn:Hm; [|done].
    cbn [mbind option_bind]. intros [= <- <-]. right. split; [done|].
    exists peer, buf. split; [done|].
    apply handle_messages_trace in Hm
      as (?&?&?&?&?&?&?& d & _ & _ & _ & _ & Ht & Hd & _).
    erewrite events_since_app by exact Ht.
    by rewrite msghandler_dispatches_cons, (callback_events_no_dispatch d).
Qed.

(** X11.  While the handshaker does not answer 1 (more bytes needed, or an
    invalid handshake), [bt_dm_dispatch_from_buffer] answers 0 after the
    one call of the handshaker: the handshaker keeps what it buffered,
    nothing is sent, no selector call is made, and the peer stays in the
    peer manager, also after an invalid handshake. *)
Theorem handshake_not_done (w : bt_dm_private_t) (nh : Z) (buf : list Z)
    peer p c h r h' rest :
  bt_peermanager_nethandle_to_peer w nh = Some peer ->
  peers w !! peer = Some p ->
  pc p = Some c ->
  mh p = Some (Handshaker h) ->
  pwp_conn_flag_is_set c PC_HANDSHAKE_RECEIVED = false ->
  pwp_handshaker_dispatch_from_buffer h buf = (r, h', rest) ->
  r <> 1 ->
  exists w',
    bt_dm_dispatch_from_buffer w nh buf = Some (w', 0) /\
    peers w' = <[peer := mk_peer (peer_id p) (ip p) (port p) (nethandle p)
                           (Some c) (Some (Handshaker h'))]> (peers w) /\
    events_since w w' = [EvHandshakerDispatch peer buf] /\
    pm w' = pm w /\ peer ∈ pm w' /\
    pselector w' = pselector w /\
    peer_flag w' peer PC_HANDSHAKE_RECEIVED = false.
Proof.
  intros Hnh Hp Hc Hmh Hflag Hhs Hr.
  exists (add_event (EvHandshakerDispatch peer buf)
            (set_peer_mh peer (Handshaker h') w)).
  assert (Hpeers : alter (fun p0 => mk_peer (peer_id p0) (ip p0) (port p0)
                                      (nethandle p0) (pc p0) (Some (Handshaker h')))
                     peer (peers w)
                   = <[peer := mk_peer (peer_id p) (ip p) (port p) (nethandle p)
                                 (Some c) (Some (Handshaker h'))]> (peers w)).
  { apply map_eq. intros q. destruct (decide (q = peer)) as [->|Hne].
    - by rewrite lookup_insert_eq, lookup_alter_eq, Hp, <- Hc.
    - by rewrite lookup_insert_ne, lookup_alter_ne by done. }
  split.
  { unfold bt_dm_dispatch_from_buffer. rewrite Hnh.
    unfold peer_pc at 1. rewrite Hp. cbn [mbind option_bind]. rewrite Hc.
    cbn [mbind option_bind]. rewrite Hflag. cbn [negb].
    unfold handle_handshake. rewrite Hp. cbn [mbind option_bind].
    rewrite Hmh. cbn [mbind option_bind]. rewrite Hhs.
    destruct (Z.eqb_spec r 1) as [|_]; [done|]. reflexivity. }
  cbn [peers pm pselector add_event set_trace set_peer_mh set_peers].
  split; [exact Hpeers|]. split; [by apply events_since_app|].
  split; [done|]. split; [by apply nethandle_to_peer_elem in Hnh as [? _]|].
  split; [done|].
  unfold peer_flag, peer_pc.
  cbn [peers add_event set_trace set_peer_mh set_peers].
  rewrite Hpeers, lookup_insert_eq. cbn [mbind option_bind pc]. exact Hflag.
Qed.

(** X12.  When the message handler answers 0 for the bytes of a peer whose
    handshake is done, [bt_dm_dispatch_from_buffer] still answers 1, and
    the peer has left the peer manager, to which no peer was added: the
    parser was called once, with the whole buffer; the callbacks it issued
    were run; then ["disconnecting,bad msg detected by PWP handler"] was
    logged and the peer removed. *)
Theorem bad_message_disconnects (w w' : bt_dm_private_t) (nh : Z) (buf : list Z)
    peer p c m m' c' cbs (r : Z) :
  bt_peermanager_nethandle_to_peer w nh = Some peer ->
  peers w !! peer = Some p ->
  pc p = Some c ->
  mh p = Some (MsgHandler m) ->
  pwp_conn_flag_is_set c PC_HANDSHAKE_RECEIVED = true ->
  pwp_msghandler_dispatch_from_buffer m c buf = (0, m', c', cbs) ->
  bt_dm_dispatch_from_buffer w nh buf = Some (w', r) ->
  r = 1 /\ (peer ∉ pm w') /\ pm w' ⊆ pm w /\
  msghandler_dispatches (events_since w w') = [(peer, buf)] /\
  exists d1 d2,
    events_since w w'
    = EvMsgHandlerDispatch peer buf :: d1
      ++ log_events w "disconnecting,bad msg detected by PWP handler" ++ d2 /\
    forallb callback_event d1 = true /\
    forallb callback_event d2 = true.
Proof.
  intros Hnh Hp Hc Hmh Hflag Hd.
  unfold bt_dm_dispatch_from_buffer. rewrite Hnh.
  unfold peer_pc at 1. rewrite Hp. cbn [mbind option_bind]. rewrite Hc.
  cbn [mbind option_bind]. rewrite Hflag. cbn [negb].
  unfold handle_messages. rewrite Hp. cbn [mbind option_bind].
  rewrite Hmh. cbn [mbind option_bind]. rewrite Hc. cbn [mbind option_bind].
  rewrite Hd.
  set (w0 := add_event (EvMsgHandlerDispatch peer buf) _).
  assert (H0 : cb w0 = cb w /\ cfg w0 = cfg w /\ pm w0 = pm w /\
               trace w0 = trace w ++ [EvMsgHandlerDispatch peer buf]) by done.
  destruct H0 as (Hcb0 & Hcfg0 & Hpm0 & Ht0).
  destruct (run_callbacks w0 peer cbs) as [w1|] eqn:Hcb; [|done].
  cbn [mbind option_bind]. change (0 =? 0) with true. cbv iota.
  destruct (bt_dm_remove_peer _ peer) as [res|] eqn:Hr; [|done].
  cbn [fmap option_fmap option_map mbind option_bind]. intros [= <- <-].
  pose proof (callback_frame_run_callbacks _ _ _ _ Hcb) as (_ & Hcb1 & d1 & Ht1 & Hd1).
  pose proof (dm_frame_run_callbacks _ _ _ _ Hcb) as (Hcfg1&_&_&_&_&_&Hpm1&_).
  pose proof (remove_peer_gone _ _ _ Hr) as [Hpm _].
  apply callback_frame_remove_peer in Hr as (_ & _ & d2 & Ht2 & Hd2).
  rewrite log_trace in Hpm, Ht2. cbn [pm peers trace set_trace] in *.
  assert (Hlog : log_events w1 "disconnecting,bad msg detected by PWP handler"
                 = log_events w "disconnecting,bad msg detected by PWP handler").
  { unfold log_events, config_get. by rewrite Hcb1, Hcb0, Hcfg1, Hcfg0. }
  rewrite Hlog in Ht2.
  assert (Ht : trace res.1
               = trace w ++ EvMsgHandlerDispatch peer buf :: d1
                 ++ log_events w "disconnecting,bad msg detected by PWP handler" ++ d2).
  { rewrite Ht2, Ht1, Ht0, <- !app_assoc. reflexivity. }
  split; [done|]. split.
  { rewrite Hpm, elem_of_difference, elem_of_singleton. by intros [_ Hne]. }
  split.
  { rewrite Hpm. intros q Hq. apply elem_of_difference in Hq as [Hq _].
    rewrite <- Hpm0. by apply Hpm1. }
  rewrite (events_since_app w res.1 _ Ht).
  split; [|by exists d1, d2].
  rewrite msghandler_dispatches_cons.
  rewrite (callback_events_no_dispatch
             (d1 ++ log_events w "disconnecting,bad msg detected by PWP handler" ++ d2));
    [done|].
  rewrite !forallb_app, Hd1, Hd2. unfold log_events. by destruct (log (cb w)).
Qed.

End Inbound.

(** ** Peers that join *)

Section Joining.
Context `{Collaborators}.

Lemma peer_connects_app t1 t2 :
  peer_connects (t1 ++ t2) = peer_connects t1 ++ peer_connects t2.
Proof. apply omap_app. Qed.

Lemma peer_connects_log (w : bt_dm_private_t) line :
  peer_connects (log_events w line) = [].
Proof. unfold log_events. by destruct (log (cb w)). Qed.

(** [bt_dm_add_peer] returns once the configuration values it reads are
    set. *)
Lemma add_peer_returns (w : bt_dm_private_t) pid a ip_len pt nh :
  is_Some (is_own_address w a ip_len pt) ->
  is_Some (config_get_int w "npieces") ->
  is_Some (config_get_int w "piece_length") ->
  is_Some (bt_dm_add_peer w pid a ip_len pt nh).
Proof.
  intros [own Hown] [n Hn] [l Hl].
  unfold bt_dm_add_peer. rewrite Hown. cbn [mbind option_bind].
  destruct own; [by eexists|].
  unfold bt_peermanager_add_peer.
  destruct (bt_peermanager_contains w a pt); [by eexists|].
  set (w1 := set_pm _ _ _).
  set (w2 := match pselector w1 with Some _ => _ | None => _ end).
  assert (Hcfg2 : cfg w2 = cfg w /\ cb w2 = cb w).
  { subst w2 w1. cbn [pselector set_pm set_peers]. by destruct (pselector w). }
  set (w3 := if nh =? 0 then w2 else _).
  assert (Hcfg3 : cfg w3 = cfg w /\ cb w3 = cb w) by (subst w3; by destruct (nh =? 0)).
  destruct Hcfg3 as [Hcfg3 Hcb3].
  unfold config_get_int in *. rewrite Hcfg3, Hn.
  cbn [fmap option_fmap option_map mbind option_bind].
  rewrite Hl. cbn [fmap option_fmap option_map mbind option_bind].
  cbn [cb set_peer_pc set_peers]. rewrite Hcb3.
  destruct (peer_connect (cb w)) as [connect|]; [|by eexists].
  destruct (nh =? 0).
  - destruct (_ =? 0); by eexists.
  - change (1 =? 0) with false. by eexists.
Qed.

(** What [bt_dm_add_peer] has done when it returns: either nothing (a
    refusal), or the peer was registered under the next reference, with or
    without a handshaker. *)
Lemma add_peer_outcome (w w' : bt_dm_private_t) pid a ip_len pt nh res :
  bt_dm_add_peer w pid a ip_len pt nh = Some (w', res) ->
  (res = None /\ w' = w /\
   (is_own_address w a ip_len pt = Some true \/ bt_peermanager_contains w a pt = true))
  \/
  (is_own_address w a ip_len pt = Some false /\
   bt_peermanager_contains w a pt = false /\
   exists n l nh' m' d,
     config_get_int w "npieces" = Some n /\
     config_get_int w "piece_length" = Some l /\
     peers w' !! next_peer w
       = Some (mk_peer pid a pt nh'
                 (Some (pwp_conn_set_piece_info pwp_conn_new n l)) m') /\
     (forall q, q <> next_peer w -> peers w' !! q = peers w !! q) /\
     pm w' = {[next_peer w]} ∪ pm w /\
     next_peer w' = S (next_peer w) /\
     cfg w' = cfg w /\ am_seeding w' = am_seeding w /\ ticker w' = ticker w /\
     cb w' = cb w /\
     pselector w' = (fun s => ips_add_peer s (next_peer w)) <$> pselector w /\
     trace w' = trace w ++ d /\
     selector_calls d = match pselector w with
                        | Some _ => [SelAddPeer (next_peer w)]
                        | None => []
                        end /\
     (forall q, sends_to q d = []) /\
     ((res = Some (next_peer w) /\
       lchoke w' = lchoke w ++ [next_peer w] /\
       m' = Some (Handshaker (pwp_handshaker_new (config_get w "infohash")
                                (config_get w "my_peerid"))) /\
       exists connect,
         peer_connect (cb w) = Some connect /\
         (nh <> 0 /\ nh' = nh /\ peer_connects d = [] \/
          nh = 0 /\ (connect a pt).1 <> 0 /\ nh' = (connect a pt).2 /\
          peer_connects d = [(a, pt)]))
      \/
      (res = None /\ lchoke w' = lchoke w /\ m' = None /\
       (peer_connect (cb w) = None /\ nh' = nh /\ peer_connects d = [] \/
        exists connect,
          peer_connect (cb w) = Some connect /\ nh = 0 /\ (connect a pt).1 = 0 /\
          nh' = (connect a pt).2 /\ peer_connects d = [(a, pt)])))).
Proof.
  unfold bt_dm_add_peer.
  destruct (is_own_address w a ip_len pt) as [[|]|] eqn:Hown; [| |done];
    cbn [mbind option_bind].
  { intros [= <- <-]. left. auto. }
  unfold bt_peermanager_add_peer.
  destruct (bt_peermanager_contains w a pt) eqn:Hdup.
  { intros [= <- <-]. left. auto. }
  set (r := next_peer w).
  destruct (pselector w) as [s|] eqn:Hsel;
    cbn [pselector set_pm set_peers];
    rewrite Hsel;
    destruct (Z.eqb_spec nh 0) as [Hnh|Hnh];
    unfold config_get_int;
    cbn [cfg add_event set_trace set_pselector set_pm set_peers set_peer_nethandle];
    (destruct (cfg w !! "npieces") as [sn|] eqn:Hn; [|done]);
    cbn [fmap option_fmap option_map mbind option_bind];
    (destruct (cfg w !! "piece_length") as [sl|] eqn:Hl; [|done]);
    cbn [fmap option_fmap option_map mbind option_bind];
    cbn [cb add_event set_trace set_pselector set_pm set_peers set_peer_nethandle
         set_peer_pc];
    (destruct (peer_connect (cb w)) as [connect|] eqn:Hconn;
     [try (destruct (Z.eqb_spec (connect a pt).1 0) as [Hok|Hok]);
      try (change (1 =? 0) with false; cbv iota)|]);
    intros [= <- <-]; right; (split; [done|]); (split; [done|]);
    exists (Libc.atoi sn), (Libc.atoi sl).
  all: try rewrite log_trace.
  all: cbn [peers pm next_peer cfg am_seeding ticker cb pselector trace lchoke
            add_event set_trace set_pselector set_pm set_peers set_peer_nethandle
            set_peer_pc set_peer_mh set_lchoke].
  all: rewrite ?Hsel.
  all: eexists _, _, _.
  all: (split; [reflexivity|]); (split; [reflexivity|]).
  all: (split; [rewrite ?lookup_alter_eq, lookup_insert_eq; reflexivity|]).
  all: (split; [intros q Hq; rewrite ?lookup_alter_ne, lookup_insert_ne by done;
                reflexivity|]).
  all: do 6 (split; [reflexivity|]).
  all: (split; [reflexivity|]).
  all: (split; [first [ symmetry; apply app_nil_r
                      | rewrite <- ?app_assoc; reflexivity ]|]).
  all: rewrite ?selector_calls_app, ?selector_calls_log, ?peer_connects_app,
         ?peer_connects_log.
  all: (split; [reflexivity|]).
  all: (split; [intros q; rewrite ?sends_to_app, ?sends_to_log; reflexivity|]).
  all: try subst nh.
  all: first
    [ left; split; [reflexivity|]; split; [reflexivity|]; split; [reflexivity|];
      eexists; split; [reflexivity|];
      first [ left; split; [done|]; split; [reflexivity|]; reflexivity
            | right; split; [done|]; split; [done|]; split; reflexivity ]
    | right; split; [reflexivity|]; split; [reflexivity|]; split; [reflexivity|];
      first [ left; split; [reflexivity|]; split; reflexivity
            | right; eexists; split; [reflexivity|]; split; [done|]; split; [done|];
              split; reflexivity ] ].
Qed.

Lemma is_own_address_ext (w w' : bt_dm_private_t) a ip_len pt :
  cfg w' = cfg w -> is_own_address w' a ip_len pt = is_own_address w a ip_len pt.
Proof. intros E. unfold is_own_address, config_get. by rewrite E. Qed.



(** X14.  When the host has no [peer_connect] callback, or the callback
    fails for an outbound peer, [bt_dm_add_peer] returns NULL although the
    peer is already registered: it stays in the peer manager with a
    connection but without a handshaker and outside the choker's list, so
    a second attempt for the same address is refused as a duplicate and
    changes nothing. *)
Theorem add_peer_failed_connect_keeps_peer (w : bt_dm_private_t) (pid a : string)
    (ip_len pt nh n l : Z) :
  is_own_address w a ip_len pt = Some false ->
  bt_peermanager_contains w a pt = false ->
  config_get_int w "npieces" = Some n ->
  config_get_int w "piece_length" = Some l ->
  (peer_connect (cb w) = None \/
   exists connect,
     peer_connect (cb w) = Some connect /\ nh = 0 /\ (connect a pt).1 = 0) ->
  exists w',
    bt_dm_add_peer w pid a ip_len pt nh = Some (w', None) /\
    next_peer w ∈ pm w' /\
    bt_peermanager_contains w' a pt = true /\
    (pc <$> peers w' !! next_peer w)
      = Some (Some (pwp_conn_set_piece_info pwp_conn_new n l)) /\
    (mh <$> peers w' !! next_peer w) = Some None /\
    lchoke w' = lchoke w /\
    bt_dm_add_peer w' pid a ip_len pt nh = Some (w', None).
Proof.
  intros Hown Hdup Hn Hl Hconn.
  destruct (add_peer_returns w pid a ip_len pt nh) as [[w' res] Hrun];
    [by rewrite Hown|by rewrite Hn|by rewrite Hl|].
  exists w'.
  destruct (add_peer_outcome _ _ _ _ _ _ _ _ Hrun)
    as [(_ & _ & [Hc|Hc])|(_ & _ & n' & l' & nh' & m' & d & Hn' & Hl' & Hp & Hq
        & Hpm & _ & Hcfg & _ & _ & _ & _ & Ht & Hsel & Hsends & Hcase)];
    [congruence|congruence|].
  assert (n' = n) as -> by congruence. assert (l' = l) as -> by congruence.
  destruct Hcase as [(_ & _ & _ & connect' & Hc' & Hnh)|(-> & Hl1 & -> & _)].
  { destruct Hconn as [Hnone|(connect & Hc & -> & Hz)]; [congruence|].
    assert (connect' = connect) as -> by congruence.
    destruct Hnh as [(Hnz & _)|(_ & Hnz & _)]; done. }
  assert (Hin : next_peer w ∈ pm w').
  { rewrite Hpm. apply elem_of_union_l. by apply elem_of_singleton. }
  assert (Hdup' : bt_peermanager_contains w' a pt = true).
  { unfold bt_peermanager_contains. apply existsb_exists.
    exists (next_peer w). split.
    - by apply list_elem_of_In, elem_of_elements.
    - unfold peer_has_address. rewrite Hp. by apply bool_decide_eq_true_2. }
  split; [exact Hrun|]. split; [exact Hin|]. split; [exact Hdup'|].
  split; [by rewrite Hp|]. split; [by rewrite Hp|]. split; [exact Hl1|].
  unfold bt_dm_add_peer. rewrite (is_own_address_ext w w') by exact Hcfg.
  rewrite Hown. cbn [mbind option_bind].
  unfold bt_peermanager_add_peer. by rewrite Hdup'.
Qed.


End Joining.

(** ** Statistics *)

Section Statistics.
Context `{Collaborators}.

Lemma stats_visitor_step (w : bt_dm_private_t) (s : bt_dm_stats_t) r ps :
  peer_stats w r = Some ps ->
  __FUNC_peer_stats_visitor w s r
  = Some (mk_stats (npeers_size s) (npeers s + 1)
            (<[Z.to_nat (npeers s) := Some ps]> (st_peers s))).
Proof.
  unfold peer_stats, __FUNC_peer_stats_visitor.
  destruct (peer_pc w r); [|done]. cbn [mbind option_bind]. by intros [= <-].
Qed.

Lemma stats_visit (w : bt_dm_private_t) (rs : list peer_ref) :
  forall s : bt_dm_stats_t,
  Forall (fun q => is_Some (peer_pc w q)) rs ->
  0 <= npeers s ->
  (Z.to_nat (npeers s) + length rs <= length (st_peers s))%nat ->
  exists s',
    visit_peers (__FUNC_peer_stats_visitor w) rs s = Some s' /\
    npeers s' = npeers s + Z.of_nat (length rs) /\
    npeers_size s' = npeers_size s /\
    length (st_peers s') = length (st_peers s) /\
    (forall i q, rs !! i = Some q ->
       st_peers s' !! (Z.to_nat (npeers s) + i)%nat = Some (peer_stats w q)) /\
    (forall j, (j < Z.to_nat (npeers s) \/ Z.to_nat (npeers s) + length rs <= j)%nat ->
       st_peers s' !! j = st_peers s !! j).
Proof.
  induction rs as [|r rs IH]; intros s Hpc Hn Hlen.
  - exists s. cbn [visit_peers length]. split; [done|]. split; [lia|].
    split; [done|]. split; [done|]. split; [by intros i q Hi|done].
  - apply Forall_cons in Hpc as [[c Hc] Hpc]. cbn [length] in Hlen.
    assert (Hps : exists ps, peer_stats w r = Some ps)
      by (unfold peer_stats; rewrite Hc; by eexists).
    destruct Hps as [ps Hps].
    cbn [visit_peers]. rewrite (stats_visitor_step w s r ps Hps).
    cbn [mbind option_bind].
    set (s1 := mk_stats _ _ _).
    destruct (IH s1) as (s' & Hrun & Hn' & Hsz & Hlen' & Hfill & Hrest).
    { exact Hpc. }
    { subst s1. cbn [npeers]. lia. }
    { subst s1. cbn [npeers st_peers]. rewrite length_insert. lia. }
    exists s'. subst s1. cbn [npeers npeers_size st_peers] in *.
    rewrite length_insert in Hlen'.
    split; [exact Hrun|]. split; [cbn [length]; lia|]. split; [done|].
    split; [done|]. split.
    + intros i q Hi. destruct i as [|i]; cbn in Hi.
      * injection Hi as <-. rewrite Nat.add_0_r.
        rewrite Hrest by lia. rewrite list_lookup_insert_eq by lia. by rewrite Hps.
      * replace (Z.to_nat (npeers s) + S i)%nat
          with (Z.to_nat (npeers s + 1) + i)%nat by lia.
        by apply Hfill.
    + intros j Hj. rewrite Hrest by (cbn [length] in Hj; lia).
      apply list_lookup_insert_ne. cbn [length] in Hj. lia.
Qed.

(** X16.  The statistics part of [bt_dm_periodic], for a statistics object
    whose array has the capacity it records and a peer manager whose peers
    all have their connection: the array grows to the number of peers when
    it is too small and never shrinks, [npeers] becomes the number of
    peers, and entry [i] describes the [i]-th peer visited, with the four
    flags and the two rates of its connection.  Entries past [npeers] are
    left as they were. *)
Theorem collect_stats_fills (w : bt_dm_private_t) (s : bt_dm_stats_t) :
  (forall q, q ∈ pm w -> is_Some (peer_pc w q)) ->
  length (st_peers s) = Z.to_nat (npeers_size s) ->
  exists s',
    collect_stats w (Some s) = Some (Some s') /\
    npeers s' = bt_dm_get_num_peers w /\
    npeers_size s' = Z.max (npeers_size s) (bt_dm_get_num_peers w) /\
    length (st_peers s') = Z.to_nat (npeers_size s') /\
    (forall i q, elements (pm w) !! i = Some q ->
       st_peers s' !! i = Some (peer_stats w q)) /\
    (forall j, (Z.to_nat (bt_dm_get_num_peers w) <= j)%nat ->
       st_peers s' !! j = st_peers s !! j).
Proof.
  intros Hpc Hcap. unfold collect_stats, bt_dm_get_num_peers.
  set (n := bt_peermanager_count w).
  assert (Hn : n = Z.of_nat (length (elements (pm w)))).
  { subst n. unfold bt_peermanager_count, size, set_size. cbn. done. }
  set (s1 := if npeers_size s <? n then _ else s).
  assert (Hs1 : npeers_size s1 = Z.max (npeers_size s) n /\
                length (st_peers s1) = Z.to_nat (npeers_size s1) /\
                forall j, (Z.to_nat n <= j)%nat -> st_peers s1 !! j = st_peers s !! j).
  { subst s1. destruct (Z.ltb_spec (npeers_size s) n) as [Hlt|Hge].
    - cbn [npeers_size st_peers]. split; [lia|]. split.
      + rewrite length_app, length_replicate. lia.
      + intros j Hj. rewrite lookup_app_r by lia.
        rewrite (lookup_ge_None_2 (st_peers s)) by lia.
        apply lookup_replicate_None. lia.
    - split; [lia|]. split; [done|]. done. }
  destruct Hs1 as (Hsz1 & Hlen1 & Hrest1).
  destruct (stats_visit w (elements (pm w))
              (mk_stats (npeers_size s1) 0 (st_peers s1)))
    as (s' & Hrun & Hn' & Hsz & Hlen' & Hfill & Hrest).
  { apply Forall_forall. intros q Hq. apply Hpc. by apply elem_of_elements. }
  { cbn. lia. }
  { cbn [npeers st_peers]. lia. }
  exists s'. cbn [npeers npeers_size st_peers] in *.
  rewrite Hrun. split; [done|]. split; [lia|]. split; [lia|].
  split; [lia|]. split.
  - intros i q Hi. by apply (Hfill i q).
  - intros j Hj. rewrite Hrest by lia. apply Hrest1. lia.
Qed.

End Statistics.

(** ** The scan of the piece database *)

Section Scan.
Context `{Collaborators}.

Lemma complete_pieces_S db i n :
  complete_pieces db i (S n)
  = (if piece_complete_at db i then [i] else []) ++ complete_pieces db (i + 1) n.
Proof.
  unfold complete_pieces. cbn [seq fmap list_fmap].
  rewrite Z.add_0_r. rewrite <- fmap_S_seq, <- list_fmap_compose.
  rewrite filter_cons.
  assert (E : ((fun k : nat => i + Z.of_nat k) ∘ S) <$> seq 0 n
              = (fun k : nat => i + 1 + Z.of_nat k) <$> seq 0 n).
  { apply list_fmap_ext. intros _ k _. cbn. lia. }
  rewrite E. destruct (piece_complete_at db i) eqn:Hc.
  - by rewrite decide_True by done.
  - rewrite decide_False; [done|]. by intros ?.
Qed.

Lemma sc_have_mark sc i j :
  sc_have (sc_mark_complete sc i 1) j = (j =? i) || sc_have sc j.
Proof.
  unfold sc_have, sc_mark_complete. cbn [existsb fst snd]. f_equal.
  destruct (Z.eqb_spec j i) as [->|Hne].
  - apply andb_true_iff. split; [apply Z.leb_le|apply Z.ltb_lt]; lia.
  - apply andb_false_iff.
    destruct (Z.leb_spec i j); [right; apply Z.ltb_ge; lia|by left].
Qed.

Lemma sc_have_marks l : forall sc j,
  sc_have (foldl (fun c i => sc_mark_complete c i 1) sc l) j
  = sc_have sc j || bool_decide (j ∈ l).
Proof.
  induction l as [|i l IH]; intros sc j; cbn [foldl].
  - rewrite bool_decide_eq_false_2 by apply not_elem_of_nil. by rewrite orb_false_r.
  - rewrite IH, sc_have_mark.
    destruct (Z.eqb_spec j i) as [->|Hne].
    + rewrite (bool_decide_eq_true_2 (i ∈ i :: l)) by apply list_elem_of_here.
      by rewrite orb_true_r.
    + cbn [orb]. f_equal. apply bool_decide_ext. rewrite elem_of_cons. tauto.
Qed.

Lemma check_pieces_from_scan n :
  forall i (w : bt_dm_private_t) db s,
  pdb w = Some db -> pselector w = Some s ->
  exists w',
    check_pieces_from n i w = Some w' /\
    trace w' = trace w
               ++ ((fun j => EvSelector (SelHavePiece j)) <$> complete_pieces db i n) /\
    pselector w' = Some (foldl ips_have_piece s (complete_pieces db i n)) /\
    pieces_completed w'
    = foldl (fun c j => sc_mark_complete c j 1) (pieces_completed w)
            (complete_pieces db i n) /\
    pdb w' = Some db /\ peers w' = peers w /\ pm w' = pm w /\ cb w' = cb w /\
    blacklist w' = blacklist w /\ jobs w' = jobs w.
Proof.
  induction n as [|n IH]; intros i w db s Hdb Hs.
  - exists w. cbn. by rewrite app_nil_r.
  - cbn [check_pieces_from]. unfold get_piece. rewrite Hdb.
    cbn [mbind option_bind]. rewrite complete_pieces_S.
    unfold piece_complete_at.
    destruct (db !! i) as [p|] eqn:Hp;
      [destruct (bt_piece_is_complete p) eqn:Hc|].
    + unfold selector_call_on. rewrite Hs. cbn [mbind option_bind].
      set (w1 := set_pieces_completed _ _).
      destruct (IH (i + 1) w1 db (ips_have_piece s i))
        as (w' & Hrun & Ht & Hsel & Hsc & Hdb' & Hrest); [done|done|].
      exists w'. split; [exact Hrun|].
      cbn [app foldl fmap list_fmap].
      split; [by rewrite Ht; subst w1; cbn; rewrite <- app_assoc|].
      split; [exact Hsel|]. split; [exact Hsc|]. split; [exact Hdb'|].
      exact Hrest.
    + cbn [mbind option_bind app].
      destruct (IH (i + 1) w db s Hdb Hs) as (w' & Hrun & Hrest).
      exists w'. split; [exact Hrun|exact Hrest].
    + cbn [mbind option_bind app].
      destruct (IH (i + 1) w db s Hdb Hs) as (w' & Hrun & Hrest).
      exists w'. split; [exact Hrun|exact Hrest].
Qed.

(** X17.  [bt_dm_set_piece_selector] installs the selector it is given, or
    a new one for NULL, and scans the piece database: for the indices
    below [npieces], in increasing order, every piece that is present and
    complete is announced to the selector with [have_piece] and marked in
    the sparse counter; pieces that are absent or incomplete cause
    nothing.  Afterwards the counter has an index exactly when it had it
    before or the scan found the piece complete. *)
Theorem set_piece_selector_scans (w : bt_dm_private_t)
    (piece_selector : option selector) (db : gmap Z bt_piece_t) (n : Z) :
  pdb w = Some db ->
  config_get_int w "npieces" = Some n ->
  exists w',
    bt_dm_set_piece_selector w piece_selector = Some w' /\
    selector_calls (events_since w w')
      = SelHavePiece <$> complete_pieces db 0 (Z.to_nat n) /\
    pselector w'
      = Some (foldl ips_have_piece (default (ips_new 0) piece_selector)
                (complete_pieces db 0 (Z.to_nat n))) /\
    (forall i, sc_have (pieces_completed w') i
               = sc_have (pieces_completed w) i
                 || bool_decide (i ∈ complete_pieces db 0 (Z.to_nat n))) /\
    (forall i, i ∈ complete_pieces db 0 (Z.to_nat n) <->
               0 <= i < n /\ piece_complete_at db i = true) /\
    pdb w' = pdb w /\ pm w' = pm w.
Proof.
  intros Hdb Hn. unfold bt_dm_set_piece_selector, bt_dm_check_pieces.
  unfold config_get_int in *. cbn [cfg set_pselector]. rewrite Hn.
  cbn [mbind option_bind].
  destruct (check_pieces_from_scan (Z.to_nat n) 0
              (set_pselector (Some (default (ips_new 0) piece_selector)) w)
              db (default (ips_new 0) piece_selector))
    as (w' & Hrun & Ht & Hsel & Hsc & Hdb' & _ & Hpm & _); [done|done|].
  exists w'. split; [exact Hrun|]. cbn [trace set_pselector pieces_completed] in *.
  split.
  { erewrite events_since_app by exact Ht.
    generalize (complete_pieces db 0 (Z.to_nat n)). intros l.
    induction l as [|j l IHl]; [done|]. cbn. by rewrite <- IHl. }
  split; [exact Hsel|]. split.
  { intros i. rewrite Hsc. apply sc_have_marks. }
  split; [|by rewrite Hdb', Hdb].
  intros i. unfold complete_pieces. rewrite list_elem_of_filter, list_elem_of_fmap.
  split.
  - intros (Hc & k & -> & Hk). apply elem_of_seq in Hk. split; [lia|].
    by rewrite Z.add_0_l in Hc.
  - intros (Hi & Hc). split; [done|]. exists (Z.to_nat i). split; [lia|].
    apply elem_of_seq. lia.
Qed.

End Scan.

(** ** Blocks and pieces *)

Section Blocks.
Context `{Collaborators}.

Lemma suspect_keeps_edges bl piece q :
  forall e, e ∈ bl ->
  exists e', e' ∈ bt_blacklist_add_peer_as_potentially_blacklisted bl piece q /\
             bl_peer e' = bl_peer e /\ bl_piece e' = bl_piece e.
Proof.
  intros e He. unfold bt_blacklist_add_peer_as_potentially_blacklisted.
  assert (He1 : e ∈ bl ++ [mk_bl piece q SUSPECTED])
    by (apply elem_of_app; by left).
  destruct (_ <=? _)%nat; [|by exists e].
  eexists. split; [apply list_elem_of_fmap; exists e; split; [reflexivity|exact He1]|].
  by destruct (decide (bl_peer e = q)) as [<-|].
Qed.

Lemma suspect_adds_edge bl piece q :
  exists e', e' ∈ bt_blacklist_add_peer_as_potentially_blacklisted bl piece q /\
             bl_peer e' = q /\ bl_piece e' = piece.
Proof.
  unfold bt_blacklist_add_peer_as_potentially_blacklisted.
  assert (He1 : mk_bl piece q SUSPECTED ∈ bl ++ [mk_bl piece q SUSPECTED]).
  { apply elem_of_app. right. apply list_elem_of_singleton. reflexivity. }
  destruct (_ <=? _)%nat; [|by eexists].
  eexists. split; [apply list_elem_of_fmap; eexists; split; [reflexivity|exact He1]|].
  cbn. by rewrite decide_True.
Qed.

Lemma suspect_contributors_edges piece ps :
  forall bl,
  (forall e, e ∈ bl ->
     exists e', e' ∈ suspect_contributors bl piece ps /\
                bl_peer e' = bl_peer e /\ bl_piece e' = bl_piece e) /\
  (forall q, q ∈ ps ->
     exists e', e' ∈ suspect_contributors bl piece ps /\
                bl_peer e' = q /\ bl_piece e' = piece).
Proof.
  unfold suspect_contributors.
  induction ps as [|q ps IH]; intros bl; cbn [foldl].
  - split; [by eauto|]. intros q Hq. by apply not_elem_of_nil in Hq.
  - destruct (IH (bt_blacklist_add_peer_as_potentially_blacklisted bl piece q))
      as [IHk IHa].
    split.
    + intros e He. destruct (suspect_keeps_edges bl piece q e He) as (e1 & He1 & Hp1 & Hi1).
      destruct (IHk e1 He1) as (e2 & He2 & Hp2 & Hi2).
      exists e2. split; [done|]. split; congruence.
    + intros q' Hq'. apply elem_of_cons in Hq' as [->|Hq'].
      * destruct (suspect_adds_edge bl piece q) as (e1 & He1 & Hp1 & Hi1).
        destruct (IHk e1 He1) as (e2 & He2 & Hp2 & Hi2).
        exists e2. split; [done|]. split; congruence.
      * by apply IHa.
Qed.

Lemma drop_progress_missing p :
  Forall (fun blk => blk = (MISSING, [])) (blocks (bt_piece_drop_download_progress p)).
Proof.
  unfold bt_piece_drop_download_progress, set_blocks. cbn [blocks].
  apply Forall_forall. intros blk Hb.
  by apply list_elem_of_fmap in Hb as (? & -> & _).
Qed.

(** X18.  The other branch of the invalid-piece case of
    [__FUNC_peerconn_pushblock]: when the write makes a piece complete by
    block count with a wrong SHA-1 and the piece does not have exactly one
    contributor, the answer is 1, every contributor gets an edge
    for this piece in the blacklist and every edge that was there stays,
    the download progress of the piece is dropped so that all its blocks
    are MISSING again, and the selector is told with [peer_giveback_piece]
    for a NULL peer.  Nothing is sent. *)
Theorem pushblock_invalid_shared (w : bt_dm_private_t) (peer : peer_ref)
    (b : bt_block_t) (data : list Z) db p p1 s :
  pdb w = Some db ->
  db !! piece_idx b = Some p ->
  bt_piece_write_block p b data peer = (p1, -1) ->
  bt_piece_num_peers p1 <> 1 ->
  pselector w = Some s ->
  exists w',
    __FUNC_peerconn_pushblock w peer b data = Some (w', 1) /\
    piece_at w' (piece_idx b) = Some (bt_piece_drop_download_progress p1) /\
    Forall (fun blk => blk = (MISSING, []))
           (blocks (bt_piece_drop_download_progress p1)) /\
    blacklist w' = suspect_contributors (blacklist w) (piece_idx b) (piece_peers p1) /\
    (forall q, q ∈ piece_peers p1 ->
       exists e, e ∈ blacklist w' /\ bl_peer e = q /\ bl_piece e = piece_idx b) /\
    (forall e, e ∈ blacklist w ->
       exists e', e' ∈ blacklist w' /\ bl_peer e' = bl_peer e /\
                  bl_piece e' = bl_piece e) /\
    selector_calls (events_since w w') = [SelPeerGivebackPiece None (idx p)] /\
    pselector w' = Some (ips_peer_giveback_piece s None (idx p)) /\
    (forall q, sends_to q (events_since w w') = []) /\
    pm w' = pm w.
Proof.
  intros Hdb Hp Hw Hn Hs.
  pose proof (write_block_idx _ _ _ _ _ _ Hw) as Hidx.
  destruct (suspect_contributors_edges (piece_idx b) (piece_peers p1) (blacklist w))
    as [Hkeep Hadd].
  eexists. split.
  { unfold __FUNC_peerconn_pushblock. rewrite Hdb. cbn [mbind option_bind].
    rewrite Hp. cbn [mbind option_bind]. rewrite Hw.
    change (-1 =? 2) with false. change (-1 =? 0) with false.
    change (-1 =? -1) with true. cbv iota.
    unfold pushblock_invalid.
    rewrite (proj2 (Z.eqb_neq _ _) Hn).
    unfold selector_call_on.
    cbn [pselector store_piece set_pdb set_blacklist]. rewrite Hs.
    cbn [mbind option_bind]. reflexivity. }
  unfold piece_at.
  cbn [pdb blacklist pselector pm trace add_event set_trace set_pselector store_piece
       set_pdb set_blacklist].
  rewrite Hdb. cbn [fmap option_fmap option_map mbind option_bind].
  split; [by rewrite lookup_insert_eq|].
  split; [apply drop_progress_missing|].
  split; [done|]. split; [exact Hadd|]. split; [exact Hkeep|].
  rewrite Hidx.
  erewrite events_since_app by reflexivity.
  split; [done|]. split; [done|]. split; [done|]. done.
Qed.

(** X19.  [__FUNC_peerconn_write_block_to_stream] never stops for a piece
    that the database lacks, and changes nothing but the log: it logs that
    the piece could not be obtained, or that the block could not be
    written, or nothing when the block was written.  The two callbacks
    that assert the piece, [pushblock] and [peer_giveback_block] for a
    block of non-negative length, stop for the same missing piece. *)
Theorem missing_piece_behaviour (w : bt_dm_private_t) (peer : peer_ref)
    (b : bt_block_t) (data : list Z) db :
  pdb w = Some db ->
  (exists line,
     __FUNC_peerconn_write_block_to_stream w b
     = Some (set_trace (trace w ++ line) w) /\
     line = match db !! piece_idx b with
            | None => log_events w "ERROR,unable to obtain piece"
            | Some p =>
                if bt_piece_write_block_to_stream p b =? 0
                then log_events w "ERROR,unable to write block to stream"
                else []
            end) /\
  (db !! piece_idx b = None ->
   __FUNC_peerconn_pushblock w peer b data = None /\
   (0 <= len b -> __FUNC_peerconn_giveback_block w peer b = None)).
Proof.
  intros Hdb. split.
  - eexists. split; [|reflexivity].
    unfold __FUNC_peerconn_write_block_to_stream, get_piece. rewrite Hdb.
    cbn [mbind option_bind].
    destruct (db !! piece_idx b) as [p|].
    + destruct (_ =? 0); [by rewrite log_trace|].
      rewrite app_nil_r. by destruct w.
    + by rewrite log_trace.
  - intros Hnone. split.
    + unfold __FUNC_peerconn_pushblock. rewrite Hdb. cbn [mbind option_bind].
      by rewrite Hnone.
    + intros Hlen. unfold __FUNC_peerconn_giveback_block.
      destruct (Z.ltb_spec (len b) 0); [lia|].
      rewrite Hdb. cbn [mbind option_bind]. by rewrite Hnone.
Qed.

End Blocks.

(** ** The whole of a PollBlock job *)

Section Jobs.
Context `{Collaborators}.

Lemma request_blocks_result (fuel : nat) (w w' : bt_dm_private_t) peer i db pce p c send :
  request_blocks fuel w peer i = Some w' ->
  pdb w = Some db -> db !! i = Some pce ->
  peers w !! peer = Some p -> pc p = Some c ->
  peer_send (cb w) = Some send ->
  exists d,
    trace w' = trace w ++ d /\
    offered_blocks peer d = missing_blocks pce /\
    selector_calls d = [] /\
    pselector w' = pselector w /\
    pdb w' = Some (<[i := request_missing pce]> db).
Proof.
  intros Hrun Hdb Hi Hp Hc Hsend.
  set (n := length (missing_from 0 (blocks pce))).
  destruct (request_blocks_offers n (S (max fuel n)) w peer i db pce p c send)
    as (w2 & d & Hrun2 & Hrest); try done; [lia|].
  apply (request_blocks_fuel_mono peer i fuel (S (max fuel n))) in Hrun; [|lia].
  rewrite Hrun in Hrun2. injection Hrun2 as <-. by exists d.
Qed.

Lemma poll_pieces_outcome (fuel : nat) :
  forall (w w' : bt_dm_private_t) peer p c send db,
  poll_pieces fuel w peer = Some w' ->
  pdb w = Some db ->
  peers w !! peer = Some p -> pc p = Some c ->
  peer_send (cb w) = Some send ->
  exists skipped last d,
    trace w' = trace w ++ d /\
    selector_calls d
      = flat_map (fun i => [SelPollPiece peer i; SelHavePiece i]) skipped
        ++ [SelPollPiece peer last] /\
    Forall (fun i => i <> -1 /\ piece_complete_at db i = true) skipped /\
    (last = -1 /\ offered_blocks peer d = [] /\ pdb w' = Some db
     \/
     exists pce,
       last <> -1 /\ db !! last = Some pce /\ bt_piece_is_complete pce = false /\
       offered_blocks peer d = missing_blocks pce /\
       pdb w' = Some (<[last := request_missing pce]> db)).
Proof.
  induction fuel as [|fuel IH]; intros w w' peer p c send db; cbn [poll_pieces];
    [done|].
  destruct (pselector w) as [s|] eqn:Hs; [|done]. cbn [mbind option_bind].
  destruct (ips_poll_piece s peer) as [s' i].
  set (w1 := add_event _ _).
  destruct (Z.eqb_spec i (-1)) as [->|Hi].
  { intros [= <-] Hdb _ _ _. exists [], (-1), [EvSelector (SelPollPiece peer (-1))].
    split; [done|]. split; [done|]. split; [done|]. left. by repeat split. }
  unfold get_piece. cbn [pdb w1 add_event set_trace set_pselector].
  intros Hrun Hdb Hp Hc Hsend. rewrite Hdb in Hrun. cbn [mbind option_bind] in Hrun.
  destruct (db !! i) as [pce|] eqn:Hpce; [|done].
  destruct (bt_piece_is_complete pce) eqn:Hcomplete.
  - unfold selector_call_on in Hrun.
    cbn [pselector add_event set_trace set_pselector mbind option_bind] in Hrun.
    destruct (IH _ _ _ p c send db Hrun) as (skipped & last & d & Ht & Hsel & Hsk & Hcase);
      [done|done|done|done|].
    exists (i :: skipped), last,
      ([EvSelector (SelPollPiece peer i); EvSelector (SelHavePiece i)] ++ d).
    split; [rewrite Ht; cbn; by rewrite <- !app_assoc|].
    split; [by rewrite selector_calls_app, Hsel|].
    split.
    { constructor; [|done]. split; [done|]. unfold piece_complete_at. by rewrite Hpce. }
    rewrite offered_blocks_app.
    destruct Hcase as [(-> & Ho & Hd)|(pce' & ? & ? & ? & Ho & Hd)].
    + left. by rewrite Ho.
    + right. exists pce'. by rewrite Ho.
  - destruct (request_blocks_result fuel _ _ peer i db pce p c send Hrun)
      as (d & Ht & Ho & Hsel & _ & Hd); try done.
    exists [], i, ([EvSelector (SelPollPiece peer i)] ++ d).
    split; [rewrite Ht; cbn; by rewrite <- !app_assoc|].
    split; [by rewrite selector_calls_app, Hsel|].
    split; [done|]. right. exists pce. rewrite offered_blocks_app, Ho. by repeat split.
Qed.

(** X20.  What one PollBlock job does, however many pieces the selector
    names: for a peer that has its connection, with a piece database and
    [peer_send] installed, [__dispatch_job] polls the selector for that
    peer; each answer that names a complete piece is followed by
    [have_piece] for it and another poll; the job ends either when the
    selector answers -1, having offered nothing and left the database as
    it was, or with the first incomplete piece, all of whose MISSING blocks
    were offered to the peer's connection in offset order and are now
    REQUESTED. *)
Theorem dispatch_job_outcome (fuel : nat) (w w' : bt_dm_private_t)
    (peer : peer_ref) p c send db :
  __dispatch_job fuel w (BT_JOB_POLLBLOCK peer) = Some w' ->
  pdb w = Some db ->
  peers w !! peer = Some p -> pc p = Some c ->
  peer_send (cb w) = Some send ->
  exists skipped last,
    selector_calls (events_since w w')
      = flat_map (fun i => [SelPollPiece peer i; SelHavePiece i]) skipped
        ++ [SelPollPiece peer last] /\
    Forall (fun i => i <> -1 /\ piece_complete_at db i = true) skipped /\
    (last = -1 /\ offered_blocks peer (events_since w w') = [] /\ pdb w' = Some db
     \/
     exists pce,
       last <> -1 /\ db !! last = Some pce /\ bt_piece_is_complete pce = false /\
       offered_blocks peer (events_since w w') = missing_blocks pce /\
       pdb w' = Some (<[last := request_missing pce]> db)).
Proof.
  cbn [__dispatch_job]. intros Hrun Hdb Hp Hc Hsend.
  destruct (poll_pieces_outcome fuel _ _ _ p c send db Hrun)
    as (skipped & last & d & Ht & Hsel & Hsk & Hcase); try done.
  exists skipped, last. erewrite events_since_app by exact Ht. by repeat split.
Qed.

End Jobs.

(** ** What every call keeps *)

Section Invariants.
Context `{Collaborators}.

(** X21.  Neither inbound bytes nor a tick touches the configuration, the
    seeding flag, the timers, the choker's list or the host's callbacks;
    neither hands out a peer reference or adds a peer to the peer manager,
    whose count can only drop; and every peer that is still in the peer
    manager afterwards keeps its id, address and net handle and, once it
    has one, its connection. *)
Theorem inbound_and_tick_keep (w w' : bt_dm_private_t) :
  (exists nh buf r, bt_dm_dispatch_from_buffer w nh buf = Some (w', r)) \/
  (exists fuel stats st', bt_dm_periodic fuel w stats = Some (w', st')) ->
  cfg w' = cfg w /\ am_seeding w' = am_seeding w /\ ticker w' = ticker w /\
  lchoke w' = lchoke w /\ cb w' = cb w /\ next_peer w' = next_peer w /\
  pm w' ⊆ pm w /\
  bt_dm_get_num_peers w' <= bt_dm_get_num_peers w /\
  (forall (r : peer_ref) p,
     r ∈ pm w' -> peers w !! r = Some p ->
     exists p', peers w' !! r = Some p' /\ peer_kept p p').
Proof.
  intros Hrun.
  assert (Hf : dm_frame w w').
  { destruct Hrun as [(nh & buf & r & Hr)|(fuel & stats & st' & Hr)].
    - by apply dm_frame_dispatch_from_buffer in Hr.
    - by apply dm_frame_periodic in Hr. }
  destruct Hf as (Hcfg & Hseed & Htick & Hl & Hcb & Hnext & Hpm & Hkept).
  do 6 (split; [done|]). split; [done|]. split.
  { unfold bt_dm_get_num_peers, bt_peermanager_count.
    apply inj_le. by apply subseteq_size. }
  intros r p _ Hp. specialize (Hkept r). rewrite Hp in Hkept.
  destruct (peers w' !! r) as [p'|]; [|done]. by exists p'.
Qed.

Lemma peers_wf_frame (w w' : bt_dm_private_t) :
  dm_frame w w' -> peers_wf w -> peers_wf w'.
Proof.
  intros (_&_&_&_&_&Hnext&Hpm&Hkept) (Hpc & Hfresh & Hdistinct).
  split; [|split].
  - intros r Hr. apply Hpm, Hpc in Hr as [c Hc].
    apply peer_pc_Some in Hc as (p & Hp & Hc).
    specialize (Hkept r). rewrite Hp in Hkept.
    destruct (peers w' !! r) as [p'|] eqn:Hp'; [|done].
    destruct Hkept as (_&_&_&_&Hk). destruct Hk as [c' Hc']; [by rewrite Hc|].
    exists c'. apply peer_pc_Some. by exists p'.
  - intros r [p' Hp']. rewrite Hnext. apply Hfresh.
    specialize (Hkept r). revert Hkept.
    destruct (peers w !! r) as [p|]; [intros _; by eexists|]. by rewrite Hp'.
  - intros r1 r2 p1' p2' Hr1 Hr2 Hp1' Hp2' Hip Hport.
    pose proof (Hkept r1) as Hk1. pose proof (Hkept r2) as Hk2.
    revert Hk1 Hk2.
    destruct (peers w !! r1) as [p1|] eqn:Hp1; [|by rewrite Hp1'].
    destruct (peers w !! r2) as [p2|] eqn:Hp2; [|by rewrite Hp2'].
    rewrite Hp1', Hp2'. intros Hk1 Hk2.
    destruct Hk1 as (_&Hi1&Ho1&_). destruct Hk2 as (_&Hi2&Ho2&_).
    apply (Hdistinct r1 r2 p1 p2); auto; congruence.
Qed.

Lemma peers_wf_same (w w' : bt_dm_private_t) :
  peers w' = peers w -> pm w' = pm w -> next_peer w' = next_peer w ->
  peers_wf w -> peers_wf w'.
Proof.
  intros Hp Hpm Hn (Hpc & Hfresh & Hdistinct).
  unfold peers_wf, peer_pc. rewrite Hp, Hpm, Hn. by repeat split.
Qed.

Lemma peers_wf_fresh (w : bt_dm_private_t) : peers_wf w -> next_peer w ∉ pm w.
Proof.
  intros (Hpc & Hfresh & _) Hin. apply Hpc in Hin as [c Hc].
  apply peer_pc_Some in Hc as (p & Hp & _).
  assert (next_peer w < next_peer w)%nat by (apply Hfresh; by exists p). lia.
Qed.

(** What a call of [bt_dm_add_peer] keeps. *)
Lemma add_peer_keeps (w w' : bt_dm_private_t) pid a ip_len pt nh res :
  bt_dm_add_peer w pid a ip_len pt nh = Some (w', res) ->
  cfg w' = cfg w /\ cb w' = cb w /\
  am_seeding w' = am_seeding w /\ ticker w' = ticker w /\
  lchoke w `prefix_of` lchoke w' /\
  (peers_wf w -> peers_wf w').
Proof.
  intros Hrun.
  destruct (add_peer_outcome _ _ _ _ _ _ _ _ Hrun)
    as [(_ & -> & _)|(_ & Hdup & n & l & nh' & m' & d & _ & _ & Hp & Hq
        & Hpm & Hnext & Hcfg & Hseed & Htick & Hcb & _ & _ & _ & _ & Hcase)].
  { do 4 (split; [done|]). split; [reflexivity|done]. }
  split; [done|]. split; [done|]. split; [done|]. split; [done|]. split.
  { destruct Hcase as [(_ & -> & _)|(_ & -> & _)]; [by apply prefix_app_r|done]. }
  intros (Hpc & Hfresh & Hdistinct).
  assert (Hnew : peers w !! next_peer w = None).
  { destruct (peers w !! next_peer w) as [p0|] eqn:Hp0; [|done].
    assert (next_peer w < next_peer w)%nat by (apply Hfresh; by exists p0). lia. }
  split; [|split].
  - intros r. rewrite Hpm, elem_of_union, elem_of_singleton.
    unfold peer_pc in *. intros [->|Hr].
    + rewrite Hp. by eexists.
    + rewrite Hq; [by apply Hpc|]. intros ->.
      apply Hpc in Hr as [c Hc]. by rewrite Hnew in Hc.
  - intros r Hr. rewrite Hnext. destruct (decide (r = next_peer w)) as [->|Hne]; [lia|].
    rewrite Hq in Hr by done. apply Hfresh in Hr. lia.
  - assert (Hold : forall r p0, r ∈ pm w -> peers w' !! r = Some p0 ->
                     peers w !! r = Some p0 /\ r <> next_peer w).
    { intros r p0 Hr Hp0. assert (r <> next_peer w).
      { intros ->. apply Hpc in Hr as [c Hc]. unfold peer_pc in Hc.
        by rewrite Hnew in Hc. }
      split; [|done]. by rewrite <- Hq. }
    assert (Hnodup : forall r p0, r ∈ pm w -> peers w !! r = Some p0 ->
                        ~ (ip p0 = a /\ port p0 = pt)).
    { intros r p0 Hr Hp0 Haddr.
      assert (bt_peermanager_contains w a pt = true); [|congruence].
      unfold bt_peermanager_contains. apply existsb_exists. exists r. split.
      - by apply list_elem_of_In, elem_of_elements.
      - unfold peer_has_address. rewrite Hp0. by apply bool_decide_eq_true_2. }
    intros r1 r2 p1 p2. rewrite Hpm, !elem_of_union, !elem_of_singleton.
    intros [->|Hr1] [->|Hr2] Hp1 Hp2 Hip Hport; [done| | |].
    + rewrite Hp in Hp1. injection Hp1 as <-. cbn in Hip, Hport.
      destruct (Hold _ _ Hr2 Hp2) as [Hp2' _].
      by destruct (Hnodup _ _ Hr2 Hp2').
    + rewrite Hp in Hp2. injection Hp2 as <-. cbn in Hip, Hport.
      destruct (Hold _ _ Hr1 Hp1) as [Hp1' _].
      by destruct (Hnodup _ _ Hr1 Hp1').
    + destruct (Hold _ _ Hr1 Hp1) as [Hp1' _].
      destruct (Hold _ _ Hr2 Hp2) as [Hp2' _].
      by apply (Hdistinct r1 r2 p1 p2).
Qed.

Lemma keeps_intro (w w' : bt_dm_private_t) :
  am_seeding w' = am_seeding w -> ticker w' = ticker w -> lchoke w' = lchoke w ->
  (peers_wf w -> peers_wf w') ->
  am_seeding w' = am_seeding w /\ ticker w' = ticker w /\
  lchoke w `prefix_of` lchoke w' /\
  (peers_wf w -> peers_wf w').
Proof.
  intros Hs Ht Hl Hwf. split; [done|]. split; [done|].
  split; [rewrite Hl; reflexivity|done].
Qed.

Lemma frame_keeps (w w' : bt_dm_private_t) :
  dm_frame w w' ->
  am_seeding w' = am_seeding w /\ ticker w' = ticker w /\
  lchoke w `prefix_of` lchoke w' /\
  (peers_wf w -> peers_wf w').
Proof.
  intros Hf. pose proof (peers_wf_frame _ _ Hf) as Hwf.
  destruct Hf as (_ & Hs & Ht & Hl & _). by apply keeps_intro.
Qed.

(** What every call of the interface keeps. *)
Lemma dm_call_run_keeps (w w' : bt_dm_private_t) (c : dm_call) :
  dm_call_run w c = Some w' ->
  am_seeding w' = am_seeding w /\ ticker w' = ticker w /\
  lchoke w `prefix_of` lchoke w' /\
  (peers_wf w -> peers_wf w').
Proof.
  destruct c; cbn [dm_call_run].
  - destruct (bt_dm_add_peer _ _ _ _ _ _) as [[w1 res]|] eqn:Hrun; [|done].
    intros [= <-]. apply add_peer_keeps in Hrun as (_ & _ & ? & ? & ? & ?). done.
  - destruct (bt_dm_remove_peer w peer) as [r|] eqn:Hrun; [|done].
    intros [= <-]. apply dm_frame_remove_peer in Hrun. by apply frame_keeps.
  - destruct (bt_dm_periodic fuel w stats) as [r|] eqn:Hrun; [|done].
    intros [= <-]. apply dm_frame_periodic in Hrun. by apply frame_keeps.
  - destruct (bt_dm_dispatch_from_buffer w nh buf) as [r|] eqn:Hrun; [|done].
    intros [= <-]. apply dm_frame_dispatch_from_buffer in Hrun. by apply frame_keeps.
  - unfold bt_dm_peer_connect.
    destruct (bt_peermanager_nethandle_to_peer w nh) as [peer|].
    + cbn [mbind option_bind fst snd].
      destruct (config_get w "infohash"); [|done]. cbn [mbind option_bind].
      destruct (config_get w "my_peerid"); [|done]. cbn [mbind option_bind].
      destruct (pwp_handshaker_send_handshake _ _ _ _) as [r|] eqn:Hs; [|done].
      intros [= <-]. apply dm_frame_send in Hs. by apply frame_keeps.
    + destruct (bt_dm_add_peer _ _ _ _ _ _) as [[w1 res]|] eqn:Hrun; [|done].
      cbn [mbind option_bind fst snd].
      apply add_peer_keeps in Hrun as (_ & _ & Hs1 & Ht1 & Hl1 & Hwf1).
      assert (Hk : forall w2, dm_frame w1 w2 ->
                am_seeding w2 = am_seeding w /\ ticker w2 = ticker w /\
                lchoke w `prefix_of` lchoke w2 /\ (peers_wf w -> peers_wf w2)).
      { intros w2 Hf. apply frame_keeps in Hf as (Hs2 & Ht2 & Hl2 & Hwf2).
        split; [congruence|]. split; [congruence|]. split; [by etrans|]. auto. }
      destruct res as [peer|].
      * destruct (config_get w1 "infohash"); [|done]. cbn [mbind option_bind].
        destruct (config_get w1 "my_peerid"); [|done]. cbn [mbind option_bind].
        destruct (pwp_handshaker_send_handshake _ _ _ _) as [r|] eqn:Hs; [|done].
        intros [= <-]. apply dm_frame_send in Hs. by apply Hk.
      * destruct (log_defined w1 _); [|done].
        intros [= <-]. apply Hk, dm_frame_log.
  - intros Hrun. apply dm_frame_connect_fail in Hrun. by apply frame_keeps.
  - intros [= <-]. apply keeps_intro; first [done | by apply peers_wf_same].
  - intros [= <-]. apply keeps_intro; first [done | by apply peers_wf_same].
  - intros [= <-]. apply keeps_intro; first [done | by apply peers_wf_same].
  - unfold bt_dm_set_piece_selector, bt_dm_check_pieces.
    destruct (config_get_int _ _) as [n|]; [|done]. cbn [mbind option_bind].
    intros Hrun. apply dm_frame_check_pieces_from, frame_keeps in Hrun
      as (Hs & Ht & Hl & Hwf).
    split; [done|]. split; [done|]. split; [done|].
    intros Hw. apply Hwf. revert Hw. by apply peers_wf_same.
  - unfold bt_dm_check_pieces.
    destruct (config_get_int _ _) as [n|]; [|done]. cbn [mbind option_bind].
    intros Hrun. apply dm_frame_check_pieces_from in Hrun. by apply frame_keeps.
  - intros [= <-]. by apply keeps_intro.
Qed.

Lemma dm_calls_keep (cs : list dm_call) :
  forall w w' : bt_dm_private_t,
  dm_calls w cs = Some w' ->
  am_seeding w' = am_seeding w /\ ticker w' = ticker w /\
  lchoke w `prefix_of` lchoke w' /\
  (peers_wf w -> peers_wf w').
Proof.
  induction cs as [|c cs IH]; intros w w'; cbn [dm_calls].
  - intros [= <-]. by apply keeps_intro.
  - destruct (dm_call_run w c) as [w1|] eqn:Hc; [|done]. cbn [mbind option_bind].
    intros Hrest. apply IH in Hrest as (Hs2 & Ht2 & Hl2 & Hwf2).
    apply dm_call_run_keeps in Hc as (Hs1 & Ht1 & Hl1 & Hwf1).
    split; [congruence|]. split; [congruence|]. split; [by etrans|]. auto.
Qed.

Lemma peers_wf_new : peers_wf bt_dm_new.
Proof.
  split; [|split].
  - intros r Hr. by apply not_elem_of_empty in Hr.
  - intros r [p Hp]. unfold bt_dm_new in Hp. cbn [peers] in Hp.
    by rewrite lookup_empty in Hp.
  - intros r1 r2 p1 p2 Hr1. by apply not_elem_of_empty in Hr1.
Qed.

(** X22.  No function of the download manager sets [am_seeding] or runs a
    timer: after any sequence of calls on a download manager made by
    [bt_dm_new], [am_seeding] is still 0, so [bt_dm_periodic] never takes
    its shutdown branch whatever [shutdown_when_complete] says, and the
    timer still holds exactly the two events that [bt_dm_new] scheduled,
    the reciprocation at 10 and the optimistic unchoke at 30. *)
Theorem never_seeding (cs : list dm_call) (w : bt_dm_private_t) :
  dm_calls bt_dm_new cs = Some w ->
  am_seeding w = 0 /\
  shutting_down w = Some false /\
  ticker w = [(10, LEECHER_PEER_RECIPROCATION); (30, LEECHER_PEER_OPTIMISTIC_UNCHOKE)].
Proof.
  intros Hrun. apply dm_calls_keep in Hrun as (Hs & Ht & _).
  cbn in Hs, Ht. split; [done|]. split; [|done].
  unfold shutting_down. by rewrite Hs.
Qed.

(** X23.  After any sequence of calls on a download manager made by
    [bt_dm_new], the peer manager is sound: every peer it holds has its
    connection object, so the visitors of [bt_dm_periodic] and of the HAVE
    broadcast never read a NULL [pc]; no two peers it holds have the same
    ip and port; and the reference the next peer will get is not in
    use. *)
Theorem peer_manager_sound (cs : list dm_call) (w : bt_dm_private_t) :
  dm_calls bt_dm_new cs = Some w ->
  peers_wf w /\ peers_have_pc w = true /\ (next_peer w ∉ pm w).
Proof.
  intros Hrun. apply dm_calls_keep in Hrun as (_ & _ & _ & Hwf).
  specialize (Hwf peers_wf_new). split; [exact Hwf|]. split.
  - unfold peers_have_pc. apply forallb_forall. intros q Hq.
    apply bool_decide_eq_true_2. destruct Hwf as (Hpc & _).
    by apply Hpc, elem_of_elements, list_elem_of_In.
  - by apply peers_wf_fresh.
Qed.

(** X24.  The choker's list only grows: whatever calls are made, the peers
    that [bt_dm_add_peer] handed to the leeching choker stay in its list in
    the order they were added.  In particular [bt_dm_remove_peer] takes a
    peer out of the peer manager but leaves the choker's list as it is. *)
Theorem choker_list_only_grows (cs : list dm_call) (w w' : bt_dm_private_t) :
  dm_calls w cs = Some w' ->
  lchoke w `prefix_of` lchoke w' /\
  (forall peer w1 r,
     bt_dm_remove_peer w' peer = Some (w1, r) ->
     lchoke w1 = lchoke w' /\ (peer ∉ pm w1)).
Proof.
  intros Hrun. split; [by apply dm_calls_keep in Hrun as (_ & _ & ? & _)|].
  intros peer w1 r Hr. split.
  - by apply dm_frame_remove_peer in Hr as (_&_&_&?&_).
  - apply remove_peer_gone in Hr as [Hpm _]. cbn [fst] in Hpm.
    rewrite Hpm, elem_of_difference, elem_of_singleton. by intros [_ Hne].
Qed.

End Invariants.

(** ** A bitfield that cannot be sent *)

Section SendFailure.
Context `{Collaborators}.

(** The handshake block when the handshaker is done and the bitfield
    cannot be sent: the peer is removed. *)
Lemma handle_handshake_send_failed (w : bt_dm_private_t) peer buf p c h h' rest n send r :
  peer ∈ pm w ->
  peers w !! peer = Some p ->
  pc p = Some c ->
  mh p = Some (Handshaker h) ->
  pwp_handshaker_dispatch_from_buffer h buf = (1, h', rest) ->
  config_get_int w "npieces" = Some n ->
  peer_send (cb w) = Some send ->
  send (nethandle p) (MsgBitfield (sc_bitfield n (pieces_completed w))) = 0 ->
  handle_handshake w peer buf = Some r ->
  r.2 = Some rest /\ (peer ∉ pm r.1) /\
  exists d, trace r.1 = trace w ++ d /\ forallb handshake_event d = true /\
            SelRemovePeer peer ∈ selector_calls d.
Proof.
  intros Hin Hp Hc Hmh Hhs Hn Hsend Hfail.
  unfold handle_handshake. rewrite Hp. cbn [mbind option_bind].
  rewrite Hmh. cbn [mbind option_bind]. rewrite Hhs.
  change (1 =? 1) with true. cbv iota.
  set (w0 := add_event (EvHandshakerDispatch peer buf) _).
  assert (Hpc0 : peer_pc w0 peer = Some c).
  { subst w0. unfold peer_pc.
    cbn [peers add_event set_trace set_peer_mh set_peers].
    by rewrite lookup_alter_eq, Hp. }
  rewrite Hpc0. cbn [mbind option_bind].
  set (w3 := set_peer_pc peer _ _).
  set (w4 := __log w3 "send,bitfield").
  assert (H4 : cfg w4 = cfg w /\ pieces_completed w4 = pieces_completed w /\
               cb w4 = cb w /\ pm w4 = pm w /\
               (nethandle <$> peers w4 !! peer) = Some (nethandle p) /\
               extends handshake_event w w4).
  { subst w4. rewrite log_trace. subst w3 w0.
    cbn [cfg pieces_completed cb pm peers trace add_event set_trace set_peer_mh
         set_peer_pc set_peers].
    do 4 (split; [reflexivity|]). split.
    - rewrite !lookup_alter_eq, Hp. reflexivity.
    - eexists. split; [rewrite <- !app_assoc; reflexivity|].
      rewrite !forallb_app. unfold log_events. by destruct (log _). }
  destruct H4 as (Hcfg4 & Hsc4 & Hcb4 & Hpm4 & Hnh4 & Hext4).
  unfold config_get_int in *. rewrite Hcfg4, Hn. cbn [mbind option_bind].
  unfold pwp_send_bitfield, __FUNC_peerconn_send_to_peer.
  destruct (peers w4 !! peer) as [p4|] eqn:Hp4; [|done].
  injection Hnh4 as Hnh4. cbn [mbind option_bind].
  rewrite Hcb4, Hsend, Hsc4, Hnh4. cbn [mbind option_bind fst snd].
  rewrite Hfail. change (0 =? 0) with true. cbv iota.
  destruct (bt_dm_remove_peer _ peer) as [res|] eqn:Hr; [|done].
  cbn [fmap option_fmap option_map mbind option_bind]. intros [= <-]. cbn [fst snd].
  split; [done|].
  pose proof (remove_peer_gone _ _ _ Hr) as [Hpm _].
  split.
  { rewrite Hpm, elem_of_difference, elem_of_singleton. by intros [_ Hne]. }
  revert Hr. unfold bt_dm_remove_peer, bt_peermanager_remove_peer.
  rewrite decide_True by (cbn [pm add_event set_trace]; by rewrite Hpm4).
  change (1 =? 0) with false. cbv iota.
  unfold selector_call_on. cbn [pselector set_pm add_event set_trace].
  destruct (pselector w4) as [s|]; [|done]. cbn [mbind option_bind].
  intros [= <-]. cbn [fst trace add_event set_trace set_pselector set_pm].
  destruct Hext4 as (d4 & Ht4 & Hd4).
  exists (d4 ++ [EvPeerSend peer (nethandle p)
                   (MsgBitfield (sc_bitfield n (pieces_completed w)))]
             ++ [EvSelector (SelRemovePeer peer)]).
  split; [by rewrite Ht4, <- !app_assoc|]. split.
  - by rewrite !forallb_app, Hd4.
  - rewrite !selector_calls_app. apply elem_of_app. right.
    apply elem_of_app. right. apply list_elem_of_singleton. reflexivity.
Qed.

(** X25.  When the handshake of a peer completes but the bitfield cannot
    be sent ([peer_send] answers 0), [bt_dm_dispatch_from_buffer] removes
    the peer and tells the selector, and then still hands the rest of the
    bytes to the message handler of the removed peer and answers 1. *)
Theorem bitfield_send_failure (w w' : bt_dm_private_t) (nh : Z) (buf : list Z)
    peer p c h h' rest n send (r : Z) :
  bt_peermanager_nethandle_to_peer w nh = Some peer ->
  peers w !! peer = Some p ->
  pc p = Some c ->
  mh p = Some (Handshaker h) ->
  pwp_conn_flag_is_set c PC_HANDSHAKE_RECEIVED = false ->
  pwp_handshaker_dispatch_from_buffer h buf = (1, h', rest) ->
  config_get_int w "npieces" = Some n ->
  peer_send (cb w) = Some send ->
  send (nethandle p) (MsgBitfield (sc_bitfield n (pieces_completed w))) = 0 ->
  bt_dm_dispatch_from_buffer w nh buf = Some (w', r) ->
  r = 1 /\ (peer ∉ pm w') /\
  SelRemovePeer peer ∈ selector_calls (events_since w w') /\
  msghandler_dispatches (events_since w w') = [(peer, rest)].
Proof.
  intros Hnh Hp Hc Hmh Hflag Hhs Hn Hsend Hfail.
  pose proof (nethandle_to_peer_elem _ _ _ Hnh) as [Hin _].
  unfold bt_dm_dispatch_from_buffer. rewrite Hnh.
  unfold peer_pc at 1. rewrite Hp. cbn [mbind option_bind]. rewrite Hc.
  cbn [mbind option_bind]. rewrite Hflag. cbn [negb].
  destruct (handle_handshake w peer buf) as [hr|] eqn:Hh; [|done].
  cbn [mbind option_bind].
  destruct (handle_handshake_send_failed _ _ _ _ _ _ _ _ _ _ _
              Hin Hp Hc Hmh Hhs Hn Hsend Hfail Hh)
    as (Hrest & Hgone & d0 & Ht0 & Hd0 & Hsel).
  rewrite Hrest.
  destruct (handle_messages hr.1 peer rest) as [w1|] eqn:Hm; [|done].
  cbn [mbind option_bind]. intros [= <- <-]. split; [done|].
  pose proof (dm_frame_handle_messages _ _ _ _ Hm) as (_&_&_&_&_&_&Hpm&_).
  apply handle_messages_trace in Hm
    as (?&?&?&?&?&?&?& d & _ & _ & _ & _ & Ht & Hd & _).
  split; [by intros Hw; apply Hgone, Hpm|].
  erewrite events_since_app by (rewrite Ht, Ht0, <- app_assoc; reflexivity).
  split.
  - rewrite selector_calls_app. apply elem_of_app. by left.
  - rewrite msghandler_dispatches_app, msghandler_dispatches_cons.
    by rewrite (handshake_events_quiet d0), (callback_events_no_dispatch d).
Qed.

End SendFailure.


(** * The reference run *)

Import Reference Scenario.

(** The states of the scenario are reached: no step of the runs stops. *)
Lemma scenario_runs :
  dm_peer_added = Some w_added /\
  dm_connected = Some w_connected /\
  dm_two_blocks = Some w_two_blocks.
Proof. repeat split; vm_compute; reflexivity. Qed.


(** Peer A's state refuses the default own address and A's address. *)
Lemma add_peer_refuses_witness :
  bt_dm_add_peer w_added "" "127.0.0.1" 9 6881 0 = Some (w_added, None) /\
  bt_dm_add_peer w_added "" "10.0.0.2" 8 7001 0 = Some (w_added, None).
Proof.
  split.
  - apply (add_peer_refuses w_added "" "127.0.0.1" 9 6881 0 "127.0.0.1" "6881");
      [reflexivity | reflexivity | left; split; reflexivity].
  - apply (add_peer_refuses w_added "" "10.0.0.2" 8 7001 0 "127.0.0.1" "6881");
      [reflexivity | reflexivity | right; vm_compute; reflexivity].
Defined.

(** A block of length -1 given back by peer A. *)
Lemma giveback_block_negative_len_witness :
  len (mk_block 0 0 (-1)) < 0 /\
  __FUNC_peerconn_giveback_block w_connected 0%nat (mk_block 0 0 (-1))
  = Some w_connected.
Proof.
  split; [cbn; lia|].
  apply (giveback_block_negative_len w_connected 0%nat (mk_block 0 0 (-1))).
  cbn. lia.
Defined.

(** The choker's view of peer A once connected. *)
Lemma choker_peer_interface_witness :
  __get_drate w_connected 0%nat = Some (w_connected, 0) /\
  __get_urate w_connected 0%nat = Some (w_connected, 0) /\
  __get_is_interested w_connected 0%nat = Some (w_connected, 0) /\
  __choke_peer w_connected 0%nat
    = Some (add_event (EvPeerSend 0%nat 7001 MsgChoke) w_connected, 0) /\
  __unchoke_peer w_connected 0%nat
    = Some (add_event (EvPeerSend 0%nat 7001 MsgUnchoke) w_connected, 0).
Proof.
  destruct (choker_peer_interface w_connected 0%nat) as (Hd & Hu & Hrest).
  split; [exact Hd|]. split; [exact Hu|].
  edestruct Hrest as (Hi & Hc & Hn); [vm_compute; reflexivity ..|].
  split; [exact Hi|]. split; [exact Hc | exact Hn].
Defined.

(** Peer A delivers the last block with the right bytes: one HAVE to A,
    none to a peer that does not exist. *)
Lemma pushblock_complete_broadcast_witness :
  exists w',
    __FUNC_peerconn_pushblock w_two_blocks 0%nat block2 [3] = Some (w', 1) /\
    sc_have (pieces_completed w') 0 = true /\
    selector_calls (events_since w_two_blocks w') = [SelHavePiece 0] /\
    sends_to 0%nat (events_since w_two_blocks w') = [MsgHave 0] /\
    sends_to 1%nat (events_since w_two_blocks w') = [].
Proof.
  edestruct (pushblock_complete_broadcast w_two_blocks 0%nat block2 [3])
    as (w' & Hrun & Hsc & _ & Hsel & Hsends);
    [vm_compute; reflexivity ..|].
  exists w'. split; [exact Hrun|]. split; [exact Hsc|]. split; [exact Hsel|].
  split; [exact (Hsends 0%nat) | exact (Hsends 1%nat)].
Defined.

(** Peer A's handshake arrives in one buffer. *)
Lemma handshake_completion_witness :
  exists w1,
    handle_handshake w_added 0%nat handshake_bytes = Some (w1, Some []) /\
    peer_flag w_added 0%nat PC_HANDSHAKE_RECEIVED = false /\
    peer_flag w1 0%nat PC_HANDSHAKE_RECEIVED = true /\
    (mh <$> peers w1 !! 0%nat) = Some (Some (MsgHandler pwp_msghandler_new)) /\
    events_since w_added w1
    = [EvHandshakerDispatch 0%nat handshake_bytes; EvHandshakerRelease 0%nat;
       EvMsgHandlerNew 0%nat; EvLog "-YT0001-000000000000,send,bitfield";
       EvPeerSend 0%nat 7001 (MsgBitfield [false])].
Proof.
  edestruct (handshake_completion w_added 7001 handshake_bytes 0%nat)
    as (w1 & tail & Hh & _ & Hp & Hf & Hev & Htail);
    [vm_compute; reflexivity .. | left; vm_compute; discriminate |].
  exists w1. split; [exact Hh|]. split; [reflexivity|]. split; [exact Hf|].
  split; [exact (f_equal (fmap mh) Hp)|].
  rewrite Hev, Htail by (vm_compute; discriminate). reflexivity.
Defined.

(** The job queued for peer A offers the three blocks of the piece
    although [max_pending_requests] is 2. *)
Lemma pollblock_offers_every_missing_block_witness :
  config_get_int w_connected "max_pending_requests" = Some 2 /\
  exists w',
    __dispatch_job 10 w_connected (BT_JOB_POLLBLOCK 0%nat) = Some w' /\
    offered_blocks 0%nat (events_since w_connected w') = [block0; block1; block2] /\
    (map fst <$> (blocks <$> piece_at w' 0)) = Some [REQUESTED; REQUESTED; REQUESTED].
Proof.
  split; [reflexivity|].
  edestruct (pollblock_offers_every_missing_block 10 w_connected 0%nat)
    as (w' & Hrun & _ & Hoff & Hpiece & _);
    [vm_compute; reflexivity | vm_compute; reflexivity | discriminate
    | vm_compute; reflexivity .. | cbn; lia |].
  exists w'. split; [exact Hrun|]. split; [exact Hoff|]. by rewrite Hpiece.
Defined.
(** The sequential selector, fed by peer A's HAVE of piece 0 and told of
    no complete piece, answers piece 0 or -1. *)
Lemma reference_selector_offers :
  selector_offers
    (fun s => sel_have s = [] /\ sel_peers s = [(0%nat, []); (0%nat, [0])])
    {[ 0 := piece0 ]}.
Proof.
  intros s p [Hh Hp].
  assert (Hinc : incomplete_at {[ 0 := piece0 ]} 0) by (by exists piece0).
  assert (He : eligible s p = [0] \/ eligible s p = []).
  { unfold eligible, peer_pieces. rewrite Hp. cbn.
    repeat case_decide; cbn; repeat case_decide; auto. }
  change (ips_poll_piece s p) with (seq_poll_piece s p). unfold seq_poll_piece.
  destruct He as [-> | ->]; cbn; auto.
Qed.

(** The periodic step of the reference connection only asks for blocks. *)
Lemma reference_periodic_callbacks (c : pwp_conn) :
  Forall periodic_callback (pwp_conn_periodic c).2.
Proof.
  change (pwp_conn_periodic c) with (conn_periodic c). unfold conn_periodic.
  destruct (_ && _); cbn [snd]; repeat constructor.
Qed.

(** A tick when shutting down, and a tick with one job queued, which
    returns for every fuel from some bound on. *)
Lemma periodic_tick_witness :
  jobs w_seeding = [BT_JOB_POLLBLOCK 0%nat] /\
  bt_dm_periodic 10 w_seeding None = Some (w_seeding, None) /\
  jobs w_connected = [BT_JOB_POLLBLOCK 0%nat] /\
  (exists w1 w',
     bt_dm_periodic 10 w_connected None = Some (w', None) /\
     process_jobs 10 w_connected = Some w1 /\
     jobs w1 = [] /\
     polled_jobs (events_since w_connected w1) = [Some (BT_JOB_POLLBLOCK 0%nat)] /\
     pc_periodic_calls (events_since w1 w') = [0%nat]) /\
  exists fuel0, forall fuel, (fuel0 <= fuel)%nat ->
    exists w1 w' st',
      bt_dm_periodic fuel w_connected None = Some (w', st') /\
      process_jobs fuel w_connected = Some w1 /\
      jobs w1 = [] /\
      polled_jobs (events_since w_connected w1) = [Some (BT_JOB_POLLBLOCK 0%nat)].
Proof.
  split; [reflexivity|]. split.
  { destruct (periodic_tick 10 w_seeding None) as [Hshut _].
    rewrite Hshut by reflexivity. reflexivity. }
  split; [reflexivity|].
  destruct (periodic_tick 10 w_connected None) as (_ & Hrun & Htot).
  split.
  { set (w1 := default bt_dm_new (process_jobs 10 w_connected)).
    set (w' := default bt_dm_new (fst <$> bt_dm_periodic 10 w_connected None)).
    assert (Hrun0 : bt_dm_periodic 10 w_connected None = Some (w', None))
      by (vm_compute; reflexivity).
    assert (Hj0 : process_jobs 10 w_connected = Some w1) by (vm_compute; reflexivity).
    destruct (Hrun eq_refl w' None Hrun0)
      as (w1' & Hj & Hjobs & Hpolled & _ & _ & _ & Hcalls & _).
    assert (w1' = w1) as -> by congruence.
    exists w1, w'. split; [exact Hrun0|].
    split; [exact Hj|]. split; [exact Hjobs|]. split; [exact Hpolled|].
    rewrite Hcalls. vm_compute. reflexivity. }
  apply (Htot (fun s => sel_have s = [] /\ sel_peers s = [(0%nat, []); (0%nat, [0])])
              (mk_sel [] [(0%nat, []); (0%nat, [0])] [])
              {[ 0 := piece0 ]} (fun _ _ => 1)).
  - reflexivity.
  - reflexivity.
  - reflexivity.
  - reflexivity.
  - split; reflexivity.
  - vm_compute. reflexivity.
  - exact reference_selector_offers.
  - change (jobs w_connected) with [BT_JOB_POLLBLOCK 0%nat].
    constructor; [|constructor].
    exists 0%nat. split; [reflexivity|]. eexists. vm_compute. reflexivity.
  - vm_compute. reflexivity.
  - exact reference_periodic_callbacks.
Defined.

(** Peer A's connection asks for blocks; the next tick polls for it. *)
Lemma pollblock_deferred_to_drain_witness :
  exists w1 w2,
    __FUNC_peerconn_pollblock w_two_blocks 0%nat = Some (w1, 0) /\
    pselector w1 = pselector w_two_blocks /\
    jobs w1 = jobs w_two_blocks ++ [BT_JOB_POLLBLOCK 0%nat] /\
    selector_calls (events_since w_two_blocks w1) = [] /\
    bt_dm_periodic 10 w1 None = Some (w2, None) /\
    polls_follow_job None (events_since w1 w2) = true /\
    polled_jobs (events_since w1 w2)
    = [Some (BT_JOB_POLLBLOCK 0%nat); Some (BT_JOB_POLLBLOCK 0%nat)].
Proof.
  destruct pollblock_deferred_to_drain as (Hpoll & _ & Hdrain).
  eexists. eexists. split; [apply Hpoll; reflexivity|].
  split; [reflexivity|]. split; [reflexivity|]. split; [reflexivity|].
  assert (Hrun : bt_dm_periodic 10
            (set_jobs (jobs w_two_blocks ++ [BT_JOB_POLLBLOCK 0%nat])
               (add_event (EvCallExclusively OFFER_JOB
                             (Some (BT_JOB_POLLBLOCK 0%nat)) None) w_two_blocks))
            None
          = Some (default bt_dm_new
                    (fst <$> bt_dm_periodic 10
                       (set_jobs (jobs w_two_blocks ++ [BT_JOB_POLLBLOCK 0%nat])
                          (add_event (EvCallExclusively OFFER_JOB
                                        (Some (BT_JOB_POLLBLOCK 0%nat)) None)
                             w_two_blocks)) None), None))
    by (vm_compute; reflexivity).
  split; [exact Hrun|]. split.
  - exact (proj1 (Hdrain _ _ _ _ _ Hrun)).
  - vm_compute. reflexivity.
Defined.

(** C2, as stated, fails: with a ceiling of two pending requests and none
    outstanding, one PollBlock job offers all three blocks of the piece. *)
Lemma pollblock_exceeds_ceiling :
  config_get_int w_connected "max_pending_requests" = Some 2 /\
  (pending_requests <$> peer_pc w_connected 0%nat) = Some [] /\
  exists w',
    __dispatch_job 10 w_connected (BT_JOB_POLLBLOCK 0%nat) = Some w' /\
    offered_blocks 0%nat (events_since w_connected w') = [block0; block1; block2] /\
    (pending_requests <$> peer_pc w' 0%nat) = Some [block0; block1; block2] /\
    ~ (Z.of_nat (length (offered_blocks 0%nat (events_since w_connected w'))) <= 2).
Proof.
  split; [reflexivity|]. split; [reflexivity|].
  eexists. split; [vm_compute; reflexivity|].
  split; [vm_compute; reflexivity|]. split; [vm_compute; reflexivity|].
  vm_compute. intros Hle. apply Hle. reflexivity.
Qed.

(** C4, as stated, fails: a peer that has not completed its handshake is
    in the peer manager and a tick does not run the periodic step of its
    connection. *)
Lemma periodic_skips_peer_before_handshake :
  elements (pm w_added) = [0%nat] /\
  am_seeding w_added = 0 /\
  peer_flag w_added 0%nat PC_HANDSHAKE_RECEIVED = false /\
  exists w',
    bt_dm_periodic 10 w_added None = Some (w', None) /\
    pc_periodic_calls (events_since w_added w') = [] /\
    ~ (forall q, q ∈ elements (pm w_added) ->
                 q ∈ pc_periodic_calls (events_since w_added w')).
Proof.
  split; [vm_compute; reflexivity|]. split; [reflexivity|].
  split; [vm_compute; reflexivity|].
  eexists. split; [vm_compute; reflexivity|].
  split; [vm_compute; reflexivity|].
  intros Hall. specialize (Hall 0%nat).
  assert (Hin : 0%nat ∈ elements (pm w_added)).
  { replace (elements (pm w_added)) with [0%nat] by (vm_compute; reflexivity).
    apply list_elem_of_singleton. reflexivity. }
  apply Hall in Hin. vm_compute in Hin. by apply not_elem_of_nil in Hin.
Qed.

(** C1, on the code.  Peer A is the only contributor to piece 0 and
    delivers a last block whose bytes make the SHA-1 check fail:
    [bt_piece_write_block] answers -1, A is banned, but the download
    progress of the piece is not dropped (its three blocks stay RECEIVED)
    and the selector is not told to take the piece back, so a later
    PollBlock job gets -1 from the selector and offers nothing. *)
Lemma pushblock_corrupt_single_source :
  dm_two_blocks = Some w_two_blocks /\
  exists w',
    __FUNC_peerconn_pushblock w_two_blocks 0%nat block2 [4] = Some (w', 1) /\
    bt_blacklist_is_banned (blacklist w') 0%nat = true /\
    (piece_peers <$> piece_at w' 0) = Some [0%nat] /\
    (map fst <$> (blocks <$> piece_at w' 0)) = Some [RECEIVED; RECEIVED; RECEIVED] /\
    selector_calls (events_since w_two_blocks w') = [] /\
    pselector w' = pselector w_two_blocks /\
    exists w'',
      __dispatch_job 10 w' (BT_JOB_POLLBLOCK 0%nat) = Some w'' /\
      selector_calls (events_since w' w'') = [SelPollPiece 0%nat (-1)] /\
      offered_blocks 0%nat (events_since w' w'') = [].
Proof.
  split; [vm_compute; reflexivity|].
  eexists. split; [vm_compute; reflexivity|].
  repeat (split; [vm_compute; reflexivity|]).
  eexists. split; [vm_compute; reflexivity|].
  split; vm_compute; reflexivity.
Qed.

(** ** Runs for the further properties *)

(** "a+b" decodes to "a b". *)
Lemma url_decode_plain_witness :
  Url.url_decode [97; 43; 98] = [97; 32; 98] /\ 43 ∉ Url.url_decode [97; 43; 98].
Proof.
  apply (url_decode_plain [97; 43; 98]). repeat constructor; lia.
Defined.

(** Two strings with the encoding "a%20". *)
Lemma url_encode_injective_witness :
  Url.url_encode [97; 32] = [97; 37; 50; 48] /\ [97; 32] = [97; 32].
Proof.
  split; [reflexivity|].
  apply (url_encode_injective [97; 32] [97; 32]);
    [repeat constructor; unfold Url.is_char; lia
    |repeat constructor; unfold Url.is_char; lia
    |reflexivity].
Defined.

(** Peer A is removed; a peer that the peer manager does not hold is not. *)
Lemma remove_peer_once_witness :
  (exists w1,
     bt_dm_remove_peer w_added 0%nat = Some (w1, 1) /\
     bt_dm_get_num_peers w_added = 1 /\
     bt_dm_get_num_peers w1 = 0 /\
     events_since w_added w1 = [EvSelector (SelRemovePeer 0%nat)]) /\
  (exists w1,
     bt_dm_remove_peer w_added 5%nat = Some (w1, 0) /\
     bt_dm_get_num_peers w1 = 1 /\
     events_since w_added w1
     = [EvLog "-YT0001-000000000000,ERROR,couldn't remove peer"]).
Proof.
  split.
  - edestruct (remove_peer_once w_added 0%nat) as [Hin _]; [vm_compute; reflexivity|].
    edestruct Hin as (w1 & Hrun & _ & Hn & _ & Hev); [vm_compute; reflexivity|].
    exists w1. split; [exact Hrun|]. split; [vm_compute; reflexivity|].
    split; [rewrite Hn; vm_compute; reflexivity|exact Hev].
  - edestruct (remove_peer_once w_added 5%nat) as [_ Hout]; [vm_compute; reflexivity|].
    edestruct Hout as (w1 & Hrun & _ & Hn & _ & Hev & _);
      [apply (bool_decide_unpack _); vm_compute; exact I|].
    exists w1. split; [exact Hrun|].
    split; [rewrite Hn; vm_compute; reflexivity|].
    rewrite Hev. vm_compute. reflexivity.
Defined.


(** The connection to peer A fails; no peer has net handle 9. *)
Lemma connect_fail_marks_peer_witness :
  bt_dm_peer_connect_fail w_added 9 = Some w_added /\
  exists w',
    bt_dm_peer_connect_fail w_added 7001 = Some w' /\
    peer_flag w_added 0%nat PC_FAILED_CONNECTION = false /\
    peer_flag w' 0%nat PC_FAILED_CONNECTION = true /\
    __FUNC_peer_periodic w' 0%nat = Some w'.
Proof.
  split.
  - apply (proj1 (connect_fail_marks_peer w_added 9)). vm_compute. reflexivity.
  - edestruct (proj2 (connect_fail_marks_peer w_added 7001) 0%nat)
      as (w' & Hrun & _ & Hflag & _ & _ & _ & _ & Hstep & _);
      [vm_compute; reflexivity ..|].
    exists w'. split; [exact Hrun|]. split; [vm_compute; reflexivity|].
    split; [exact Hflag|exact Hstep].
Defined.

(** Bytes for an unknown net handle, and a KEEP_ALIVE from peer A. *)
Lemma dispatch_from_buffer_result_witness :
  bt_dm_dispatch_from_buffer w_added 9 [0; 0; 0; 0] = Some (w_added, 0) /\
  exists w',
    bt_dm_dispatch_from_buffer w_connected 7001 [0; 0; 0; 0] = Some (w', 1) /\
    exists rest,
      msghandler_dispatches (events_since w_connected w') = [(0%nat, rest)].
Proof.
  split; [vm_compute; reflexivity|].
  exists (default bt_dm_new
            (fst <$> bt_dm_dispatch_from_buffer w_connected 7001 [0; 0; 0; 0])).
  assert (Hrun : bt_dm_dispatch_from_buffer w_connected 7001 [0; 0; 0; 0]
                 = Some (default bt_dm_new
                           (fst <$> bt_dm_dispatch_from_buffer w_connected 7001
                                      [0; 0; 0; 0]), 1))
    by (vm_compute; reflexivity).
  split; [exact Hrun|].
  destruct (dispatch_from_buffer_result _ _ _ _ _ Hrun)
    as (_ & [(Hz & _)|(_ & peer & rest & Hpeer & Hd)]); [discriminate Hz|].
  exists rest. rewrite Hd. f_equal. f_equal.
  assert (Hp0 : bt_peermanager_nethandle_to_peer w_connected 7001 = Some 0%nat)
    by (vm_compute; reflexivity).
  congruence.
Defined.

(** The first byte of peer A's handshake arrives alone. *)
Lemma handshake_not_done_witness :
  exists w',
    bt_dm_dispatch_from_buffer w_added 7001 [19] = Some (w', 0) /\
    events_since w_added w' = [EvHandshakerDispatch 0%nat [19]] /\
    0%nat ∈ pm w' /\
    peer_flag w' 0%nat PC_HANDSHAKE_RECEIVED = false.
Proof.
  edestruct (handshake_not_done w_added 7001 [19] 0%nat)
    as (w' & Hrun & _ & Hev & _ & Hin & _ & Hflag);
    [vm_compute; reflexivity ..|discriminate|].
  exists w'. split; [exact Hrun|]. split; [exact Hev|]. split; [exact Hin|exact Hflag].
Defined.

(** Peer A sends a message of an unknown type. *)
Lemma bad_message_disconnects_witness :
  0%nat ∈ pm w_connected /\
  exists w',
    bt_dm_dispatch_from_buffer w_connected 7001 [0; 0; 0; 1; 9] = Some (w', 1) /\
    (0%nat ∉ pm w').
Proof.
  split; [vm_compute; reflexivity|].
  exists (default bt_dm_new
            (fst <$> bt_dm_dispatch_from_buffer w_connected 7001 [0; 0; 0; 1; 9])).
  assert (Hrun : bt_dm_dispatch_from_buffer w_connected 7001 [0; 0; 0; 1; 9]
                 = Some (default bt_dm_new
                           (fst <$> bt_dm_dispatch_from_buffer w_connected 7001
                                      [0; 0; 0; 1; 9]), 1))
    by (vm_compute; reflexivity).
  split; [exact Hrun|].
  refine (proj1 (proj2 (bad_message_disconnects w_connected _ 7001 [0; 0; 0; 1; 9]
                          0%nat _ _ _ _ _ _ 1 _ _ _ _ _ _ Hrun)));
    vm_compute; reflexivity.
Defined.


(** A peer is added to a download manager whose host set no callbacks. *)
Lemma add_peer_failed_connect_keeps_peer_witness :
  exists w',
    bt_dm_add_peer bt_dm_new "" "10.0.0.2" 8 7001 0 = Some (w', None) /\
    0%nat ∈ pm w' /\
    bt_dm_add_peer w' "" "10.0.0.2" 8 7001 0 = Some (w', None).
Proof.
  edestruct (add_peer_failed_connect_keeps_peer bt_dm_new "" "10.0.0.2" 8 7001 0)
    as (w' & Hrun & Hin & _ & _ & _ & _ & Hagain);
    [vm_compute; reflexivity ..|left; reflexivity|].
  exists w'. split; [exact Hrun|]. split; [exact Hin|exact Hagain].
Defined.


(** Statistics for one peer, into an empty statistics object. *)
Lemma collect_stats_fills_witness :
  exists s',
    collect_stats w_added (Some (mk_stats 0 0 [])) = Some (Some s') /\
    npeers s' = 1 /\ npeers_size s' = 1 /\
    st_peers s' !! 0%nat = Some (peer_stats w_added 0%nat).
Proof.
  edestruct (collect_stats_fills w_added (mk_stats 0 0 []))
    as (s' & Hrun & Hn & Hsz & _ & Hfill & _);
    [apply (bool_decide_unpack _); vm_compute; exact I|reflexivity|].
  exists s'. split; [exact Hrun|]. split; [rewrite Hn; vm_compute; reflexivity|].
  split; [rewrite Hsz; vm_compute; reflexivity|].
  apply Hfill. vm_compute. reflexivity.
Defined.

(** The selector is installed over a database with piece 0 complete. *)
Lemma set_piece_selector_scans_witness :
  exists w',
    bt_dm_set_piece_selector Cases.w_resumed None = Some w' /\
    selector_calls (events_since Cases.w_resumed w') = [SelHavePiece 0] /\
    sc_have (pieces_completed w') 0 = true /\
    sc_have (pieces_completed w') 1 = false.
Proof.
  edestruct (set_piece_selector_scans Cases.w_resumed None)
    as (w' & Hrun & Hsel & _ & Hsc & _);
    [vm_compute; reflexivity ..|].
  exists w'. split; [exact Hrun|]. split; [rewrite Hsel; vm_compute; reflexivity|].
  split; rewrite Hsc; vm_compute; reflexivity.
Defined.

(** Peer 1 delivers a bad last block of the piece peer A began. *)
Lemma pushblock_invalid_shared_witness :
  exists w',
    __FUNC_peerconn_pushblock w_two_blocks 1%nat block2 [9] = Some (w', 1) /\
    (exists e, e ∈ blacklist w' /\ bl_peer e = 0%nat /\ bl_piece e = 0) /\
    (exists e, e ∈ blacklist w' /\ bl_peer e = 1%nat /\ bl_piece e = 0) /\
    selector_calls (events_since w_two_blocks w') = [SelPeerGivebackPiece None 0].
Proof.
  edestruct (pushblock_invalid_shared w_two_blocks 1%nat block2 [9])
    as (w' & Hrun & _ & _ & _ & Hadd & _ & Hsel & _);
    [vm_compute; reflexivity ..|vm_compute; discriminate|vm_compute; reflexivity|].
  exists w'. split; [exact Hrun|].
  split; [apply Hadd; apply (bool_decide_unpack _); vm_compute; exact I|].
  split; [apply Hadd; apply (bool_decide_unpack _); vm_compute; exact I|].
  exact Hsel.
Defined.

(** A block of piece 5, which the database lacks. *)
Lemma missing_piece_behaviour_witness :
  __FUNC_peerconn_pushblock w_added 0%nat (mk_block 5 0 16384) [1] = None /\
  __FUNC_peerconn_giveback_block w_added 0%nat (mk_block 5 0 16384) = None /\
  exists line,
    __FUNC_peerconn_write_block_to_stream w_added (mk_block 5 0 16384)
    = Some (set_trace (trace w_added ++ line) w_added).
Proof.
  edestruct (missing_piece_behaviour w_added 0%nat (mk_block 5 0 16384) [1])
    as ((line & Hrun & _) & Hstop);
    [vm_compute; reflexivity|].
  destruct Hstop as [Hpush Hgive]; [vm_compute; reflexivity|].
  split; [exact Hpush|]. split; [apply Hgive; vm_compute; discriminate|].
  exists line. exact Hrun.
Defined.

(** The job that peer A's UNCHOKE queued. *)
Lemma dispatch_job_outcome_witness :
  exists w',
    __dispatch_job 10 w_connected (BT_JOB_POLLBLOCK 0%nat) = Some w' /\
    exists skipped last,
      selector_calls (events_since w_connected w')
      = flat_map (fun i => [SelPollPiece 0%nat i; SelHavePiece i]) skipped
        ++ [SelPollPiece 0%nat last].
Proof.
  exists (default bt_dm_new (__dispatch_job 10 w_connected (BT_JOB_POLLBLOCK 0%nat))).
  assert (Hrun : __dispatch_job 10 w_connected (BT_JOB_POLLBLOCK 0%nat)
                 = Some (default bt_dm_new
                           (__dispatch_job 10 w_connected (BT_JOB_POLLBLOCK 0%nat))))
    by (vm_compute; reflexivity).
  split; [exact Hrun|].
  edestruct (dispatch_job_outcome 10 w_connected)
    as (skipped & last & Hsel & _);
    [exact Hrun|vm_compute; reflexivity ..|].
  exists skipped, last. exact Hsel.
Defined.

(** A KEEP_ALIVE from peer A. *)
Lemma inbound_and_tick_keep_witness :
  exists w',
    bt_dm_dispatch_from_buffer w_connected 7001 [0; 0; 0; 0] = Some (w', 1) /\
    cfg w' = cfg w_connected /\
    pm w' ⊆ pm w_connected /\
    bt_dm_get_num_peers w' <= bt_dm_get_num_peers w_connected.
Proof.
  exists (default bt_dm_new
            (fst <$> bt_dm_dispatch_from_buffer w_connected 7001 [0; 0; 0; 0])).
  assert (Hrun : bt_dm_dispatch_from_buffer w_connected 7001 [0; 0; 0; 0]
                 = Some (default bt_dm_new
                           (fst <$> bt_dm_dispatch_from_buffer w_connected 7001
                                      [0; 0; 0; 0]), 1))
    by (vm_compute; reflexivity).
  split; [exact Hrun|].
  destruct (inbound_and_tick_keep w_connected _
              (or_introl (ex_intro _ 7001 (ex_intro _ [0; 0; 0; 0] (ex_intro _ 1 Hrun)))))
    as (Hcfg & _ & _ & _ & _ & _ & Hpm & Hn & _).
  split; [exact Hcfg|]. split; [exact Hpm|exact Hn].
Defined.

(** The session of [Cases.session] ends without seeding. *)
Lemma never_seeding_witness :
  exists w,
    dm_calls bt_dm_new Cases.session = Some w /\
    config_get w "shutdown_when_complete" = Some "1"%string /\
    am_seeding w = 0 /\ shutting_down w = Some false.
Proof.
  exists (default bt_dm_new (dm_calls bt_dm_new Cases.session)).
  assert (Hrun : dm_calls bt_dm_new Cases.session
                 = Some (default bt_dm_new (dm_calls bt_dm_new Cases.session)))
    by (vm_compute; reflexivity).
  split; [exact Hrun|]. split; [vm_compute; reflexivity|].
  destruct (never_seeding _ _ Hrun) as (Hs & Hd & _).
  split; [exact Hs|exact Hd].
Defined.

(** The peer manager after the session of [Cases.session]. *)
Lemma peer_manager_sound_witness :
  exists w,
    dm_calls bt_dm_new Cases.session = Some w /\
    peers_have_pc w = true /\ (next_peer w ∉ pm w).
Proof.
  exists (default bt_dm_new (dm_calls bt_dm_new Cases.session)).
  assert (Hrun : dm_calls bt_dm_new Cases.session
                 = Some (default bt_dm_new (dm_calls bt_dm_new Cases.session)))
    by (vm_compute; reflexivity).
  split; [exact Hrun|].
  exact (proj2 (peer_manager_sound _ _ Hrun)).
Defined.

(** Peer A leaves and peer B joins: A stays first in the choker's list. *)
Lemma choker_list_only_grows_witness :
  exists w',
    dm_calls w_added Cases.turnover = Some w' /\
    (0%nat ∉ pm w') /\
    [0%nat] `prefix_of` lchoke w'.
Proof.
  exists (default bt_dm_new (dm_calls w_added Cases.turnover)).
  assert (Hrun : dm_calls w_added Cases.turnover
                 = Some (default bt_dm_new (dm_calls w_added Cases.turnover)))
    by (vm_compute; reflexivity).
  split; [exact Hrun|].
  split; [apply (bool_decide_unpack _); vm_compute; exact I|].
  exact (proj1 (choker_list_only_grows _ _ _ Hrun)).
Defined.

(** Peer A's handshake arrives when the host cannot send. *)
Lemma bitfield_send_failure_witness :
  0%nat ∈ pm Cases.w_mute /\
  exists w',
    bt_dm_dispatch_from_buffer Cases.w_mute 7001 handshake_bytes = Some (w', 1) /\
    (0%nat ∉ pm w') /\
    msghandler_dispatches (events_since Cases.w_mute w') = [(0%nat, [])].
Proof.
  split; [vm_compute; reflexivity|].
  exists (default bt_dm_new
            (fst <$> bt_dm_dispatch_from_buffer Cases.w_mute 7001 handshake_bytes)).
  assert (Hrun : bt_dm_dispatch_from_buffer Cases.w_mute 7001 handshake_bytes
                 = Some (default bt_dm_new
                           (fst <$> bt_dm_dispatch_from_buffer Cases.w_mute 7001
                                      handshake_bytes), 1))
    by (vm_compute; reflexivity).
  split; [exact Hrun|].
  refine (match bitfield_send_failure Cases.w_mute _ 7001 handshake_bytes 0%nat
                  _ _ _ _ _ _ _ 1 _ _ _ _ _ _ _ _ _ Hrun with
          | conj _ (conj Hout (conj _ Hd)) => conj Hout Hd
          end);
    vm_compute; reflexivity.
Defined.
